(* ===== verification/_CoqProject ===== *)
-Q . S2P
Prelude.v
Format.v
Membership.v
Defuzz.v
Variables.v
Rules.v
Inference.v
Sprinkler.v
Controller.v
Reach.v
Driver.v
Report.v
