(* ===== verification/Prelude.v ===== *)
(** * Verification of the fuzzy sprinkler controller ([src/fuzzy.py])

    ** The program

    One Python script, run from top to bottom.

    - Lines 15-41 build a Mamdani controller with [skfuzzy]: three
      linguistic variables over integer grids (soil moisture 0..100,
      temperature 0..50, water sprinkling 0..100), three triangular terms
      each, five rules, a control system and its simulation object.
    - Lines 43-99 are the driver: the directory [screenshots] is created
      when absent, three membership plots are saved, and ten test cases are
      run through the simulation object, each leaving a bar chart.
    - Lines 102-290 write a PDF report inside one [try]: fonts with a
      fallback, a title page, three text sections, three screenshots read
      from files, the membership plots, the rules in words, the ten test
      cases run a second time on the same simulation object, a conclusion.
      Any exception is caught and printed.

    ** Files, in the order of their dependencies

    - [Prelude] (this file): the error monad [result] with its notation
      (scope [fuzzy_scope]) and [traverse]; boolean comparisons of
      rationals with their reflection lemmas; [Qsum], [pointwise], [Qdot]
      over sample lists; [Qlist_eq] and [result_Qeq] with their [Proper]
      instances; the unit interval; the tactics [q_div], [q_minmax],
      [q_solve], [q_prop], [q_cases]; the hint databases [fuzzy] and
      [fuzzy_rw].
    - [Format]: Python's [{x:.nf}] and [{n}] as [format_fixed],
      [string_of_Z], [string_of_nat], for the titles and texts of lines 89,
      97, 256 and 260-264.
    - [Membership]: [arange] ([np.arange]), triangles as a function
      ([trimf_at]) and sampled ([trimf]), and [interp_membership], by which
      a sampled curve is read at a crisp value.  Shown: a triangle lies in
      the unit interval, is 1 at its apex, 0 outside its support, monotone
      on each side; reading the samples back by interpolation gives the
      triangle at every rational point of an aligned grid
      ([interp_membership_trimf]); a triangle and its mirror image.
    - [Defuzz]: the discrete [centroid], which fails on a curve that sums
      to zero.  Shown: when it fails; it lies between the bounds of the
      grid; it respects [Qeq]; on a symmetric grid a curve that leans to
      one side has its centroid on that side ([mirrored],
      [centroid_mirrored_le], [_ge], [_eq]).
    - [Variables]: a variable as a record of role, label, grid and a
      [gmap] of terms; [new_var], [addTerm], [set_term], [termDegree] with
      their errors; the invariants [wf_var] and [aligned_var], preserved by
      the operations.
    - [Rules]: antecedents as an inductive type, the class [FuzzyOps] of
      connectives with the instance [zadeh] the script runs with,
      [eval_expr] and [evaluate] with their errors.
    - [Inference]: [clip], [aggregate], [rule_curve], [aggregated],
      [infer_one], [infer] and the simulation object ([set_input],
      [compute], [get_output]).  Shown: the level lies within the grid;
      the engine fails exactly when no rule fires; skipping the rules of
      strength zero changes nothing ([aggregated_shortcut]); the order of
      the rules changes nothing ([infer_one_perm]); the aggregate in
      closed form ([aggregate_clipped]); the engine reads its inputs at
      the labels of the antecedents only ([infer_one_agree]).
    - [Sprinkler]: lines 15-41 and one run of lines 83-85, definition by
      definition: [soil_moisture], [temperature], [water_sprinkle] (built
      by the same nine assignments, each of which could raise), [rule1] to
      [rule5], [sprinkle_ctrl], [sprinkler], [run], [sprinkle_level].
      Shown: the variables satisfy the invariants; the degrees the script
      reads are the declared triangles; the firing strengths in closed
      form; the exact set of readings at which [compute] raises
      ([dead_zone]); a level exists everywhere else and lies in 0..100; a
      run does not depend on what earlier runs left in the object.
    - [Controller]: the level as the centroid of a curve in closed form
      ([output_curve], [level_spec]); from it, that the level is at most
      50 where the rule for "high" cannot fire, at least 50 where no rule
      for "low" can, exactly 50 where only "medium" can; that wet soil
      makes the temperature irrelevant; that the terms of each input cover
      its grid.
    - [Reach]: the levels the controller can reach.  The moment of a
      curve about a point and the side of its centroid; a checker
      ([clip_check]) for the sign of the moment of a function cut at any
      height between 0 and 1, sound by [clip_check_sound]; with it, that
      every level lies between 49/3 and 251/3, and that both are reached;
      and the bands of three regions (dry soil in the heat, soil from 80
      on, the cold), of which the scenarios of the specification are
      instances.
    - [Driver]: lines 43-99 over a [World] (the set of existing paths, the
      simulation object, the figures saved, the lines printed):
      [ensure_screenshots], [plot_memberships], [test_cases], [plot_case],
      [plot_cases], [driver].  Shown: the driver ends without an exception
      on every file system and saves thirteen figures; the loop in general,
      for lists of cases that avoid [dead_zone] and for lists that do not;
      what the bars of a chart show; the titles with their levels.
    - [Report]: lines 102-290 as a state monad [M] whose state survives an
      exception, with [try_catch]; the PDF is the list of calls made on
      the [FPDF] object ([PdfOp]).  [load_fonts], [title_page],
      [section_pages], [screenshots_section], [membership_section],
      [rules_section], [test_case_entry], [test_results_section],
      [conclusion_section], [report_body], [generate_report], [main].
      Shown: the calls and the lines printed depend on the file system
      through five files only ([respects], a [Proper] statement for every
      action of the report); the outcome as a function of those five
      ([report_summary]); that the PDF is written exactly when the two
      fonts and the three screenshots exist; that the font fallback cannot
      produce a report; that the report prints for every test case the
      level its chart shows; that the words of the report agree with the
      levels and the fuzzy sets.

    ** Numbers

    Python floats are exact rationals ([Q]); values are compared by [Qeq]
    ([==]).  Rounding of IEEE doubles is not modelled: the theorems are
    about the real-valued computation the script approximates.  The test
    cases and the labels of the report work on Python integers, modelled
    by [Z] and injected into [Q].

    ** Recursion and bounds

    Every recursive definition is structural: over the samples of a curve,
    the rules, the test cases, the items of a report section.  No fuel is
    used and nothing is bounded for the sake of the proofs.  [clip_check]
    runs over the fifty intervals between the heights 0, 1/50, ..., 1 that
    a triangle of the output variable takes on its grid; between two
    consecutive heights a cut triangle is linear in the height, which is
    why the ends of the intervals are enough.  The grids are
    those of the script (101, 51 and 101 points); statements about
    readings hold for every rational between the bounds of the grids, not
    only for grid points.

    ** Library code

    [skfuzzy], [numpy], [matplotlib] and [fpdf] are not in the repository.
    What the script asks of them is modelled from the specification:
    triangular membership, interpolation, min/max connectives, clipping,
    aggregation by maximum, the discrete centroid, and the error kinds.
    The centroid is the sum over the grid points that the specification
    fixes (section 4.5); [skfuzzy] integrates the piecewise-linear curve
    between them, so the decimals of a level are those of the specified
    engine: 60.21 at (30, 35) where the integral gives about 59.99, and
    49/3 and 251/3 as the ends of the range where it gives 50/3 and
    250/3.  The dead zone does not involve the centroid, the
    comparisons of a level with 50 rest on the symmetry of the curve
    only, and the bands of [Reach.scenario_bands] are stated with round
    bounds (80, 19, 25) rather than with the exact values of the sum.  A reading is stored as it
    is given ([set_input]); what [skfuzzy] does with a reading outside
    the universe is not modelled, and the theorems about levels are
    stated for readings between the bounds of the grids.  [addTerm]
    refuses duplicate and out-of-universe terms as the specification
    says; the script's nine assignments meet neither case.
    [plt.savefig] and [os.makedirs] are assumed not to fail: the file
    system is a set of names, without the difference between a file and a
    directory and without permissions, so that "every file system" does
    not include one where [screenshots] is a regular file or cannot be
    written.  The operations of [fpdf] are assumptions about that
    package, the report being outside the specification.  For [fpdf] it is assumed that [add_font] and [image] raise when the
    file they name does not exist; that [set_font] raises for a font that
    is neither a core font nor registered; that a core font encodes
    Latin-1 only and a registered TrueType font every text, so that
    [cell] and [multi_cell] raise on other text under a core font (as the
    maintained [fpdf] package does; its predecessor raises on the same
    text when the document is written, so that the PDF is missing either
    way and only the number of pages begun differs); and that nothing
    else of the report raises except [compute].  The text of an exception
    ([exn_message]) is a stand-in.  Everything the script states itself
    (grids, breakpoints, rules, test cases, file names, texts, labels,
    the order of calls) is translated from the source.

    ** Not modelled

    The pixels of a plot and the layout of a page (page breaks, wrapping,
    widths of glyphs): [pages] counts the calls of [add_page], not the
    pages of the PDF, which automatic page breaks make more; the content
    of files; directories other than
    [screenshots]; the clock, the date on the title page being a parameter
    of [report_body]; the line [plt.close('all')] at the end, which has no
    effect on what is modelled. *)

From Stdlib Require Import QArith Qminmax Lqa Lia List Bool Permutation.
From Stdlib Require Import Morphisms Setoid.
Import ListNotations.

#[local] Open Scope Q_scope.

(** ** The error monad *)

Inductive result (E A : Type) : Type :=
| Ok (a : A)
| Err (e : E).

Arguments Ok {E A} a.
Arguments Err {E A} e.

Definition ret {E A : Type} (a : A) : result E A := Ok a.

Definition bind {E A B : Type} (m : result E A) (k : A -> result E B)
  : result E B :=
  match m with
  | Ok a => k a
  | Err e => Err e
  end.

Definition is_ok {E A : Type} (m : result E A) : bool :=
  match m with Ok _ => true | Err _ => false end.

(** The value of a computation known to succeed. *)
Definition get_ok {E A : Type} (r : result E A) : is_ok r = true -> A :=
  match r with
  | Ok a => fun _ => a
  | Err _ => fun H => False_rect A (Bool.diff_false_true H)
  end.

Definition result_map {E A B : Type} (f : A -> B) (m : result E A)
  : result E B :=
  bind m (fun a => ret (f a)).

(** Run [f] over a list, stopping at the first error. *)
Fixpoint traverse {E A B : Type} (f : A -> result E B) (l : list A)
  : result E (list B) :=
  match l with
  | [] => Ok []
  | a :: l' =>
      bind (f a) (fun b => bind (traverse f l') (fun bs => Ok (b :: bs)))
  end.

(** The error kinds of the fuzzy core.  [InvalidShape], [DuplicateTerm] and
    [OutOfUniverse] arise while the configuration is built; the others
    during an inference. *)
Inductive error : Type :=
| InvalidShape
| DuplicateTerm
| UnknownTerm
| OutOfUniverse
| UnknownVariable
| MissingInput
| NoApplicableRule.

Declare Scope fuzzy_scope.
Delimit Scope fuzzy_scope with fuzzy.

Notation "x <- m ;; k" := (bind m (fun x => k))
  (at level 100, m at next level, right associativity) : fuzzy_scope.
Notation "m ;;; k" := (bind m (fun _ => k))
  (at level 100, right associativity) : fuzzy_scope.

(** ** Boolean comparisons on rationals *)

Definition Qltb (x y : Q) : bool := negb (Qle_bool y x).

(** ** Sums over sample lists *)

Definition Qsum (l : list Q) : Q := fold_right Qplus 0 l.

(** Pointwise combination of two sampled curves; the shorter one decides
    the length, as Python's [zip] does. *)
Fixpoint pointwise {A B C : Type} (f : A -> B -> C) (l : list A) (m : list B)
  : list C :=
  match l, m with
  | a :: l', b :: m' => f a b :: pointwise f l' m'
  | _, _ => []
  end.

Definition Qdot (xs ws : list Q) : Q := Qsum (pointwise Qmult xs ws).

Arguments Qsum : simpl never.
Arguments Qdot : simpl never.

(** Samples related by [Qeq] pointwise. *)
Definition Qlist_eq : list Q -> list Q -> Prop := Forall2 Qeq.

(** Results compared up to [Qeq] on the value. *)
Definition result_Qeq (r1 r2 : result error Q) : Prop :=
  match r1, r2 with
  | Ok a, Ok b => a == b
  | Err e1, Err e2 => e1 = e2
  | _, _ => False
  end.

(** ** The unit interval *)

Definition unit_interval (q : Q) : Prop := 0 <= q <= 1.

(** ** Automation *)

Lemma Qdiv_mul_cancel (n d : Q) : ~ d == 0 -> (n / d) * d == n.
Proof. intros Hd. field. exact Hd. Qed.

(** Replace every quotient whose divisor is provably non-zero by a fresh
    variable [q] with [q * d == n]. *)
Ltac q_div :=
  repeat match goal with
  | |- context [Qdiv ?n ?d] =>
      let H := fresh "Hdiv" in
      assert (H : (n / d) * d == n) by (apply Qdiv_mul_cancel; lra);
      generalize dependent (n / d); intros
  | H0 : context [Qdiv ?n ?d] |- _ =>
      let H := fresh "Hdiv" in
      assert (H : (n / d) * d == n) by (apply Qdiv_mul_cancel; lra);
      generalize dependent (n / d); intros
  end.

(** Replace every [Qmin] and [Qmax] by a fresh variable with its
    specification. *)
Ltac q_minmax :=
  repeat match goal with
  | |- context [Qmin ?a ?b] =>
      pose proof (Q.min_spec a b);
      generalize dependent (Qmin a b); intros
  | |- context [Qmax ?a ?b] =>
      pose proof (Q.max_spec a b);
      generalize dependent (Qmax a b); intros
  | H0 : context [Qmin ?a ?b] |- _ =>
      pose proof (Q.min_spec a b);
      generalize dependent (Qmin a b); intros
  | H0 : context [Qmax ?a ?b] |- _ =>
      pose proof (Q.max_spec a b);
      generalize dependent (Qmax a b); intros
  end.

Ltac q_solve := intros; q_div; q_minmax; first [lra | nra].

(** Case analysis on the boolean comparisons of the model. *)
Lemma Qltb_spec (x y : Q) : reflect (x < y) (Qltb x y).
Proof.
  unfold Qltb. destruct (Qle_bool y x) eqn:E; constructor.
  - apply Qle_bool_iff in E. lra.
  - destruct (Qlt_le_dec x y) as [H|H]; [exact H|].
    apply Qle_bool_iff in H. congruence.
Qed.

Lemma Qle_bool_spec (x y : Q) : reflect (x <= y) (Qle_bool x y).
Proof.
  destruct (Qle_bool x y) eqn:E; constructor.
  - now apply Qle_bool_iff.
  - intros H. apply Qle_bool_iff in H. congruence.
Qed.

Lemma Qeq_bool_spec (x y : Q) : reflect (x == y) (Qeq_bool x y).
Proof.
  destruct (Qeq_bool x y) eqn:E; constructor.
  - now apply Qeq_bool_iff.
  - now apply Qeq_bool_neq.
Qed.

Lemma Qltb_true (x y : Q) : Qltb x y = true <-> x < y.
Proof. destruct (Qltb_spec x y); intuition (lra || discriminate). Qed.

Lemma Qltb_false (x y : Q) : Qltb x y = false <-> y <= x.
Proof. destruct (Qltb_spec x y); intuition (lra || discriminate). Qed.

Lemma Qle_bool_false (x y : Q) : Qle_bool x y = false <-> y < x.
Proof. destruct (Qle_bool_spec x y); intuition (lra || discriminate). Qed.

Lemma Qeq_bool_false (x y : Q) : Qeq_bool x y = false <-> ~ x == y.
Proof. destruct (Qeq_bool_spec x y); intuition (lra || discriminate). Qed.

#[export] Instance Qltb_proper : Proper (Qeq ==> Qeq ==> eq) Qltb.
Proof. intros x x' Hx y y' Hy. unfold Qltb. now rewrite Hx, Hy. Qed.

(** Turn the boolean guards in the hypotheses into propositions that
    [lra] reads. *)
Ltac q_prop :=
  repeat match goal with
  | H : _ |- _ =>
      progress rewrite ?andb_true_iff, ?orb_true_iff, ?negb_true_iff,
        ?andb_false_iff, ?orb_false_iff, ?negb_false_iff,
        ?Qltb_true, ?Qltb_false, ?Qle_bool_iff, ?Qle_bool_false,
        ?Qeq_bool_iff, ?Qeq_bool_false in H
  end.

Ltac q_cases :=
  repeat match goal with
  | |- context [Qltb ?x ?y] => destruct (Qltb_spec x y)
  | |- context [Qle_bool ?x ?y] => destruct (Qle_bool_spec x y)
  | |- context [Qeq_bool ?x ?y] => destruct (Qeq_bool_spec x y)
  end; cbn [andb orb negb].

Create HintDb fuzzy discriminated.
Create Rewrite HintDb fuzzy_rw.

(** ** The monad's laws and inversion lemmas *)

Section Monad.
Context {E A B C : Type}.

Lemma bind_ret_l (a : A) (k : A -> result E B) : bind (ret a) k = k a.
Proof. reflexivity. Qed.

Lemma bind_ret_r (m : result E A) : bind m ret = m.
Proof. now destruct m. Qed.

Lemma bind_assoc (m : result E A) (k : A -> result E B)
  (h : B -> result E C) :
  bind (bind m k) h = bind m (fun a => bind (k a) h).
Proof. now destruct m. Qed.

Lemma bind_Ok_inv (m : result E A) (k : A -> result E B) (b : B) :
  bind m k = Ok b <-> exists a, m = Ok a /\ k a = Ok b.
Proof.
  destruct m as [a|e]; cbn; split.
  - eauto.
  - now intros (a' & [= <-] & H).
  - discriminate.
  - now intros (a' & [=] & _).
Qed.

Lemma bind_Err_inv (m : result E A) (k : A -> result E B) (e : E) :
  bind m k = Err e <-> m = Err e \/ exists a, m = Ok a /\ k a = Err e.
Proof.
  destruct m as [a|e']; cbn; split.
  - eauto.
  - intros [[=]|(a' & [= <-] & H)]. exact H.
  - intros [= ->]. now left.
  - intros [[= ->]|(a' & [=] & _)]. reflexivity.
Qed.

End Monad.

Lemma traverse_length {E A B : Type} (f : A -> result E B) (l : list A) (bs : list B) :
  traverse f l = Ok bs -> length bs = length l.
Proof.
  revert bs. induction l as [|a l IH]; cbn; intros bs H.
  - now injection H as <-.
  - apply bind_Ok_inv in H as (b & _ & H).
    apply bind_Ok_inv in H as (bs' & Hbs & [= <-]).
    cbn. f_equal. now apply IH.
Qed.

(** [traverse] succeeds exactly when [f] succeeds on every element. *)
Lemma traverse_Ok_iff {E A B : Type} (f : A -> result E B) (l : list A)
  (bs : list B) :
  traverse f l = Ok bs <-> Forall2 (fun a b => f a = Ok b) l bs.
Proof.
  revert bs. induction l as [|a l IH]; cbn; intros bs; split.
  - intros [= <-]. constructor.
  - intros H. now inversion H.
  - intros H. apply bind_Ok_inv in H as (b & Hb & H).
    apply bind_Ok_inv in H as (bs' & Hbs & [= <-]).
    constructor; [exact Hb|now apply IH].
  - intros H. inversion H as [|? b ? bs' Hb Hbs]; subst.
    rewrite Hb. cbn. apply IH in Hbs. rewrite Hbs. reflexivity.
Qed.

Lemma traverse_total {E A B : Type} (f : A -> result E B) (g : A -> B) (l : list A) :
  (forall a, In a l -> f a = Ok (g a)) -> traverse f l = Ok (map g l).
Proof.
  induction l as [|a l IH]; cbn; intros H; [reflexivity|].
  rewrite (H a (or_introl eq_refl)). cbn.
  rewrite IH by (intros; apply H; now right). reflexivity.
Qed.

(** [traverse] looks at [f] on the elements of the list only. *)
Lemma traverse_ext {E A B : Type} (f g : A -> result E B) (l : list A) :
  (forall a, In a l -> f a = g a) -> traverse f l = traverse g l.
Proof.
  induction l as [|a l IH]; cbn; intros H; [reflexivity|].
  rewrite (H a (or_introl eq_refl)).
  rewrite IH by (intros; apply H; now right). reflexivity.
Qed.

(** A permutation of the list permutes the results. *)
Lemma traverse_perm {E A B : Type} (f : A -> result E B) (l l' : list A)
  (bs : list B) :
  Permutation l l' -> traverse f l = Ok bs ->
  exists bs', traverse f l' = Ok bs' /\ Permutation bs bs'.
Proof.
  intros H. revert bs.
  induction H as [|a l l' _ IH|a b l|l l' l'' _ IH1 _ IH2]; intros bs Hbs.
  - exists bs. now split.
  - cbn in Hbs. apply bind_Ok_inv in Hbs as (b & Hb & Hbs).
    apply bind_Ok_inv in Hbs as (bs0 & Hbs0 & [= <-]).
    destruct (IH _ Hbs0) as (bs' & Hbs' & Hp).
    exists (b :: bs'). cbn. rewrite Hb, Hbs'.
    split; [reflexivity|now constructor].
  - cbn in Hbs. apply bind_Ok_inv in Hbs as (b' & Hb' & Hbs).
    apply bind_Ok_inv in Hbs as (bs0 & Hbs0 & [= <-]).
    apply bind_Ok_inv in Hbs0 as (a' & Ha' & Hbs0).
    apply bind_Ok_inv in Hbs0 as (bs1 & Hbs1 & [= <-]).
    exists (a' :: b' :: bs1). cbn. rewrite Ha', Hb', Hbs1.
    split; [reflexivity|constructor].
  - destruct (IH1 _ Hbs) as (bs' & Hbs' & Hp1).
    destruct (IH2 _ Hbs') as (bs'' & Hbs'' & Hp2).
    exists bs''. split; [exact Hbs''|now transitivity bs'].
Qed.

#[export] Hint Rewrite @bind_ret_l @bind_ret_r @bind_assoc : fuzzy_rw.

#[export] Instance result_Qeq_equiv : Equivalence result_Qeq.
Proof.
  split.
  - intros [a|e]; cbn; reflexivity.
  - intros [a|e] [b|e']; cbn; auto; intros H; now symmetry.
  - intros [a|e] [b|e'] [c|e'']; cbn; try tauto; intros H1 H2;
      etransitivity; eassumption.
Qed.

Lemma get_ok_spec {E A : Type} (r : result E A) (H : is_ok r = true) :
  r = Ok (get_ok r H).
Proof. destruct r; [reflexivity|discriminate]. Qed.

(** ** Facts on the unit interval *)

#[export] Instance unit_interval_proper : Proper (Qeq ==> iff) unit_interval.
Proof. intros x y H. unfold unit_interval. now rewrite H. Qed.

Lemma unit_interval_0 : unit_interval 0.
Proof. unfold unit_interval. lra. Qed.

Lemma unit_interval_1 : unit_interval 1.
Proof. unfold unit_interval. lra. Qed.

Lemma unit_interval_min (x y : Q) :
  unit_interval x -> unit_interval y -> unit_interval (Qmin x y).
Proof. unfold unit_interval. q_solve. Qed.

Lemma unit_interval_max (x y : Q) :
  unit_interval x -> unit_interval y -> unit_interval (Qmax x y).
Proof. unfold unit_interval. q_solve. Qed.

Lemma unit_interval_compl (x : Q) :
  unit_interval x -> unit_interval (1 - x).
Proof. unfold unit_interval. lra. Qed.

Lemma unit_interval_clip (s y : Q) :
  0 <= s -> unit_interval y -> unit_interval (Qmin s y).
Proof. unfold unit_interval. q_solve. Qed.

#[export] Hint Resolve unit_interval_0 unit_interval_1 unit_interval_min
  unit_interval_max unit_interval_compl unit_interval_clip : fuzzy.

(** ** Facts on sums *)

Lemma Qsum_nil : Qsum [] = 0.
Proof. reflexivity. Qed.

Lemma Qsum_cons (x : Q) (l : list Q) : Qsum (x :: l) = x + Qsum l.
Proof. reflexivity. Qed.

#[export] Instance Qlist_eq_equiv : Equivalence Qlist_eq.
Proof.
  split.
  - intros l. induction l; constructor; [reflexivity|assumption].
  - intros l m H. induction H; constructor; [now symmetry|assumption].
  - intros l m n H. revert n.
    induction H as [|x y l m Hxy _ IH]; intros n Hn; inversion Hn; subst;
      constructor; [now rewrite Hxy|now apply IH].
Qed.

#[export] Instance Qsum_proper : Proper (Qlist_eq ==> Qeq) Qsum.
Proof.
  intros l m H. induction H as [|x y l m Hxy _ IH]; [reflexivity|].
  rewrite !Qsum_cons. now rewrite Hxy, IH.
Qed.

#[export] Instance Qsum_perm : Proper (@Permutation Q ==> Qeq) Qsum.
Proof.
  intros l m H. induction H as [|x l m _ IH|x y l|l m n _ IH1 _ IH2];
    rewrite ?Qsum_cons.
  - reflexivity.
  - now rewrite IH.
  - lra.
  - now rewrite IH1.
Qed.

Lemma Qsum_app (l m : list Q) : Qsum (l ++ m) == Qsum l + Qsum m.
Proof.
  induction l as [|x l IH]; cbn [app]; rewrite ?Qsum_cons, ?Qsum_nil;
    [|rewrite IH]; lra.
Qed.

Lemma Qsum_nonneg (l : list Q) : Forall (Qle 0) l -> 0 <= Qsum l.
Proof. induction 1; rewrite ?Qsum_cons, ?Qsum_nil; lra. Qed.

(** A sum of non-negative samples vanishes only if every sample does. *)
Lemma Qsum_zero_inv (l : list Q) :
  Forall (Qle 0) l -> Qsum l == 0 -> Forall (Qeq 0) l.
Proof.
  induction 1 as [|x l Hx Hl IH]; rewrite ?Qsum_cons; intros H;
    constructor; pose proof (Qsum_nonneg l Hl); [|apply IH]; lra.
Qed.

Lemma Qsum_pos (l : list Q) (x : Q) :
  Forall (Qle 0) l -> In x l -> 0 < x -> 0 < Qsum l.
Proof.
  induction 1 as [|y l Hy Hl IH]; intros Hin Hx; [contradiction|].
  rewrite Qsum_cons. pose proof (Qsum_nonneg l Hl).
  destruct Hin as [->|Hin]; [lra|]. specialize (IH Hin Hx). lra.
Qed.

Lemma last_cons_default {A : Type} (x d : A) (l : list A) :
  last (x :: l) d = last l x.
Proof.
  revert x d. induction l as [|y l IH]; intros x d; [reflexivity|].
  change (last (x :: y :: l) d) with (last (y :: l) d).
  now rewrite !IH.
Qed.

Lemma Forall2_In_r {A B : Type} (R : A -> B -> Prop) (l : list A)
  (m : list B) (b : B) :
  Forall2 R l m -> In b m -> exists a, In a l /\ R a b.
Proof.
  induction 1 as [|a b' l m Hab _ IH]; cbn; [contradiction|].
  intros [->|Hin]; [eauto|]. destruct (IH Hin) as (a' & Ha' & HR). eauto.
Qed.

Lemma Forall2_In_l {A B : Type} (R : A -> B -> Prop) (l : list A)
  (m : list B) (a : A) :
  Forall2 R l m -> In a l -> exists b, In b m /\ R a b.
Proof.
  induction 1 as [|a' b l m Hab _ IH]; cbn; [contradiction|].
  intros [->|Hin]; [eauto|]. destruct (IH Hin) as (b' & Hb' & HR). eauto.
Qed.

Lemma pointwise_length {A B C : Type} (f : A -> B -> C) (l : list A)
  (m : list B) :
  length (pointwise f l m) = Nat.min (length l) (length m).
Proof.
  revert m. induction l as [|a l IH]; intros [|b m]; cbn; auto.
Qed.

(** Weighted sums are monotone in the points when the weights are
    non-negative: the heart of every bound on a centroid. *)
Lemma Qdot_nil_l (ws : list Q) : Qdot [] ws = 0.
Proof. reflexivity. Qed.

Lemma Qdot_cons (x w : Q) (xs ws : list Q) :
  Qdot (x :: xs) (w :: ws) = x * w + Qdot xs ws.
Proof. reflexivity. Qed.

Lemma Qdot_lower (lo : Q) (xs ws : list Q) :
  Forall (Qle lo) xs -> Forall (Qle 0) ws ->
  length xs = length ws ->
  lo * Qsum ws <= Qdot xs ws.
Proof.
  intros Hx. revert ws.
  induction Hx as [|x xs Hlo _ IH]; intros [|w ws] Hw Hlen;
    try discriminate; [rewrite Qdot_nil_l, Qsum_nil; lra|].
  inversion Hw; subst. injection Hlen as Hlen.
  specialize (IH ws ltac:(assumption) Hlen).
  rewrite Qdot_cons, Qsum_cons. nra.
Qed.

Lemma Qdot_upper (hi : Q) (xs ws : list Q) :
  Forall (fun x => x <= hi) xs -> Forall (Qle 0) ws ->
  length xs = length ws ->
  Qdot xs ws <= hi * Qsum ws.
Proof.
  intros Hx. revert ws.
  induction Hx as [|x xs Hhi _ IH]; intros [|w ws] Hw Hlen;
    try discriminate; [rewrite Qdot_nil_l, Qsum_nil; lra|].
  inversion Hw; subst. injection Hlen as Hlen.
  specialize (IH ws ltac:(assumption) Hlen).
  rewrite Qdot_cons, Qsum_cons. nra.
Qed.

#[export] Hint Resolve Qsum_nonneg : fuzzy.

(** Sums over a list given by its two ends and its middle. *)
Lemma pointwise_app {A B C : Type} (f : A -> B -> C) (l1 l2 : list A)
  (m1 m2 : list B) :
  length l1 = length m1 ->
  pointwise f (l1 ++ l2) (m1 ++ m2) = pointwise f l1 m1 ++ pointwise f l2 m2.
Proof.
  revert m1. induction l1 as [|a l1 IH]; intros [|b m1] H; try discriminate;
    cbn; [reflexivity|]. f_equal. apply IH. now injection H.
Qed.

Lemma Qdot_ends (x x' a b : Q) (grid mid : list Q) :
  length grid = length mid ->
  Qdot (x :: grid ++ [x']) (a :: mid ++ [b])
  == x * a + Qdot grid mid + x' * b.
Proof.
  intros H. unfold Qdot. cbn [pointwise].
  rewrite pointwise_app by exact H. cbn [pointwise].
  rewrite Qsum_cons, Qsum_app, Qsum_cons, Qsum_nil. lra.
Qed.

Lemma Qsum_ends (a b : Q) (mid : list Q) :
  Qsum (a :: mid ++ [b]) == a + Qsum mid + b.
Proof. rewrite Qsum_cons, Qsum_app, Qsum_cons, Qsum_nil. lra. Qed.
