(* ===== verification/Format.v ===== *)
(** * Number formatting

    The script prints numbers through Python's format language: integers
    with [{n}] and the sprinkling level with [{x:.2f}] and [{x:.1f}]
    (fuzzy.py lines 89, 97, 256, 260-264).  [format_fixed] renders a
    rational with a fixed number of decimals, rounding to nearest and
    halves to even; strings are byte strings, so the non-ASCII characters
    of the script's texts are their UTF-8 bytes. *)

From Stdlib Require Import QArith Qround ZArith String DecimalString Decimal.
From Stdlib Require Import List Lia Lqa.
From S2P Require Import Prelude.
Import ListNotations.

#[local] Open Scope string_scope.

(** [str(n)] for a natural number and for an integer. *)
Definition string_of_nat (n : nat) : string :=
  NilZero.string_of_uint (Nat.to_uint n).

Definition string_of_Z (z : Z) : string :=
  NilZero.string_of_int (Z.to_int z).

(** The nearest integer, halves to the even neighbour. *)
Definition round_half_even (q : Q) : Z :=
  let f := Qfloor q in
  match Qcompare (q - inject_Z f) (1 # 2) with
  | Lt => f
  | Gt => (f + 1)%Z
  | Eq => if Z.even f then f else (f + 1)%Z
  end.

Fixpoint zero_digits (n : nat) : string :=
  match n with
  | O => ""
  | S n' => "0" ++ zero_digits n'
  end.

Definition pad_left (n : nat) (s : string) : string :=
  zero_digits (n - String.length s) ++ s.

(** [format(q, '.<digits>f')]. *)
Definition format_fixed (digits : nat) (q : Q) : string :=
  let scale := (10 ^ Z.of_nat digits)%Z in
  let r := round_half_even (q * inject_Z scale) in
  let a := Z.abs r in
  let sign := if Qlt_le_dec q 0 then "-" else "" in
  let ip := string_of_Z (a / scale) in
  match digits with
  | O => sign ++ ip
  | _ => sign ++ ip ++ "." ++ pad_left digits (string_of_Z (a mod scale))
  end.

(** ** Lemmas *)

#[local] Open Scope Q_scope.

(** Rounding moves a number by at most one half. *)
Lemma round_half_even_near (q : Q) :
  q - (1 # 2) <= inject_Z (round_half_even q) <= q + (1 # 2).
Proof.
  unfold round_half_even.
  pose proof (Qfloor_le q) as Hlo. pose proof (Qlt_floor q) as Hhi.
  rewrite inject_Z_plus in Hhi. change (inject_Z 1) with 1 in Hhi.
  destruct (Qcompare_spec (q - inject_Z (Qfloor q)) (1 # 2)) as [E|E|E].
  - destruct (Z.even (Qfloor q)); rewrite ?inject_Z_plus;
      change (inject_Z 1) with 1; lra.
  - lra.
  - rewrite inject_Z_plus. change (inject_Z 1) with 1. lra.
Qed.

(** Rounding an integer gives the integer. *)
Lemma round_half_even_Z (z : Z) : round_half_even (inject_Z z) = z.
Proof.
  unfold round_half_even. rewrite Qfloor_Z.
  destruct (Qcompare_spec (inject_Z z - inject_Z z) (1 # 2)) as [E|E|E];
    [lra|reflexivity|lra].
Qed.

(** Rounding is monotone. *)
Lemma round_half_even_mono (p q : Q) :
  p <= q -> (round_half_even p <= round_half_even q)%Z.
Proof.
  intros Hpq. pose proof (Qfloor_resp_le _ _ Hpq) as Hf.
  destruct (Z.eq_dec (Qfloor p) (Qfloor q)) as [E|E].
  - unfold round_half_even. rewrite E.
    destruct (Qcompare_spec (p - inject_Z (Qfloor q)) (1 # 2)),
      (Qcompare_spec (q - inject_Z (Qfloor q)) (1 # 2));
      try destruct (Z.even (Qfloor q)); try lia; lra.
  - assert (Qfloor p + 1 <= Qfloor q)%Z as Hlt by lia.
    pose proof (round_half_even_near p) as [_ Hp].
    assert (round_half_even p <= Qfloor p + 1)%Z.
    { unfold round_half_even.
      destruct (Qcompare _ _); try destruct (Z.even _); lia. }
    assert (Qfloor q <= round_half_even q)%Z.
    { unfold round_half_even.
      destruct (Qcompare _ _); try destruct (Z.even _); lia. }
    lia.
Qed.

Example format_fixed_examples :
  format_fixed 2 (41065 # 682) = "60.21"%string
  /\ format_fixed 1 (41065 # 682) = "60.2"%string
  /\ format_fixed 2 (1 # 8) = "0.12"%string
  /\ format_fixed 2 (3 # 8) = "0.38"%string
  /\ format_fixed 1 50 = "50.0"%string.
Proof. now vm_compute. Qed.
