(* ===== verification/Membership.v ===== *)
(** * Membership functions

    Sample grids, triangular membership functions and the interpolation by
    which a sampled curve is read at a crisp input.

    The script builds every grid with [np.arange(start, stop, 1)] and every
    term with [fuzz.trimf(universe, [a, b, c])], which returns the triangle
    sampled on the grid; a crisp input is later read against the samples by
    [fuzz.interp_membership] (fuzzy.py lines 15-30 and 92-94).  [trimf_at]
    is the triangle as a function of a rational point, [trimf] its sampled
    form, [interp_membership] the read-back. *)

From Stdlib Require Import QArith Qminmax Lqa Lia List Bool ZArith.
From Stdlib Require Import Morphisms Setoid Sorting.Sorted.
From S2P Require Import Prelude.
Import ListNotations.

#[local] Open Scope Q_scope.

(** ** Grids *)

(** [np.arange(start, stop, step)] on integers: the points
    [start + i*step] below [stop].  A non-positive step yields the empty
    grid. *)
Definition arange_count (start stop step : Z) : nat :=
  if (0 <? step)%Z then Z.to_nat ((stop - start + step - 1) / step) else 0%nat.

Definition arange (start stop step : Z) : list Q :=
  map (fun i => inject_Z (start + Z.of_nat i * step))
      (seq 0 (arange_count start stop step)).

(** Least and greatest point of a grid, when it has one. *)
Definition grid_min (u : list Q) : option Q := hd_error u.

Definition grid_max (u : list Q) : option Q :=
  match u with
  | [] => None
  | x :: u' => Some (last u' x)
  end.

(** A property of every cell [(x_i, x_i+1)] of a grid, as a proposition
    and as a test. *)
Fixpoint cellwise (P : Q -> Q -> Prop) (u : list Q) : Prop :=
  match u with
  | x0 :: ((x1 :: _) as u') => P x0 x1 /\ cellwise P u'
  | _ => True
  end.

Fixpoint cellwiseb (p : Q -> Q -> bool) (u : list Q) : bool :=
  match u with
  | x0 :: ((x1 :: _) as u') => p x0 x1 && cellwiseb p u'
  | _ => true
  end.

(** Every point of the grid lies in [[lo, hi]]. *)
Definition grid_within (lo hi : Q) (u : list Q) : bool :=
  forallb (fun x => Qle_bool lo x && Qle_bool x hi) u.

(** ** Triangles *)

Record Tri : Type := mkTri { tri_a : Q; tri_b : Q; tri_c : Q }.

(** The breakpoints are non-decreasing. *)
Definition valid_tri (t : Tri) : bool :=
  Qle_bool (tri_a t) (tri_b t) && Qle_bool (tri_b t) (tri_c t).

(** The triangle at one point: [1] at the apex, the rising edge on
    [(a, b)], the falling edge on [(b, c)], [0] elsewhere.  A degenerate
    edge ([a = b] or [b = c]) is a jump. *)
Definition trimf_at (t : Tri) (x : Q) : Q :=
  let '(mkTri a b c) := t in
  if Qeq_bool x b then 1
  else if Qltb a x && Qltb x b then (x - a) / (b - a)
  else if Qltb b x && Qltb x c then (c - x) / (c - b)
  else 0.

(** [fuzz.trimf(universe, [a, b, c])]: the triangle sampled on the grid;
    refused unless [a <= b <= c]. *)
Definition trimf (universe : list Q) (t : Tri) : result error (list Q) :=
  if valid_tri t then Ok (map (trimf_at t) universe) else Err InvalidShape.

(** The breakpoints lie within the grid's bounds. *)
Definition within_universe (universe : list Q) (t : Tri) : bool :=
  match grid_min universe, grid_max universe with
  | Some lo, Some hi => Qle_bool lo (tri_a t) && Qle_bool (tri_c t) hi
  | _, _ => false
  end.

(** ** Reading a sampled curve *)

(** Linear interpolation through the points [(x_i, y_i)], scanning the
    cells from the left; past the last point the value is [0]. *)
Fixpoint interp (xs ys : list Q) (xx : Q) : Q :=
  match xs, ys with
  | x0 :: xs', y0 :: ys' =>
      match xs', ys' with
      | x1 :: _, y1 :: _ =>
          if Qle_bool xx x1
          then y0 + (xx - x0) * ((y1 - y0) / (x1 - x0))
          else interp xs' ys' xx
      | _, _ => if Qeq_bool xx x0 then y0 else 0
      end
  | _, _ => 0
  end.

(** [fuzz.interp_membership(x, xmf, xx)]: [0] left of the first and right
    of the last grid point, the interpolated sample in between. *)
Definition interp_membership (x xmf : list Q) (xx : Q) : Q :=
  match x with
  | [] => 0
  | x0 :: _ => if Qltb xx x0 then 0 else interp x xmf xx
  end.

(** ** Alignment of a triangle with a grid *)

(** [f] is affine on the cell [[x0, x1]]: the chord through its end
    points is the function. *)
Definition affine_on (f : Q -> Q) (x0 x1 : Q) : Prop :=
  forall x, x0 <= x <= x1 ->
  f x0 + (x - x0) * ((f x1 - f x0) / (x1 - x0)) == f x.

(** No breakpoint of [t] lies strictly inside the cell, and a jump of [t]
    (a degenerate edge) does not fall where the chord would smooth it. *)
Definition cell_ok (t : Tri) (x0 x1 : Q) : bool :=
  let inside p := Qltb x0 p && Qltb p x1 in
  negb (inside (tri_a t)) && negb (inside (tri_b t))
  && negb (inside (tri_c t))
  && (Qltb (tri_a t) (tri_b t)
      || negb (Qltb x0 (tri_b t) && Qle_bool (tri_b t) x1))
  && (Qltb (tri_b t) (tri_c t)
      || negb (Qle_bool x0 (tri_b t) && Qltb (tri_b t) x1)).

(** The grid is strictly increasing and every cell is fine for [t]. *)
Definition aligned (u : list Q) (t : Tri) : bool :=
  cellwiseb Qltb u && cellwiseb (cell_ok t) u.

(** ** Grids: lemmas *)

Lemma arange_length (start stop step : Z) :
  length (arange start stop step) = arange_count start stop step.
Proof. unfold arange. now rewrite length_map, length_seq. Qed.

Lemma arange_nth (start stop step : Z) (i : nat) :
  (i < arange_count start stop step)%nat ->
  nth_error (arange start stop step) i
  = Some (inject_Z (start + Z.of_nat i * step)).
Proof.
  intros Hi. unfold arange.
  rewrite nth_error_map, nth_error_seq.
  apply Nat.ltb_lt in Hi. now rewrite Hi.
Qed.

Lemma arange_In (start stop step : Z) (x : Q) :
  In x (arange start stop step) <->
  exists i, (i < arange_count start stop step)%nat
            /\ x = inject_Z (start + Z.of_nat i * step).
Proof.
  unfold arange. rewrite in_map_iff. split.
  - intros (i & <- & Hi). apply in_seq in Hi. exists i. split; [lia|easy].
  - intros (i & Hi & ->). exists i. split; [easy|]. apply in_seq. lia.
Qed.

(** Every point of the grid lies in [[start, stop)]. *)
Lemma arange_bounds (start stop step : Z) :
  Forall (fun x => inject_Z start <= x < inject_Z stop)
         (arange start stop step).
Proof.
  apply Forall_forall. intros x Hx.
  apply arange_In in Hx as (i & Hi & ->).
  unfold arange_count in Hi. destruct (Z.ltb_spec 0 step) as [Hs|Hs]; [|lia].
  rewrite <- Zle_Qle, <- Zlt_Qlt.
  assert (Z.of_nat i < (stop - start + step - 1) / step)%Z as Hi' by lia.
  assert (Z.of_nat i * step < stop - start)%Z; [|nia].
  pose proof (Z.mul_div_le (stop - start + step - 1) step Hs). nia.
Qed.

Lemma grid_within_spec (lo hi : Q) (u : list Q) :
  grid_within lo hi u = true -> Forall (fun x => lo <= x <= hi) u.
Proof.
  unfold grid_within. rewrite forallb_forall, Forall_forall.
  intros H x Hx. specialize (H x Hx). q_prop. exact H.
Qed.

Lemma cellwiseb_spec (p : Q -> Q -> bool) (u : list Q) :
  cellwiseb p u = true <-> cellwise (fun x y => p x y = true) u.
Proof.
  induction u as [|x0 [|x1 u] IH]; cbn; try tauto.
  rewrite andb_true_iff. cbn in IH. tauto.
Qed.

Lemma cellwise_and (P R : Q -> Q -> Prop) (u : list Q) :
  cellwise P u -> cellwise R u -> cellwise (fun x y => P x y /\ R x y) u.
Proof. induction u as [|x0 [|x1 u] IH]; cbn in *; tauto. Qed.

Lemma cellwise_impl (P R : Q -> Q -> Prop) (u : list Q) :
  (forall x y, P x y -> R x y) -> cellwise P u -> cellwise R u.
Proof.
  intros H. induction u as [|x0 [|x1 u] IH]; cbn in *; intuition.
Qed.

(** ** Triangles: lemmas *)

#[export] Instance trimf_at_proper (t : Tri) :
  Proper (Qeq ==> Qeq) (trimf_at t).
Proof.
  intros x y H. destruct t as [a b c]. unfold trimf_at.
  rewrite (Qeqb_comp _ _ H b b (Qeq_refl b)).
  rewrite (Qltb_proper a a (Qeq_refl a) _ _ H),
    (Qltb_proper b b (Qeq_refl b) _ _ H).
  rewrite (Qltb_proper _ _ H b b (Qeq_refl b)),
    (Qltb_proper _ _ H c c (Qeq_refl c)).
  repeat match goal with |- context [if ?b then _ else _] => destruct b end;
    now rewrite ?H.
Qed.

(** Open a triangle and split on the guards of [trimf_at]. *)
Ltac tri_cases t :=
  destruct t as [?a ?b ?c]; unfold valid_tri, trimf_at in *;
  cbn [tri_a tri_b tri_c] in *; q_prop; q_cases.

Ltac tri_solve t := tri_cases t; first [lra | field; lra | q_solve].

Lemma valid_tri_iff (t : Tri) :
  valid_tri t = true <-> tri_a t <= tri_b t <= tri_c t.
Proof. unfold valid_tri. now rewrite andb_true_iff, !Qle_bool_iff. Qed.

(** The degree of membership in a triangle with non-decreasing
    breakpoints lies in the unit interval at every point. *)
Theorem trimf_at_unit (t : Tri) (x : Q) :
  valid_tri t = true -> unit_interval (trimf_at t x).
Proof. intros Hv. unfold unit_interval. tri_solve t. Qed.

(** The degree is 1 at the apex, whatever the triangle. *)
Theorem trimf_at_apex (t : Tri) : trimf_at t (tri_b t) == 1.
Proof. tri_solve t. Qed.

(** The degree is 0 outside the support [[a, c]]. *)
Theorem trimf_at_outside (t : Tri) (x : Q) :
  valid_tri t = true -> x < tri_a t \/ tri_c t < x -> trimf_at t x == 0.
Proof. intros Hv Hx. tri_solve t. Qed.

(** The degree is positive exactly inside the support or at the apex. *)
Lemma trimf_at_pos_iff (t : Tri) (x : Q) :
  valid_tri t = true ->
  0 < trimf_at t x <-> (tri_a t < x < tri_c t \/ x == tri_b t).
Proof. intros Hv. tri_solve t. Qed.

Lemma trimf_at_rising (t : Tri) (x : Q) :
  tri_a t < tri_b t -> tri_a t <= x <= tri_b t ->
  trimf_at t x == (x - tri_a t) / (tri_b t - tri_a t).
Proof. intros Hab Hx. tri_solve t. Qed.

Lemma trimf_at_falling (t : Tri) (x : Q) :
  tri_a t <= tri_b t -> tri_b t < tri_c t -> tri_b t <= x <= tri_c t ->
  trimf_at t x == (tri_c t - x) / (tri_c t - tri_b t).
Proof. intros Hab Hbc Hx. tri_solve t. Qed.

Lemma trimf_at_zero_left (t : Tri) (x : Q) :
  x <= tri_a t -> x < tri_b t -> trimf_at t x == 0.
Proof. intros Ha Hb. tri_solve t. Qed.

Lemma trimf_at_zero_right (t : Tri) (x : Q) :
  tri_a t <= tri_b t -> tri_c t <= x -> tri_b t < x -> trimf_at t x == 0.
Proof. intros Hab Hc Hb. tri_solve t. Qed.

(** The degree does not decrease towards the apex from the left... *)
Theorem trimf_at_mono_left (t : Tri) (x y : Q) :
  valid_tri t = true -> x <= y -> y <= tri_b t ->
  trimf_at t x <= trimf_at t y.
Proof. intros Hv Hxy Hy. tri_solve t. Qed.

(** ... and does not increase away from it to the right. *)
Theorem trimf_at_mono_right (t : Tri) (x y : Q) :
  valid_tri t = true -> tri_b t <= x -> x <= y ->
  trimf_at t y <= trimf_at t x.
Proof. intros Hv Hx Hxy. tri_solve t. Qed.

(** ** Sampling: lemmas *)

Lemma trimf_Ok (u : list Q) (t : Tri) :
  valid_tri t = true -> trimf u t = Ok (map (trimf_at t) u).
Proof. intros Hv. unfold trimf. now rewrite Hv. Qed.

(** A triangle whose breakpoints decrease somewhere is refused. *)
Theorem trimf_invalid (u : list Q) (t : Tri) :
  tri_b t < tri_a t \/ tri_c t < tri_b t -> trimf u t = Err InvalidShape.
Proof.
  intros H. unfold trimf.
  destruct (valid_tri t) eqn:Hv; [|reflexivity].
  apply valid_tri_iff in Hv. lra.
Qed.

Lemma trimf_inv (u : list Q) (t : Tri) (mf : list Q) :
  trimf u t = Ok mf -> valid_tri t = true /\ mf = map (trimf_at t) u.
Proof.
  unfold trimf. destruct (valid_tri t); [|discriminate].
  now intros [= <-].
Qed.

(** Every sample of a sampled triangle is in the unit interval. *)
Lemma trimf_samples_unit (u : list Q) (t : Tri) (mf : list Q) :
  trimf u t = Ok mf -> Forall unit_interval mf.
Proof.
  intros H. apply trimf_inv in H as [Hv ->].
  apply Forall_map, Forall_forall. intros x _. now apply trimf_at_unit.
Qed.

Lemma trimf_length (u : list Q) (t : Tri) (mf : list Q) :
  trimf u t = Ok mf -> length mf = length u.
Proof. intros H. apply trimf_inv in H as [_ ->]. apply length_map. Qed.

(** ** Interpolation: lemmas *)

(** Where a cell can lie relative to an aligned triangle. *)
Lemma cell_regime (t : Tri) (x0 x1 : Q) :
  valid_tri t = true -> x0 < x1 -> cell_ok t x0 x1 = true ->
  (x1 <= tri_a t /\ x1 < tri_b t) \/ (tri_c t <= x0 /\ tri_b t < x0) \/
  (tri_a t <= x0 /\ x1 <= tri_b t /\ tri_a t < tri_b t) \/
  (tri_b t <= x0 /\ x1 <= tri_c t /\ tri_b t < tri_c t).
Proof.
  intros Hv Hlt Hok. unfold cell_ok, valid_tri in *. q_prop. lra.
Qed.

Lemma trimf_affine_cell (t : Tri) (x0 x1 : Q) :
  valid_tri t = true -> x0 < x1 -> cell_ok t x0 x1 = true ->
  affine_on (trimf_at t) x0 x1.
Proof.
  intros Hv Hlt Hok x Hx.
  destruct (cell_regime t x0 x1 Hv Hlt Hok) as [H|[H|[H|H]]];
    apply valid_tri_iff in Hv.
  - rewrite !trimf_at_zero_left by lra. field; lra.
  - rewrite !trimf_at_zero_right by lra. field; lra.
  - rewrite !trimf_at_rising by lra. field; lra.
  - rewrite !trimf_at_falling by lra. field; lra.
Qed.

Section Interp.
Context (f : Q -> Q) {Hf : Proper (Qeq ==> Qeq) f}.

(** Interpolating the samples of a function that is affine on every cell
    gives the function back, anywhere between the first and the last grid
    point. *)
Lemma interp_affine (x0 : Q) (u : list Q) (x : Q) :
  cellwise Qlt (x0 :: u) -> cellwise (affine_on f) (x0 :: u) ->
  x0 <= x <= last u x0 ->
  interp (x0 :: u) (map f (x0 :: u)) x == f x.
Proof.
  revert x0. induction u as [|x1 u IH]; intros x0 Hinc Haff Hx.
  - cbn in *. destruct (Qeq_bool_spec x x0) as [E|E]; [now rewrite E|lra].
  - destruct Hinc as [Hlt Hinc], Haff as [Ha Haff].
    cbn [interp map]. destruct (Qle_bool_spec x x1) as [Hle|Hgt].
    + apply Ha. lra.
    + apply IH; auto. rewrite last_cons_default in Hx. lra.
Qed.

(** At a grid point the sample itself is read. *)
Lemma interp_grid_point (x0 : Q) (u : list Q) (x : Q) :
  cellwise Qlt (x0 :: u) -> In x (x0 :: u) ->
  interp (x0 :: u) (map f (x0 :: u)) x == f x.
Proof.
  revert x0. induction u as [|x1 u IH]; intros x0 Hinc Hin.
  - destruct Hin as [->|[]]. cbn. now rewrite Qeq_bool_refl.
  - destruct Hinc as [Hlt Hinc]. cbn [interp map].
    destruct (Qle_bool_spec x x1) as [Hle|Hgt].
    + destruct Hin as [->|[->|Hin]].
      * field. lra.
      * field. lra.
      * exfalso. clear IH. revert x1 Hlt Hinc Hle Hin.
        induction u as [|x2 u IHu]; intros x1 Hlt Hinc Hle Hin;
          [contradiction|].
        destruct Hinc as [H12 Hinc]. destruct Hin as [->|Hin]; [lra|].
        apply (IHu x2); auto; lra.
    + apply IH; auto. destruct Hin as [->|Hin]; [lra|exact Hin].
Qed.

End Interp.

Lemma interp_membership_left (u mf : list Q) (lo x : Q) :
  grid_min u = Some lo -> x < lo -> interp_membership u mf x = 0.
Proof.
  destruct u as [|x0 u]; [discriminate|]. intros [= ->] Hx.
  unfold interp_membership. now destruct (Qltb_spec x lo).
Qed.

(** Reading the sampled triangle back by interpolation gives the
    triangle, for every input between the bounds of an aligned grid. *)
Theorem interp_membership_trimf (u : list Q) (t : Tri) (lo hi x : Q) :
  valid_tri t = true -> aligned u t = true ->
  grid_min u = Some lo -> grid_max u = Some hi -> lo <= x <= hi ->
  interp_membership u (map (trimf_at t) u) x == trimf_at t x.
Proof.
  intros Hv Hal Hlo Hhi Hx. destruct u as [|x0 u]; [discriminate|].
  cbn in Hlo, Hhi. injection Hlo as ->. injection Hhi as <-.
  unfold aligned in Hal. apply andb_true_iff in Hal as [Hinc Hok].
  apply cellwiseb_spec in Hinc, Hok.
  unfold interp_membership. destruct (Qltb_spec x lo); [lra|].
  apply interp_affine; [apply trimf_at_proper| | |exact Hx].
  - eapply cellwise_impl; [|exact Hinc]. intros a b H. now apply Qltb_true.
  - eapply cellwise_impl; [|apply (cellwise_and _ _ _ Hinc Hok)].
    intros a b [H1 H2]. apply trimf_affine_cell; auto. now apply Qltb_true.
Qed.
Lemma chord_between (lo hi x0 x1 y0 y1 x : Q) :
  x0 < x1 -> x0 <= x <= x1 -> lo <= y0 <= hi -> lo <= y1 <= hi ->
  lo <= y0 + (x - x0) * ((y1 - y0) / (x1 - x0)) <= hi.
Proof.
  intros Hlt Hx H0 H1. q_div.
  assert (0 <= (x1 - x) * (y0 - lo)) by nra.
  assert (0 <= (x - x0) * (y1 - lo)) by nra.
  assert (0 <= (x1 - x) * (hi - y0)) by nra.
  assert (0 <= (x - x0) * (hi - y1)) by nra.
  split; nra.
Qed.

Lemma interp_cons2 (x0 x1 y0 y1 : Q) (u ys : list Q) (x : Q) :
  interp (x0 :: x1 :: u) (y0 :: y1 :: ys) x =
  if Qle_bool x x1 then y0 + (x - x0) * ((y1 - y0) / (x1 - x0))
  else interp (x1 :: u) (y1 :: ys) x.
Proof. reflexivity. Qed.

Lemma interp_between (lo hi : Q) (u ys : list Q) (x0 x : Q) :
  lo <= 0 <= hi -> cellwise Qlt (x0 :: u) ->
  Forall (fun y => lo <= y <= hi) ys -> x0 <= x ->
  lo <= interp (x0 :: u) ys x <= hi.
Proof.
  intros H0. revert x0 ys. induction u as [|x1 u IH]; intros x0 ys Hinc Hys Hx.
  - destruct Hys as [|y0 ys Hy0 _]; cbn; [lra|]. destruct (Qeq_bool x x0); lra.
  - destruct Hinc as [Hlt Hinc].
    destruct Hys as [|y0 ys Hy0 Hys]; [cbn; lra|].
    destruct Hys as [|y1 ys Hy1 Hys].
    + cbn. destruct (Qeq_bool x x0); lra.
    + rewrite interp_cons2. destruct (Qle_bool_spec x x1) as [Hle|Hgt].
      * apply chord_between; auto.
      * apply IH; auto. lra.
Qed.

(** Reading a curve whose samples lie in the unit interval gives a degree
    in the unit interval, at any input. *)
Lemma interp_membership_unit (u mf : list Q) (x : Q) :
  cellwiseb Qltb u = true -> Forall unit_interval mf ->
  unit_interval (interp_membership u mf x).
Proof.
  intros Hinc Hmf. unfold interp_membership.
  destruct u as [|x0 u]; [apply unit_interval_0|].
  destruct (Qltb_spec x x0); [apply unit_interval_0|].
  apply interp_between; auto; try lra.
  apply cellwiseb_spec in Hinc.
  eapply cellwise_impl; [|exact Hinc]. intros a b H. now apply Qltb_true.
Qed.

(** A sampled triangle whose apex is a grid point has a positive sample. *)
Lemma apex_sample_live (u : list Q) (t : Tri) :
  In (tri_b t) u -> exists y, In y (map (trimf_at t) u) /\ 0 < y.
Proof.
  intros Hin. exists (trimf_at t (tri_b t)). split; [now apply in_map|].
  rewrite trimf_at_apex. lra.
Qed.

(** ** Mirror images *)

(** The triangle seen in a mirror at [m/2]. *)
Definition reflect_tri (m : Q) (t : Tri) : Tri :=
  mkTri (m - tri_c t) (m - tri_b t) (m - tri_a t).

Lemma trimf_at_reflect (m : Q) (t : Tri) (x : Q) :
  trimf_at (reflect_tri m t) (m - x) == trimf_at t x.
Proof.
  unfold reflect_tri. destruct t as [a b c]. unfold trimf_at.
  cbn [tri_a tri_b tri_c]. q_cases; try lra; field; lra.
Qed.

Lemma arange_count_step1 (start stop : Z) :
  arange_count start stop 1 = Z.to_nat (stop - start).
Proof.
  unfold arange_count. change (0 <? 1)%Z with true. cbv iota.
  rewrite Z.div_1_r. f_equal. lia.
Qed.
