(* ===== verification/Defuzz.v ===== *)
(** * Defuzzification

    The discrete centroid of a sampled curve over its grid: the average of
    the grid points weighted by the samples.  An all-zero curve has no
    centroid; the engine reports it as [NoApplicableRule].  In the script
    the centroid is taken by [sprinkler.compute()] (fuzzy.py lines 85 and
    253) over the integer grid of the output variable.

    The last part compares a curve on a symmetric grid with its mirror
    image ([mirrored]) and places the centroid accordingly. *)

From Stdlib Require Import QArith Qminmax Lqa Lia List Bool.
From Stdlib Require Import Morphisms Setoid.
From S2P Require Import Prelude Membership.
Import ListNotations.

#[local] Open Scope Q_scope.

(** [sum(x_i * w_i) / sum(w_i)], refused when the weights sum to zero. *)
Definition centroid (grid agg : list Q) : result error Q :=
  let den := Qsum agg in
  if Qeq_bool den 0 then Err NoApplicableRule
  else Ok (Qdot grid agg / den).

#[export] Instance pointwise_Qmult_proper (xs : list Q) :
  Proper (Qlist_eq ==> Qlist_eq) (pointwise Qmult xs).
Proof.
  intros ws ws' H. revert xs.
  induction H as [|w w' ws ws' Hw _ IH]; intros [|x xs]; cbn;
    constructor; [now rewrite Hw|apply IH].
Qed.

#[export] Instance Qdot_proper (xs : list Q) :
  Proper (Qlist_eq ==> Qeq) (Qdot xs).
Proof. intros ws ws' H. unfold Qdot. now rewrite H. Qed.

(** The centroid does not depend on how the samples are represented. *)
#[export] Instance centroid_proper (grid : list Q) :
  Proper (Qlist_eq ==> result_Qeq) (centroid grid).
Proof.
  intros ws ws' H. unfold centroid.
  assert (Hs : Qsum ws == Qsum ws') by now rewrite H.
  rewrite (Qeqb_comp _ _ Hs 0 0 (Qeq_refl 0)).
  destruct (Qeq_bool (Qsum ws') 0); cbn; [reflexivity|].
  now rewrite H.
Qed.

Section Centroid.
Context (grid agg : list Q).

(** The centroid fails exactly on curves whose samples sum to zero, and
    then with [NoApplicableRule]. *)
Lemma centroid_Err_iff (e : error) :
  centroid grid agg = Err e <-> Qsum agg == 0 /\ e = NoApplicableRule.
Proof.
  unfold centroid. destruct (Qeq_bool_spec (Qsum agg) 0) as [H|H]; split.
  - now intros [= <-].
  - now intros [_ ->].
  - discriminate.
  - tauto.
Qed.

Lemma centroid_Ok_iff (c : Q) :
  centroid grid agg = Ok c <->
  ~ Qsum agg == 0 /\ c = Qdot grid agg / Qsum agg.
Proof.
  unfold centroid. destruct (Qeq_bool_spec (Qsum agg) 0) as [H|H]; split.
  - discriminate.
  - tauto.
  - now intros [= <-].
  - now intros [_ ->].
Qed.

(** A curve with a positive sample and no negative one has a centroid. *)
Lemma centroid_total (w : Q) :
  Forall (Qle 0) agg -> In w agg -> 0 < w ->
  exists c, centroid grid agg = Ok c.
Proof.
  intros Hnn Hin Hw. pose proof (Qsum_pos agg w Hnn Hin Hw) as Hs.
  exists (Qdot grid agg / Qsum agg). apply centroid_Ok_iff. split; [lra|easy].
Qed.

(** The centroid of a non-negative curve lies between any two bounds of
    the grid. *)
Theorem centroid_bounds (lo hi c : Q) :
  Forall (fun x => lo <= x <= hi) grid -> Forall (Qle 0) agg ->
  length grid = length agg ->
  centroid grid agg = Ok c -> lo <= c <= hi.
Proof.
  intros Hg Hnn Hlen Hc. apply centroid_Ok_iff in Hc as [Hs ->].
  pose proof (Qsum_nonneg agg Hnn) as Hs0.
  assert (0 < Qsum agg) as Hpos by lra.
  pose proof (Qdot_lower lo grid agg) as Hl.
  pose proof (Qdot_upper hi grid agg) as Hu.
  assert (lo * Qsum agg <= Qdot grid agg).
  { apply Hl; auto. eapply Forall_impl; [|exact Hg]. cbn. tauto. }
  assert (Qdot grid agg <= hi * Qsum agg).
  { apply Hu; auto. eapply Forall_impl; [|exact Hg]. cbn. tauto. }
  split.
  - apply Qle_shift_div_l; lra.
  - apply Qle_shift_div_r; lra.
Qed.

End Centroid.

(** ** Curves on a grid that is symmetric about a point *)

(** The grid is symmetric about [m], and every sample left of [m] is
    related by [R] to its mirror image. *)
Inductive mirrored (m : Q) (R : Q -> Q -> Prop) : list Q -> list Q -> Prop :=
| mirrored_nil : mirrored m R [] []
| mirrored_one (x a : Q) : x == m -> mirrored m R [x] [a]
| mirrored_ends (x x' a b : Q) (grid mid : list Q) :
    x <= m -> x + x' == 2 * m -> R a b -> mirrored m R grid mid ->
    mirrored m R (x :: grid ++ [x']) (a :: mid ++ [b]).

Lemma mirrored_length (m : Q) (R : Q -> Q -> Prop) (grid agg : list Q) :
  mirrored m R grid agg -> length grid = length agg.
Proof.
  induction 1; cbn; [reflexivity..|]. rewrite !length_app. cbn. lia.
Qed.

Lemma mirrored_impl (m : Q) (R R' : Q -> Q -> Prop) (grid agg : list Q) :
  (forall a b, R a b -> R' a b) ->
  mirrored m R grid agg -> mirrored m R' grid agg.
Proof. intros HR. induction 1; constructor; auto. Qed.

(** When no sample right of [m] exceeds its mirror image, the weighted sum
    of the grid is at most [m] times the sum of the weights... *)
Lemma Qdot_mirrored_le (m : Q) (grid agg : list Q) :
  mirrored m (fun a b => b <= a) grid agg -> Qdot grid agg <= m * Qsum agg.
Proof.
  induction 1 as [|x a Hx|x x' a b grid mid Hx Hxx Hab H IH].
  - unfold Qdot. cbn. rewrite Qsum_nil. lra.
  - unfold Qdot. cbn. rewrite !Qsum_cons, !Qsum_nil, Hx. lra.
  - rewrite Qdot_ends by now apply mirrored_length in H.
    rewrite Qsum_ends. nra.
Qed.

(** ... and at least that when no sample left of [m] exceeds its mirror
    image. *)
Lemma Qdot_mirrored_ge (m : Q) (grid agg : list Q) :
  mirrored m Qle grid agg -> m * Qsum agg <= Qdot grid agg.
Proof.
  induction 1 as [|x a Hx|x x' a b grid mid Hx Hxx Hab H IH].
  - unfold Qdot. cbn. rewrite Qsum_nil. lra.
  - unfold Qdot. cbn. rewrite !Qsum_cons, !Qsum_nil, Hx. lra.
  - rewrite Qdot_ends by now apply mirrored_length in H.
    rewrite Qsum_ends. nra.
Qed.

Section MirroredCentroid.
Context (m : Q) (grid agg : list Q) (c : Q).
Context (Hnn : Forall (Qle 0) agg) (Hc : centroid grid agg = Ok c).

Lemma centroid_pos_sum : 0 < Qsum agg /\ c * Qsum agg == Qdot grid agg.
Proof.
  apply centroid_Ok_iff in Hc as [Hs ->].
  pose proof (Qsum_nonneg agg Hnn). split; [lra|]. now field.
Qed.

(** A curve that leans to the left of [m] has its centroid at most at
    [m]. *)
Theorem centroid_mirrored_le :
  mirrored m (fun a b => b <= a) grid agg -> c <= m.
Proof.
  intros H. apply Qdot_mirrored_le in H.
  destruct centroid_pos_sum as [Hpos Hdot]. nra.
Qed.

(** A curve that leans to the right has it at least at [m]. *)
Theorem centroid_mirrored_ge : mirrored m Qle grid agg -> m <= c.
Proof.
  intros H. apply Qdot_mirrored_ge in H.
  destruct centroid_pos_sum as [Hpos Hdot]. nra.
Qed.

(** A symmetric curve has it at [m]. *)
Theorem centroid_mirrored_eq : mirrored m Qeq grid agg -> c == m.
Proof.
  intros H. apply Qle_antisym.
  - apply centroid_mirrored_le. eapply mirrored_impl; [|exact H].
    intros a b Hab. cbn. rewrite Hab. apply Qle_refl.
  - apply centroid_mirrored_ge. eapply mirrored_impl; [|exact H].
    intros a b Hab. rewrite Hab. apply Qle_refl.
Qed.

End MirroredCentroid.

(** A curve given by a function on a grid given by its points: it is
    enough to compare the points pairwise from both ends. *)
Lemma mirrored_map_seq (m : Q) (R : Q -> Q -> Prop) (x : nat -> Q)
  (f : Q -> Q) (half : nat) :
  forall (n start : nat),
  (n <= 2 * half + 1)%nat ->
  (forall i j, (start <= i <= j)%nat -> (i + j = 2 * start + n - 1)%nat ->
     x i <= m /\ x i + x j == 2 * m /\ ((i < j)%nat -> R (f (x i)) (f (x j)))) ->
  mirrored m R (map x (seq start n)) (map (fun i => f (x i)) (seq start n)).
Proof.
  induction half as [|half IH]; intros n start Hn H.
  - destruct n as [|[|n]]; [constructor| |lia].
    cbn. constructor. destruct (H start start) as (_ & Hx & _); [lia..|]. lra.
  - destruct n as [|[|n]]; [constructor| |].
    + cbn. constructor. destruct (H start start) as (_ & Hx & _); [lia..|]. lra.
    + replace (S (S n)) with (1 + (n + 1))%nat by lia.
      rewrite !seq_app. cbn [seq map Nat.add]. rewrite !map_app. cbn [map].
      destruct (H start (start + 1 + n)%nat) as (H1 & H2 & H3); [lia..|].
      constructor; [exact H1|exact H2|apply H3; lia|].
      apply IH; [lia|]. intros i j Hij Hs. apply H; lia.
Qed.

(** The integer grid from [0] to [2h] is symmetric about [h]. *)
Lemma arange_mirrored (h : Z) (R : Q -> Q -> Prop) (f : Q -> Q) :
  (0 <= h)%Z -> Proper (Qeq ==> Qeq) f ->
  Proper (Qeq ==> Qeq ==> iff) R ->
  (forall y, 0 <= y <= inject_Z h -> R (f y) (f (inject_Z (2 * h) - y))) ->
  mirrored (inject_Z h) R (arange 0 (2 * h + 1) 1)
           (map f (arange 0 (2 * h + 1) 1)).
Proof.
  intros Hh Hf HR H. unfold arange. rewrite map_map.
  apply (mirrored_map_seq _ _ _ _ (Z.to_nat h)).
  - rewrite arange_count_step1. lia.
  - intros i j Hij Hs. rewrite arange_count_step1 in Hs.
    assert (inject_Z (0 + Z.of_nat j * 1)
            == inject_Z (2 * h) - inject_Z (0 + Z.of_nat i * 1)) as Hj.
    { unfold Qminus. rewrite <- inject_Z_opp, <- inject_Z_plus.
      apply inject_Z_injective. lia. }
    assert (0 <= inject_Z (0 + Z.of_nat i * 1) <= inject_Z h) as Hi.
    { rewrite <- (Zle_Qle 0), <- Zle_Qle. lia. }
    split; [apply Hi|]. split.
    + rewrite Hj, inject_Z_mult. change (inject_Z 2) with 2. lra.
    + intros _. rewrite Hj. now apply H.
Qed.
