(* ===== verification/Variables.v ===== *)
(** * Linguistic variables

    A variable is a role, a label, a grid and a table of named terms.  A
    term keeps the triangle it was made from and the samples of that
    triangle on the variable's grid; a crisp value is read against the
    samples by interpolation.

    The script creates its variables with [ctrl.Antecedent(grid, label)]
    and [ctrl.Consequent(grid, label)] and fills them with statements
    [v[name] = fuzz.trimf(v.universe, [a, b, c])] (fuzzy.py lines 15-30):
    [new_var] and [set_term] below. *)

From stdpp Require Import gmap strings.
From Stdlib Require Import QArith Qminmax Lqa.
From S2P Require Import Prelude Membership.

#[local] Open Scope Q_scope.
#[local] Open Scope fuzzy_scope.

(** ** Data *)

Record Term : Type := mkTerm { term_shape : Tri; term_mf : list Q }.

Inductive Role : Type := Antecedent | Consequent.

Record FuzzyVar : Type := mkVar {
  var_role : Role;
  var_label : string;
  var_universe : list Q;
  var_terms : gmap string Term
}.

(** ** Operations *)

(** [ctrl.Antecedent(universe, label)], [ctrl.Consequent(universe, label)]:
    a variable without terms. *)
Definition new_var (role : Role) (universe : list Q) (label : string)
  : FuzzyVar :=
  mkVar role label universe ∅.

(** The term made by [fuzz.trimf(universe, [a, b, c])]. *)
Definition mk_term (universe : list Q) (abc : Tri) : result error Term :=
  mf <- trimf universe abc ;; Ok (mkTerm abc mf).

(** Register a term under a fresh name; its support must lie within the
    grid. *)
Definition addTerm (v : FuzzyVar) (name : string) (tm : Term)
  : result error FuzzyVar :=
  match var_terms v !! name with
  | Some _ => Err DuplicateTerm
  | None =>
      if within_universe (var_universe v) (term_shape tm)
      then Ok (mkVar (var_role v) (var_label v) (var_universe v)
                     (<[name := tm]> (var_terms v)))
      else Err OutOfUniverse
  end.

(** The statement [v[name] = fuzz.trimf(v.universe, abc)]: the right-hand
    side is evaluated first. *)
Definition set_term (v : FuzzyVar) (name : string) (abc : Tri)
  : result error FuzzyVar :=
  tm <- mk_term (var_universe v) abc ;; addTerm v name tm.

(** A run of such statements, stopping at the first that raises. *)
Fixpoint set_terms (v : FuzzyVar) (l : list (string * Tri))
  : result error FuzzyVar :=
  match l with
  | [] => Ok v
  | (name, abc) :: l' => v' <- set_term v name abc ;; set_terms v' l'
  end.

(** The triangle a run of statements gives to a name, if any. *)
Fixpoint assoc_tri (name : string) (l : list (string * Tri)) : option Tri :=
  match l with
  | [] => None
  | (n, abc) :: l' => if decide (n = name) then Some abc else assoc_tri name l'
  end.

(** The degree of a crisp value in a named term. *)
Definition termDegree (v : FuzzyVar) (name : string) (x : Q)
  : result error Q :=
  match var_terms v !! name with
  | None => Err UnknownTerm
  | Some tm => Ok (interp_membership (var_universe v) (term_mf tm) x)
  end.

(** Fuzzification: the degrees of a crisp value in all terms. *)
Definition fuzzify (v : FuzzyVar) (x : Q) : gmap string Q :=
  (fun tm => interp_membership (var_universe v) (term_mf tm) x)
    <$> var_terms v.

(** ** Well-formedness *)

Definition wf_term (universe : list Q) (tm : Term) : Prop :=
  valid_tri (term_shape tm) = true
  /\ within_universe universe (term_shape tm) = true
  /\ term_mf tm = map (trimf_at (term_shape tm)) universe.

(** The grid increases strictly and every term is well formed on it. *)
Definition wf_var (v : FuzzyVar) : Prop :=
  cellwiseb Qltb (var_universe v) = true
  /\ map_Forall (fun _ tm => wf_term (var_universe v) tm) (var_terms v).

(** Every triangle of the variable is aligned with its grid. *)
Definition aligned_var (v : FuzzyVar) : Prop :=
  map_Forall (fun _ tm => aligned (var_universe v) (term_shape tm) = true)
             (var_terms v).

(** ** Lemmas on the operations *)

Lemma new_var_wf (role : Role) (u : list Q) (label : string) :
  cellwiseb Qltb u = true -> wf_var (new_var role u label).
Proof. intros Hu. split; [exact Hu|apply map_Forall_empty]. Qed.

Lemma mk_term_inv (u : list Q) (abc : Tri) (tm : Term) :
  mk_term u abc = Ok tm ->
  valid_tri abc = true /\ tm = mkTerm abc (map (trimf_at abc) u).
Proof.
  unfold mk_term. intros H. apply bind_Ok_inv in H as (mf & Hmf & [= <-]).
  apply trimf_inv in Hmf as [Hv ->]. auto.
Qed.

(** [addTerm] succeeds exactly when the name is fresh and the support
    lies within the grid, and then only the table changes. *)
Lemma addTerm_Ok_iff (v v' : FuzzyVar) (name : string) (tm : Term) :
  addTerm v name tm = Ok v' <->
  var_terms v !! name = None
  /\ within_universe (var_universe v) (term_shape tm) = true
  /\ v' = mkVar (var_role v) (var_label v) (var_universe v)
                (<[name := tm]> (var_terms v)).
Proof.
  unfold addTerm. destruct (var_terms v !! name) eqn:Hl;
    [|destruct (within_universe _ _) eqn:Hw]; split;
    try discriminate; try (intros (? & ? & ?); discriminate).
  - intros [= <-]. auto.
  - intros (_ & _ & ->). reflexivity.
Qed.

Lemma addTerm_duplicate (v : FuzzyVar) (name : string) (tm : Term) :
  is_Some (var_terms v !! name) -> addTerm v name tm = Err DuplicateTerm.
Proof. intros [tm' H]. unfold addTerm. now rewrite H. Qed.

Lemma addTerm_out_of_universe (v : FuzzyVar) (name : string) (tm : Term) :
  var_terms v !! name = None ->
  within_universe (var_universe v) (term_shape tm) = false ->
  addTerm v name tm = Err OutOfUniverse.
Proof. intros H Hw. unfold addTerm. now rewrite H, Hw. Qed.

Lemma set_term_Ok_iff (v v' : FuzzyVar) (name : string) (abc : Tri) :
  set_term v name abc = Ok v' <->
  valid_tri abc = true
  /\ var_terms v !! name = None
  /\ within_universe (var_universe v) abc = true
  /\ v' = mkVar (var_role v) (var_label v) (var_universe v)
        (<[name := mkTerm abc (map (trimf_at abc) (var_universe v))]>
           (var_terms v)).
Proof.
  unfold set_term. rewrite bind_Ok_inv. split.
  - intros (tm & Htm & Hadd). apply mk_term_inv in Htm as [Hv ->].
    apply addTerm_Ok_iff in Hadd as (? & ? & ->). auto.
  - intros (Hv & Hl & Hw & ->). eexists. split.
    + unfold mk_term. rewrite trimf_Ok by exact Hv. reflexivity.
    + apply addTerm_Ok_iff. auto.
Qed.

(** A malformed triangle is refused before the table is consulted. *)
Lemma set_term_invalid (v : FuzzyVar) (name : string) (abc : Tri) :
  valid_tri abc = false -> set_term v name abc = Err InvalidShape.
Proof. intros H. unfold set_term, mk_term, trimf. now rewrite H. Qed.

(** The invariant is kept by every insertion. *)
Lemma set_term_wf (v v' : FuzzyVar) (name : string) (abc : Tri) :
  wf_var v -> set_term v name abc = Ok v' -> wf_var v'.
Proof.
  intros [Hu Hwf] H. apply set_term_Ok_iff in H as (Hv & Hl & Hw & ->).
  split; [exact Hu|]. cbn. apply map_Forall_insert_2; [|exact Hwf].
  repeat split; assumption.
Qed.

Lemma set_term_aligned (v v' : FuzzyVar) (name : string) (abc : Tri) :
  aligned_var v -> aligned (var_universe v) abc = true ->
  set_term v name abc = Ok v' -> aligned_var v'.
Proof.
  intros Hal Ha H. apply set_term_Ok_iff in H as (Hv & Hl & Hw & ->).
  unfold aligned_var. cbn. now apply map_Forall_insert_2.
Qed.

Lemma set_term_universe (v v' : FuzzyVar) (name : string) (abc : Tri) :
  set_term v name abc = Ok v' -> var_universe v' = var_universe v.
Proof. intros H. now apply set_term_Ok_iff in H as (_ & _ & _ & ->). Qed.

(** What was inserted is found, and nothing else moved. *)
Lemma set_term_lookup (v v' : FuzzyVar) (name n : string) (abc : Tri) :
  set_term v name abc = Ok v' ->
  var_terms v' !! n =
  if decide (name = n)
  then Some (mkTerm abc (map (trimf_at abc) (var_universe v)))
  else var_terms v !! n.
Proof.
  intros H. apply set_term_Ok_iff in H as (_ & _ & _ & ->). cbn.
  apply lookup_insert.
Qed.

Lemma termDegree_unknown (v : FuzzyVar) (name : string) (x : Q) :
  var_terms v !! name = None -> termDegree v name x = Err UnknownTerm.
Proof. intros H. unfold termDegree. now rewrite H. Qed.

Lemma termDegree_Ok_inv (v : FuzzyVar) (name : string) (x d : Q) :
  termDegree v name x = Ok d ->
  exists tm, var_terms v !! name = Some tm
             /\ d = interp_membership (var_universe v) (term_mf tm) x.
Proof.
  unfold termDegree. destruct (var_terms v !! name) as [tm|]; [|discriminate].
  intros [= <-]. eauto.
Qed.

(** On a well-formed variable with aligned triangles, the degree read
    from the samples is the triangle's, for any value within the grid. *)
Lemma termDegree_trimf (v : FuzzyVar) (name : string) (tm : Term)
  (lo hi x : Q) :
  wf_var v -> aligned_var v -> var_terms v !! name = Some tm ->
  grid_min (var_universe v) = Some lo ->
  grid_max (var_universe v) = Some hi -> lo <= x <= hi ->
  exists d, termDegree v name x = Ok d /\ d == trimf_at (term_shape tm) x.
Proof.
  intros [_ Hwf] Hal Hl Hlo Hhi Hx. unfold termDegree. rewrite Hl.
  eexists. split; [reflexivity|].
  destruct (Hwf _ _ Hl) as (Hv & _ & ->).
  eapply interp_membership_trimf; eauto.
Qed.

(** On a well-formed variable every degree lies in the unit interval. *)
Lemma termDegree_unit (v : FuzzyVar) (name : string) (x d : Q) :
  wf_var v -> termDegree v name x = Ok d -> unit_interval d.
Proof.
  intros [Hu Hwf] H. apply termDegree_Ok_inv in H as (tm & Hl & ->).
  apply interp_membership_unit; [exact Hu|].
  destruct (Hwf _ _ Hl) as (Hv & _ & ->).
  apply Forall_map, Forall_forall. intros y _. now apply trimf_at_unit.
Qed.

(** ** Runs of insertions *)

Lemma set_terms_wf (l : list (string * Tri)) (v v' : FuzzyVar) :
  wf_var v -> set_terms v l = Ok v' -> wf_var v'.
Proof.
  revert v. induction l as [|[n abc] l IH]; cbn; intros v Hwf H.
  - now injection H as <-.
  - apply bind_Ok_inv in H as (v1 & H1 & H). eauto using set_term_wf.
Qed.

Lemma set_terms_universe (l : list (string * Tri)) (v v' : FuzzyVar) :
  set_terms v l = Ok v' -> var_universe v' = var_universe v.
Proof.
  revert v. induction l as [|[n abc] l IH]; cbn; intros v H.
  - now injection H as <-.
  - apply bind_Ok_inv in H as (v1 & H1 & H).
    rewrite (IH _ H). eauto using set_term_universe.
Qed.

Lemma set_terms_aligned (l : list (string * Tri)) (v v' : FuzzyVar) :
  aligned_var v ->
  forallb (fun p => aligned (var_universe v) p.2) l = true ->
  set_terms v l = Ok v' -> aligned_var v'.
Proof.
  revert v. induction l as [|[n abc] l IH]; cbn; intros v Hal Hall H.
  - now injection H as <-.
  - apply bind_Ok_inv in H as (v1 & H1 & H).
    apply andb_true_iff in Hall as [Ha Hall].
    apply (IH v1); [eauto using set_term_aligned| |exact H].
    now rewrite (set_term_universe _ _ _ _ H1).
Qed.

(** A run that succeeds never names a term that was already there. *)
Lemma set_terms_fresh (l : list (string * Tri)) (v v' : FuzzyVar)
  (n : string) :
  set_terms v l = Ok v' -> is_Some (var_terms v !! n) -> assoc_tri n l = None.
Proof.
  revert v. induction l as [|[n0 abc0] l IH]; cbn; intros v H Hn;
    [reflexivity|].
  apply bind_Ok_inv in H as (v1 & H1 & H).
  pose proof (set_term_lookup _ _ _ n _ H1) as Hl.
  apply set_term_Ok_iff in H1 as (_ & Hfresh & _).
  case_decide as E.
  - subst n0. rewrite Hfresh in Hn. now destruct Hn.
  - apply (IH v1 H). now rewrite Hl.
Qed.

(** After a run, a name holds the sampled triangle the run gave it, and
    the other names hold what they held. *)
Lemma set_terms_lookup (l : list (string * Tri)) (v v' : FuzzyVar)
  (n : string) :
  set_terms v l = Ok v' ->
  var_terms v' !! n =
  match assoc_tri n l with
  | Some abc => Some (mkTerm abc (map (trimf_at abc) (var_universe v)))
  | None => var_terms v !! n
  end.
Proof.
  revert v. induction l as [|[n0 abc0] l IH]; cbn; intros v H.
  - now injection H as <-.
  - apply bind_Ok_inv in H as (v1 & H1 & H).
    rewrite (IH v1 H), (set_term_universe _ _ _ _ H1).
    rewrite (set_term_lookup _ _ _ n _ H1).
    case_decide as E; [|reflexivity].
    rewrite (set_terms_fresh l v1 v' n H); [reflexivity|].
    rewrite (set_term_lookup _ _ _ n _ H1). rewrite decide_True by exact E.
    eauto.
Qed.
