(* ===== verification/Rules.v ===== *)
(** * Rules

    A rule pairs an antecedent, an expression tree over terms of input
    variables, with one consequent term.  The script writes antecedents
    with [&] on terms ([soil_moisture['dry'] & temperature['hot']],
    fuzzy.py lines 33-37); [|] and [~] are the other two combinators.  The
    connectives are a class, [FuzzyOps], so that the engine is proved
    against their laws; [zadeh] (min, max, complement) is the instance the
    script runs with, [product_ops] the usual alternative. *)

From stdpp Require Import gmap strings.
From Stdlib Require Import QArith Qminmax Lqa.
From S2P Require Import Prelude Membership Variables.

#[local] Open Scope Q_scope.
#[local] Open Scope fuzzy_scope.

(** ** Data *)

Inductive Expr : Type :=
| Leaf (v : FuzzyVar) (term : string)
| And (e1 e2 : Expr)
| Or (e1 e2 : Expr)
| Not (e : Expr).

Record Rule : Type := mkRule {
  antecedent : Expr;
  consequent_var : FuzzyVar;
  consequent_term : string
}.

(** ** Connectives *)

Class FuzzyOps : Type := {
  f_and : Q -> Q -> Q;
  f_or : Q -> Q -> Q;
  f_not : Q -> Q;
  f_and_proper :: Proper (Qeq ==> Qeq ==> Qeq) f_and;
  f_or_proper :: Proper (Qeq ==> Qeq ==> Qeq) f_or;
  f_not_proper :: Proper (Qeq ==> Qeq) f_not;
  f_and_unit : forall x y,
    unit_interval x -> unit_interval y -> unit_interval (f_and x y);
  f_or_unit : forall x y,
    unit_interval x -> unit_interval y -> unit_interval (f_or x y);
  f_not_unit : forall x, unit_interval x -> unit_interval (f_not x);
  f_and_comm : forall x y, f_and x y == f_and y x;
  f_and_1 : forall x, unit_interval x -> f_and x 1 == x;
  f_and_0 : forall x, unit_interval x -> f_and x 0 == 0;
  f_or_comm : forall x y, f_or x y == f_or y x;
  f_or_0 : forall x, unit_interval x -> f_or x 0 == x
}.

(** ** Evaluation *)

Section Eval.
Context `{ops : FuzzyOps}.

(** The firing strength of an antecedent under an input assignment. *)
Fixpoint eval_expr (inputs : gmap string Q) (e : Expr) : result error Q :=
  match e with
  | Leaf v term =>
      match inputs !! var_label v with
      | None => Err MissingInput
      | Some x => termDegree v term x
      end
  | And e1 e2 =>
      x <- eval_expr inputs e1 ;; y <- eval_expr inputs e2 ;;
      Ok (f_and x y)
  | Or e1 e2 =>
      x <- eval_expr inputs e1 ;; y <- eval_expr inputs e2 ;;
      Ok (f_or x y)
  | Not e1 => x <- eval_expr inputs e1 ;; Ok (f_not x)
  end.

Definition evaluate (r : Rule) (inputs : gmap string Q) : result error Q :=
  eval_expr inputs (antecedent r).

End Eval.

(** ** Static properties of expressions *)

(** Every variable under a leaf is well formed. *)
Fixpoint wf_expr (e : Expr) : Prop :=
  match e with
  | Leaf v _ => wf_var v
  | And e1 e2 | Or e1 e2 => wf_expr e1 /\ wf_expr e2
  | Not e1 => wf_expr e1
  end.

(** Every leaf names a registered term of its variable and a label that
    has an input. *)
Fixpoint closed_expr (inputs : gmap string Q) (e : Expr) : bool :=
  match e with
  | Leaf v term =>
      bool_decide (is_Some (inputs !! var_label v))
      && bool_decide (is_Some (var_terms v !! term))
  | And e1 e2 | Or e1 e2 => closed_expr inputs e1 && closed_expr inputs e2
  | Not e1 => closed_expr inputs e1
  end.

(** The labels an expression reads. *)
Fixpoint expr_labels (e : Expr) : gset string :=
  match e with
  | Leaf v _ => {[ var_label v ]}
  | And e1 e2 | Or e1 e2 => expr_labels e1 ∪ expr_labels e2
  | Not e1 => expr_labels e1
  end.

Definition wf_rule (r : Rule) : Prop :=
  wf_expr (antecedent r) /\ wf_var (consequent_var r)
  /\ is_Some (var_terms (consequent_var r) !! consequent_term r).

(** ** The two usual families of connectives *)

(** Zadeh's connectives: minimum, maximum, complement. *)
#[export] Program Instance zadeh : FuzzyOps := {|
  f_and := Qmin; f_or := Qmax; f_not := fun x => 1 - x
|}.
Next Obligation. intros x x' Hx. now rewrite Hx. Qed.
Next Obligation. auto with fuzzy. Qed.
Next Obligation. auto with fuzzy. Qed.
Next Obligation. auto with fuzzy. Qed.
Next Obligation. apply Q.min_comm. Qed.
Next Obligation. unfold unit_interval in *. q_solve. Qed.
Next Obligation. unfold unit_interval in *. q_solve. Qed.
Next Obligation. apply Q.max_comm. Qed.
Next Obligation. unfold unit_interval in *. q_solve. Qed.

(** Product and probabilistic sum. *)
Program Definition product_ops : FuzzyOps := {|
  f_and := Qmult; f_or := fun x y => x + y - x * y; f_not := fun x => 1 - x
|}.
Next Obligation. intros x x' Hx y y' Hy. now rewrite Hx, Hy. Qed.
Next Obligation. intros x x' Hx. now rewrite Hx. Qed.
Next Obligation. unfold unit_interval in *. nra. Qed.
Next Obligation. unfold unit_interval in *. nra. Qed.
Next Obligation. unfold unit_interval in *. lra. Qed.
Next Obligation. ring. Qed.
Next Obligation. ring. Qed.
Next Obligation. ring. Qed.
Next Obligation. ring. Qed.
Next Obligation. ring. Qed.

(** ** Lemmas on evaluation *)

Section EvalFacts.
Context `{ops : FuzzyOps}.
Implicit Types (inputs : gmap string Q) (e : Expr).

Lemma eval_leaf_missing inputs (v : FuzzyVar) (term : string) :
  inputs !! var_label v = None ->
  eval_expr inputs (Leaf v term) = Err MissingInput.
Proof. intros H. cbn. now rewrite H. Qed.

Lemma eval_leaf_unknown inputs (v : FuzzyVar) (term : string) (x : Q) :
  inputs !! var_label v = Some x -> var_terms v !! term = None ->
  eval_expr inputs (Leaf v term) = Err UnknownTerm.
Proof. intros H Ht. cbn. rewrite H. now apply termDegree_unknown. Qed.

(** The firing strength of a well-formed antecedent lies in the unit
    interval, whatever lawful connectives are plugged in. *)
Lemma eval_expr_unit inputs e (d : Q) :
  wf_expr e -> eval_expr inputs e = Ok d -> unit_interval d.
Proof.
  revert d. induction e as [v term|e1 IH1 e2 IH2|e1 IH1 e2 IH2|e1 IH1];
    cbn; intros d Hwf H.
  - destruct (inputs !! var_label v); [|discriminate].
    eauto using termDegree_unit.
  - apply bind_Ok_inv in H as (x & Hx & H).
    apply bind_Ok_inv in H as (y & Hy & [= <-]).
    destruct Hwf. apply f_and_unit; eauto.
  - apply bind_Ok_inv in H as (x & Hx & H).
    apply bind_Ok_inv in H as (y & Hy & [= <-]).
    destruct Hwf. apply f_or_unit; eauto.
  - apply bind_Ok_inv in H as (x & Hx & [= <-]). apply f_not_unit; eauto.
Qed.

(** Evaluation succeeds exactly on closed expressions. *)
Lemma eval_expr_ok_closed inputs e :
  is_ok (eval_expr inputs e) = closed_expr inputs e.
Proof.
  induction e as [v term|e1 IH1 e2 IH2|e1 IH1 e2 IH2|e1 IH1]; cbn.
  - unfold termDegree.
    destruct (inputs !! var_label v), (var_terms v !! term); cbn;
      repeat case_bool_decide; try reflexivity;
      exfalso; eauto using is_Some_None; naive_solver.
  - rewrite <- IH1, <- IH2.
    now destruct (eval_expr inputs e1), (eval_expr inputs e2).
  - rewrite <- IH1, <- IH2.
    now destruct (eval_expr inputs e1), (eval_expr inputs e2).
  - rewrite <- IH1. now destruct (eval_expr inputs e1).
Qed.

(** Evaluation reads only the inputs of the labels in the expression. *)
Lemma eval_expr_agree inputs1 inputs2 e :
  (forall l, l ∈ expr_labels e -> inputs1 !! l = inputs2 !! l) ->
  eval_expr inputs1 e = eval_expr inputs2 e.
Proof.
  induction e as [v term|e1 IH1 e2 IH2|e1 IH1 e2 IH2|e1 IH1]; cbn; intros H.
  - rewrite H by set_solver. reflexivity.
  - rewrite IH1, IH2 by (intros; apply H; set_solver). reflexivity.
  - rewrite IH1, IH2 by (intros; apply H; set_solver). reflexivity.
  - rewrite IH1 by (intros; apply H; set_solver). reflexivity.
Qed.

End EvalFacts.

(** With Zadeh's connectives, negation turns a conjunction into the
    disjunction of the negations. *)
Lemma zadeh_de_morgan (inputs : gmap string Q) (e1 e2 : Expr) :
  result_Qeq (eval_expr inputs (Not (And e1 e2)))
             (eval_expr inputs (Or (Not e1) (Not e2))).
Proof.
  cbn. destruct (eval_expr inputs e1) as [x|]; cbn; [|reflexivity].
  destruct (eval_expr inputs e2) as [y|]; cbn; [|reflexivity].
  q_solve.
Qed.

(** ** Evaluation up to [Qeq] *)

Section EvalQeq.
Context `{ops : FuzzyOps}.

Lemma eval_and_Qeq (inputs : gmap string Q) (e1 e2 : Expr) (a b : Q) :
  result_Qeq (eval_expr inputs e1) (Ok a) ->
  result_Qeq (eval_expr inputs e2) (Ok b) ->
  result_Qeq (eval_expr inputs (And e1 e2)) (Ok (f_and a b)).
Proof.
  cbn. destruct (eval_expr inputs e1) as [x|], (eval_expr inputs e2) as [y|];
    cbn; try tauto. intros Hx Hy. now rewrite Hx, Hy.
Qed.

Lemma eval_or_Qeq (inputs : gmap string Q) (e1 e2 : Expr) (a b : Q) :
  result_Qeq (eval_expr inputs e1) (Ok a) ->
  result_Qeq (eval_expr inputs e2) (Ok b) ->
  result_Qeq (eval_expr inputs (Or e1 e2)) (Ok (f_or a b)).
Proof.
  cbn. destruct (eval_expr inputs e1) as [x|], (eval_expr inputs e2) as [y|];
    cbn; try tauto. intros Hx Hy. now rewrite Hx, Hy.
Qed.

Lemma eval_not_Qeq (inputs : gmap string Q) (e : Expr) (a : Q) :
  result_Qeq (eval_expr inputs e) (Ok a) ->
  result_Qeq (eval_expr inputs (Not e)) (Ok (f_not a)).
Proof.
  cbn. destruct (eval_expr inputs e) as [x|]; cbn; [|tauto].
  intros Hx. now rewrite Hx.
Qed.

(** A leaf reads its variable's input and returns the triangle's degree,
    when the variable is well formed and aligned and the input lies on
    its grid. *)
Lemma eval_leaf_Qeq (inputs : gmap string Q) (v : FuzzyVar) (name : string)
  (tm : Term) (lo hi x : Q) :
  wf_var v -> aligned_var v -> var_terms v !! name = Some tm ->
  grid_min (var_universe v) = Some lo ->
  grid_max (var_universe v) = Some hi ->
  inputs !! var_label v = Some x -> lo <= x <= hi ->
  result_Qeq (eval_expr inputs (Leaf v name))
             (Ok (trimf_at (term_shape tm) x)).
Proof.
  intros Hwf Hal Hl Hlo Hhi Hin Hx. cbn. rewrite Hin.
  destruct (termDegree_trimf v name tm lo hi x) as (d & -> & Hd); auto.
Qed.

End EvalQeq.
