(* ===== verification/Inference.v ===== *)
(** * The inference engine and the simulation object

    For one output variable: evaluate every rule that targets it, clip the
    consequent term of each rule that fires at the rule's strength, take
    the pointwise maximum of the clipped curves, and defuzzify by the
    centroid.  A rule of strength zero is skipped.

    The script builds the engine with [ctrl.ControlSystem(rules)] and
    [ctrl.ControlSystemSimulation(ctrl)] (fuzzy.py lines 40-41) and drives
    it with [sprinkler.input[label] = value], [sprinkler.compute()] and
    [sprinkler.output[label]] (lines 83-85, 89, 251-253, 264):
    [ControlSystemSimulation], [set_input], [compute], [get_output].

    After the invariants of curves ([fits]) and the characterisation of
    the engine's error come: what the engine reads of its inputs, the
    shortcut for rules that do not fire, the order of the rules, and the
    aggregate without the shortcut in closed form ([clipped_max]). *)

From stdpp Require Import gmap strings.
From Stdlib Require Import QArith Qminmax Lqa Permutation.
From S2P Require Import Prelude Membership Defuzz Variables Rules.

#[local] Open Scope Q_scope.
#[local] Open Scope fuzzy_scope.

(** ** Clipping and aggregation *)

(** Mamdani clipping: the curve cut off at the firing strength. *)
Definition clip (s : Q) (mf : list Q) : list Q := map (Qmin s) mf.

Definition zeros (u : list Q) : list Q := map (fun _ => 0) u.

(** Pointwise maximum of the curves, over the grid [u]. *)
Definition aggregate (u : list Q) (curves : list (list Q)) : list Q :=
  fold_right (pointwise Qmax) (zeros u) curves.

(** ** One output variable *)

Section Engine.
Context `{ops : FuzzyOps}.

(** The rule's consequent belongs to the output variable [out]. *)
Definition targets (out : FuzzyVar) (r : Rule) : bool :=
  bool_decide (var_label (consequent_var r) = var_label out).

(** The clipped consequent of one rule, or nothing when the rule does not
    fire. *)
Definition rule_curve (inputs : gmap string Q) (r : Rule)
  : result error (option (list Q)) :=
  s <- evaluate r inputs ;;
  match var_terms (consequent_var r) !! consequent_term r with
  | None => Err UnknownTerm
  | Some tm =>
      Ok (if Qeq_bool s 0 then None else Some (clip s (term_mf tm)))
  end.

(** The same without the shortcut: every rule contributes a curve. *)
Definition rule_curve_all (inputs : gmap string Q) (r : Rule)
  : result error (list Q) :=
  s <- evaluate r inputs ;;
  match var_terms (consequent_var r) !! consequent_term r with
  | None => Err UnknownTerm
  | Some tm => Ok (clip s (term_mf tm))
  end.

Definition aggregated (rules : list Rule) (out : FuzzyVar)
  (inputs : gmap string Q) : result error (list Q) :=
  curves <- traverse (rule_curve inputs) (filter (targets out) rules) ;;
  Ok (aggregate (var_universe out) (omap id curves)).

Definition aggregated_all (rules : list Rule) (out : FuzzyVar)
  (inputs : gmap string Q) : result error (list Q) :=
  curves <- traverse (rule_curve_all inputs) (filter (targets out) rules) ;;
  Ok (aggregate (var_universe out) curves).

(** The crisp value of one output variable. *)
Definition infer_one (rules : list Rule) (out : FuzzyVar)
  (inputs : gmap string Q) : result error Q :=
  agg <- aggregated rules out inputs ;;
  centroid (var_universe out) agg.

(** Every listed output variable with its value or its error. *)
Definition infer (rules : list Rule) (outs : list FuzzyVar)
  (inputs : gmap string Q) : gmap string (result error Q) :=
  list_to_map
    (map (fun out => (var_label out, infer_one rules out inputs)) outs).

(** ** The simulation object *)

Record ControlSystem : Type := mkControlSystem { cs_rules : list Rule }.

Record Simulation : Type := mkSim {
  sim_ctrl : ControlSystem;
  sim_input : gmap string Q;
  sim_output : gmap string Q
}.

(** The output variables of a rule base, one per label, in the order of
    their first rule. *)
Fixpoint consequents (rules : list Rule) : list FuzzyVar :=
  match rules with
  | [] => []
  | r :: rules' =>
      consequent_var r
      :: filter (fun v => bool_decide
                            (var_label v <> var_label (consequent_var r)))
                (consequents rules')
  end.

Definition ControlSystemSimulation (ctrl : ControlSystem) : Simulation :=
  mkSim ctrl ∅ ∅.

(** [sim.input[label] = x]. *)
Definition set_input (sim : Simulation) (label : string) (x : Q)
  : Simulation :=
  mkSim (sim_ctrl sim) (<[label := x]> (sim_input sim)) (sim_output sim).

(** [sim.compute()]: every output variable is inferred and stored; the
    first error is raised and leaves the simulation as it was. *)
Definition compute (sim : Simulation) : result error Simulation :=
  let rules := cs_rules (sim_ctrl sim) in
  outs <- traverse
            (fun out => c <- infer_one rules out (sim_input sim) ;;
                        Ok (var_label out, c))
            (consequents rules) ;;
  Ok (mkSim (sim_ctrl sim) (sim_input sim)
            (foldr (fun p m => <[p.1 := p.2]> m) (sim_output sim) outs)).

(** [sim.output[label]]. *)
Definition get_output (sim : Simulation) (label : string) : result error Q :=
  match sim_output sim !! label with
  | Some c => Ok c
  | None => Err UnknownVariable
  end.

End Engine.

(** ** Curves that fit a grid *)

(** A curve fits the grid [u] when it has one sample per grid point and
    every sample is in the unit interval. *)
Definition fits (u c : list Q) : Prop :=
  length c = length u /\ Forall unit_interval c.

Lemma clip_length (s : Q) (mf : list Q) : length (clip s mf) = length mf.
Proof. apply length_map. Qed.

Lemma zeros_length (u : list Q) : length (zeros u) = length u.
Proof. apply length_map. Qed.

Lemma Qsum_zeros (u : list Q) : Qsum (zeros u) == 0.
Proof.
  induction u as [|x u IH]; cbn; [reflexivity|].
  rewrite Qsum_cons. fold (zeros u). lra.
Qed.

Lemma zeros_fits (u : list Q) : fits u (zeros u).
Proof.
  split; [apply zeros_length|].
  apply Forall_map, Forall_forall. intros; apply unit_interval_0.
Qed.

Lemma clip_fits (u mf : list Q) (s : Q) :
  0 <= s -> fits u mf -> fits u (clip s mf).
Proof.
  intros Hs [Hl H]. split; [now rewrite clip_length|].
  apply Forall_map. eapply Forall_impl; [exact H|].
  intros y Hy. cbn. now apply unit_interval_clip.
Qed.

(** Samples in the unit interval are non-negative. *)
Lemma unit_nonneg (c : list Q) : Forall unit_interval c -> Forall (Qle 0) c.
Proof. intros H. eapply Forall_impl; [exact H|]. now intros y [Hy _]. Qed.

Lemma pointwise_max_fits (u c a : list Q) :
  fits u c -> fits u a -> fits u (pointwise Qmax c a).
Proof.
  intros [Hlc Hc] [Hla Ha]. split; [rewrite pointwise_length; lia|].
  clear Hlc Hla. revert a Ha.
  induction Hc as [|y c Hy _ IH]; intros [|z a] Ha; cbn; constructor.
  - inversion Ha; subst. now apply unit_interval_max.
  - apply IH. now inversion Ha.
Qed.

(** The aggregate of fitting curves fits. *)
Lemma aggregate_fits (u : list Q) (curves : list (list Q)) :
  Forall (fits u) curves -> fits u (aggregate u curves).
Proof.
  induction 1 as [|c curves Hc _ IH]; cbn; [apply zeros_fits|].
  now apply pointwise_max_fits.
Qed.

Lemma pointwise_max_nonneg (c a : list Q) :
  Forall (Qle 0) c -> Forall (Qle 0) (pointwise Qmax c a).
Proof.
  intros Hc. revert a. induction Hc as [|y c Hy _ IH]; intros [|z a]; cbn;
    constructor; [q_solve|apply IH].
Qed.

(** The sum of a pointwise maximum of non-negative curves of one length
    vanishes exactly when both sums do. *)
Lemma Qsum_pointwise_max_zero (c a : list Q) :
  length c = length a -> Forall (Qle 0) c -> Forall (Qle 0) a ->
  Qsum (pointwise Qmax c a) == 0 <-> Qsum c == 0 /\ Qsum a == 0.
Proof.
  revert a. induction c as [|y c IH]; intros [|z a] Hl Hc Ha;
    try discriminate; cbn [pointwise].
  - rewrite Qsum_nil. split; [split|]; reflexivity.
  - inversion Hc as [|? ? Hy Hc']; inversion Ha as [|? ? Hz Ha']; subst.
    injection Hl as Hl. specialize (IH a Hl Hc' Ha').
    rewrite !Qsum_cons.
    pose proof (Qsum_nonneg c Hc'). pose proof (Qsum_nonneg a Ha').
    pose proof (Qsum_nonneg _ (pointwise_max_nonneg c a Hc')).
    q_solve.
Qed.

(** The aggregate sums to zero exactly when every curve does. *)
Lemma aggregate_zero_iff (u : list Q) (curves : list (list Q)) :
  Forall (fits u) curves ->
  Qsum (aggregate u curves) == 0 <-> Forall (fun c => Qsum c == 0) curves.
Proof.
  induction 1 as [|c curves Hc Hcs IH]; cbn.
  - split; [constructor|intros _; apply Qsum_zeros].
  - fold (aggregate u curves).
    destruct Hc as [Hl Hc]. destruct (aggregate_fits u curves Hcs) as [Hla Ha].
    rewrite Qsum_pointwise_max_zero, IH, Forall_cons;
      [reflexivity|lia|now apply unit_nonneg..].
Qed.

(** ** Order of the rules *)

#[export] Instance pointwise_Qmax_proper :
  Proper (Qlist_eq ==> Qlist_eq ==> Qlist_eq) (pointwise Qmax).
Proof.
  intros c c' Hc. induction Hc as [|y y' c c' Hy _ IH]; intros a a' Ha;
    [constructor|].
  destruct Ha as [|z z' a a' Hz Ha]; cbn; constructor.
  - now rewrite Hy, Hz.
  - now apply IH.
Qed.

Lemma pointwise_max_swap (a b c : list Q) :
  Qlist_eq (pointwise Qmax a (pointwise Qmax b c))
           (pointwise Qmax b (pointwise Qmax a c)).
Proof.
  revert b c. induction a as [|x a IH]; intros [|y b] [|z c]; cbn;
    try constructor; [q_solve|apply IH].
Qed.

#[export] Instance aggregate_perm (u : list Q) :
  Proper (Permutation ==> Qlist_eq) (aggregate u).
Proof.
  intros cs cs' H. induction H as [|c cs cs' _ IH|c d cs|cs cs' cs'' _ IH1 _ IH2]; cbn.
  - reflexivity.
  - now rewrite IH.
  - apply pointwise_max_swap.
  - etransitivity; eassumption.
Qed.

Lemma pointwise_max_zero_l (z a : list Q) :
  length z = length a -> Forall (Qeq 0) z -> Forall (Qle 0) a ->
  Qlist_eq (pointwise Qmax z a) a.
Proof.
  revert a. induction z as [|x z IH]; intros [|y a] Hl Hz Ha;
    try discriminate; cbn; constructor.
  - inversion Hz; inversion Ha; subst. q_solve.
  - apply IH; [now injection Hl|now inversion Hz|now inversion Ha].
Qed.

(** All rules target the one output variable [out], which is well formed,
    and read well-formed variables. *)
Definition single_output (rules : list Rule) (out : FuzzyVar) : Prop :=
  wf_var out
  /\ Forall (fun r => wf_expr (antecedent r) /\ consequent_var r = out) rules.

Section EngineFacts.
Context `{ops : FuzzyOps}.
Implicit Types (rules : list Rule) (out : FuzzyVar) (inputs : gmap string Q).

Lemma filter_targets rules out :
  single_output rules out -> filter (targets out) rules = rules.
Proof.
  intros [_ H]. induction H as [|r rules [_ Hr] _ IH]; [reflexivity|].
  rewrite filter_cons_True, IH; [reflexivity|].
  unfold targets. rewrite Hr. now apply bool_decide_pack.
Qed.

Lemma wf_term_fits (u : list Q) (tm : Term) :
  wf_term u tm -> fits u (term_mf tm).
Proof.
  intros (Hv & _ & ->). split; [apply length_map|].
  apply Forall_map, Forall_forall. intros y _. now apply trimf_at_unit.
Qed.

(** What [rule_curve] returns. *)
Lemma rule_curve_spec rules out inputs (r : Rule) (oc : option (list Q)) :
  single_output rules out -> In r rules -> rule_curve inputs r = Ok oc ->
  exists s tm,
    evaluate r inputs = Ok s /\ unit_interval s
    /\ var_terms out !! consequent_term r = Some tm
    /\ oc = if Qeq_bool s 0 then None else Some (clip s (term_mf tm)).
Proof.
  intros [Hout Hall] Hin H. rewrite Forall_forall in Hall.
  destruct (Hall r) as [Hwf Hr]; [now apply list_elem_of_In|].
  unfold rule_curve in H. apply bind_Ok_inv in H as (s & Hs & H).
  rewrite Hr in H. destruct (var_terms out !! consequent_term r) as [tm|];
    [|discriminate].
  injection H as <-. exists s, tm.
  split; [exact Hs|]. split; [eapply eval_expr_unit; eauto|]. now split.
Qed.

Lemma rule_curve_fits rules out inputs (r : Rule) (c : list Q) :
  single_output rules out -> In r rules ->
  rule_curve inputs r = Ok (Some c) -> fits (var_universe out) c.
Proof.
  intros Hso Hin H.
  destruct (rule_curve_spec _ _ _ _ _ Hso Hin H) as (s & tm & _ & [Hs _] & Hl & Hc).
  destruct (Qeq_bool s 0); [discriminate|]. injection Hc as ->.
  apply clip_fits; [exact Hs|]. apply wf_term_fits.
  destruct Hso as [[_ Hwf] _]. exact (Hwf _ _ Hl).
Qed.

Lemma aggregated_fits rules out inputs (agg : list Q) :
  single_output rules out -> aggregated rules out inputs = Ok agg ->
  fits (var_universe out) agg.
Proof.
  intros Hso H. unfold aggregated in H. rewrite filter_targets in H by exact Hso.
  apply bind_Ok_inv in H as (ocs & Hocs & [= <-]).
  apply aggregate_fits. apply traverse_Ok_iff in Hocs.
  apply Forall_forall. intros c Hc.
  apply list_elem_of_omap in Hc as (oc & Hoc & Hid). cbn in Hid. subst oc.
  apply list_elem_of_In in Hoc.
  destruct (Forall2_In_r _ _ _ _ Hocs Hoc) as (r & Hr & Hrc).
  eauto using rule_curve_fits.
Qed.

(** The crisp value lies between any two bounds of the output grid. *)
Theorem infer_one_bounds rules out inputs (lo hi c : Q) :
  single_output rules out ->
  Forall (fun x => lo <= x <= hi) (var_universe out) ->
  infer_one rules out inputs = Ok c -> lo <= c <= hi.
Proof.
  intros Hso Hu H. unfold infer_one in H.
  apply bind_Ok_inv in H as (agg & Hagg & Hc).
  destruct (aggregated_fits _ _ _ _ Hso Hagg) as [Hl Hf].
  apply (centroid_bounds (var_universe out) agg lo hi c);
    [exact Hu|now apply unit_nonneg|now symmetry|exact Hc].
Qed.

(** The strengths of all rules, in order. *)
Definition strengths rules inputs : result error (list Q) :=
  traverse (fun r => evaluate r inputs) rules.

(** Every consequent term has a sample that is not zero. *)
Definition live_terms rules : Prop :=
  Forall (fun r => forall tm,
            var_terms (consequent_var r) !! consequent_term r = Some tm ->
            exists y, In y (term_mf tm) /\ 0 < y) rules.

Lemma Qsum_clip_pos (s : Q) (mf : list Q) (y : Q) :
  0 < s -> Forall unit_interval mf -> In y mf -> 0 < y ->
  0 < Qsum (clip s mf).
Proof.
  intros Hs Hmf Hin Hy. apply (Qsum_pos _ (Qmin s y)).
  - apply unit_nonneg. destruct (clip_fits mf mf s) as [_ H]; [lra| |exact H].
    now split.
  - unfold clip. apply in_map_iff. eauto.
  - q_solve.
Qed.

(** How the curve of a rule relates to its strength. *)
Definition curve_for (u : list Q) (s : Q) (oc : option (list Q)) : Prop :=
  unit_interval s
  /\ (s == 0 -> oc = None)
  /\ (~ s == 0 -> exists c, oc = Some c /\ fits u c /\ 0 < Qsum c).

Definition registered rules out : Prop :=
  Forall (fun r => is_Some (var_terms out !! consequent_term r)) rules.

Lemma traverse_rule_curve rules out inputs (ss : list Q) :
  single_output rules out -> live_terms rules -> registered rules out ->
  strengths rules inputs = Ok ss ->
  exists ocs, traverse (rule_curve inputs) rules = Ok ocs
              /\ Forall2 (curve_for (var_universe out)) ss ocs.
Proof.
  intros [Hout Hall]. revert ss.
  induction Hall as [|r rules [Hwf Hr] Hall IH]; intros ss Hlive Hreg Hss.
  - injection Hss as <-. exists []. split; [reflexivity|constructor].
  - inversion Hlive as [|? ? Hlr Hlive']; inversion Hreg as [|? ? [tm Htm] Hreg'];
      subst. cbn in Hss.
    apply bind_Ok_inv in Hss as (s & Hs & Hss).
    apply bind_Ok_inv in Hss as (ss' & Hss' & [= <-]).
    destruct (IH ss' Hlive' Hreg' Hss') as (ocs & Hocs & HF).
    assert (unit_interval s) as Hu by (eapply eval_expr_unit; eauto).
    eexists. split.
    + cbn. unfold rule_curve at 1. rewrite Hs. cbn. rewrite Htm. cbn.
      rewrite Hocs. reflexivity.
    + constructor; [|exact HF]. split; [exact Hu|].
      destruct (Qeq_bool_spec s 0) as [Hz|Hz]; split; try tauto.
      intros _. eexists. split; [reflexivity|].
      assert (fits (var_universe (consequent_var r)) (term_mf tm)) as Hfit.
      { apply wf_term_fits. destruct Hout as [_ Hout]. apply (Hout _ _ Htm). }
      split; [apply clip_fits; [apply Hu|exact Hfit]|].
      destruct (Hlr tm Htm) as (y & Hy & Hpos).
      eapply Qsum_clip_pos; eauto; [|apply Hfit].
      unfold unit_interval in Hu. lra.
Qed.

Lemma curves_zero_iff (u : list Q) (ss : list Q) (ocs : list (option (list Q))) :
  Forall2 (curve_for u) ss ocs ->
  Forall (fun c => Qsum c == 0) (omap id ocs) <-> Forall (fun s => s == 0) ss.
Proof.
  induction 1 as [|s oc ss ocs (Hu & Hz & Hnz) _ IH]; cbn; [easy|].
  rewrite Forall_cons. destruct (Qeq_dec s 0) as [E|E].
  - rewrite (Hz E). cbn. tauto.
  - destruct (Hnz E) as (c & -> & _ & Hpos). cbn. rewrite Forall_cons.
    split; intros [H1 _]; [lra|tauto].
Qed.

Lemma curves_fit (u : list Q) (ss : list Q) (ocs : list (option (list Q))) :
  Forall2 (curve_for u) ss ocs -> Forall (fits u) (omap id ocs).
Proof.
  induction 1 as [|s oc ss ocs (Hu & Hz & Hnz) _ IH]; cbn; [constructor|].
  destruct (Qeq_dec s 0) as [E|E].
  - now rewrite (Hz E).
  - destruct (Hnz E) as (c & -> & Hfit & _). cbn. now constructor.
Qed.

(** The engine reports [NoApplicableRule] exactly when no rule fires. *)
Theorem infer_one_no_rule rules out inputs (ss : list Q) :
  single_output rules out -> live_terms rules -> registered rules out ->
  strengths rules inputs = Ok ss ->
  infer_one rules out inputs = Err NoApplicableRule
  <-> Forall (fun s => s == 0) ss.
Proof.
  intros Hso Hlive Hreg Hss.
  destruct (traverse_rule_curve _ _ _ _ Hso Hlive Hreg Hss) as (ocs & Hocs & HF).
  unfold infer_one, aggregated. rewrite filter_targets by exact Hso.
  rewrite Hocs. cbn. rewrite centroid_Err_iff.
  rewrite aggregate_zero_iff by (eapply curves_fit; eauto).
  rewrite (curves_zero_iff _ _ _ HF). tauto.
Qed.

(** With all strengths defined, the only error is [NoApplicableRule]. *)
Lemma infer_one_Err_inv rules out inputs (ss : list Q) (e : error) :
  single_output rules out -> live_terms rules -> registered rules out ->
  strengths rules inputs = Ok ss ->
  infer_one rules out inputs = Err e ->
  e = NoApplicableRule /\ Forall (fun s => s == 0) ss.
Proof.
  intros Hso Hlive Hreg Hss E.
  assert (e = NoApplicableRule) as ->.
  { destruct (traverse_rule_curve _ _ _ _ Hso Hlive Hreg Hss)
      as (ocs & Hocs & _).
    unfold infer_one, aggregated in E.
    rewrite filter_targets in E by exact Hso.
    rewrite Hocs in E. cbn in E. now apply centroid_Err_iff in E. }
  split; [reflexivity|].
  now apply (infer_one_no_rule _ _ _ _ Hso Hlive Hreg Hss).
Qed.

(** When some rule fires the engine returns a value. *)
Theorem infer_one_fires rules out inputs (ss : list Q) :
  single_output rules out -> live_terms rules -> registered rules out ->
  strengths rules inputs = Ok ss -> Exists (fun s => ~ s == 0) ss ->
  exists c, infer_one rules out inputs = Ok c.
Proof.
  intros Hso Hlive Hreg Hss Hex.
  destruct (infer_one rules out inputs) as [c|e] eqn:E; [eauto|exfalso].
  apply (infer_one_Err_inv _ _ _ _ _ Hso Hlive Hreg Hss) in E as [_ E].
  apply Exists_exists in Hex as (s & Hin & Hs).
  rewrite Forall_forall in E. auto.
Qed.

(** ** What the engine reads of the inputs *)

(** The engine reads the input dictionary at the labels under the
    antecedents and nowhere else: entries left from earlier runs under
    other labels change nothing. *)
Lemma rule_curve_agree inputs1 inputs2 (r : Rule) :
  (forall l, l ∈ expr_labels (antecedent r) ->
             inputs1 !! l = inputs2 !! l) ->
  rule_curve inputs1 r = rule_curve inputs2 r.
Proof.
  intros H. unfold rule_curve, evaluate.
  now rewrite (eval_expr_agree inputs1 inputs2).
Qed.

Lemma infer_one_agree rules out inputs1 inputs2 :
  (forall r l, In r rules -> l ∈ expr_labels (antecedent r) ->
               inputs1 !! l = inputs2 !! l) ->
  infer_one rules out inputs1 = infer_one rules out inputs2.
Proof.
  intros H. unfold infer_one, aggregated.
  rewrite (traverse_ext (rule_curve inputs1) (rule_curve inputs2));
    [reflexivity|].
  intros r Hr. apply rule_curve_agree. intros l. apply (H r l).
  apply list_elem_of_In. apply list_elem_of_In in Hr.
  now apply list_elem_of_filter in Hr as [_ Hr].
Qed.

End EngineFacts.

(** ** Curves given by a function on the grid *)

Lemma clip_map (s : Q) (f : Q -> Q) (u : list Q) :
  clip s (map f u) = map (fun y => Qmin s (f y)) u.
Proof. unfold clip. now rewrite map_map. Qed.

Lemma pointwise_map (op : Q -> Q -> Q) (f g : Q -> Q) (u : list Q) :
  pointwise op (map f u) (map g u) = map (fun y => op (f y) (g y)) u.
Proof. induction u as [|x u IH]; cbn; [reflexivity|now rewrite IH]. Qed.

Lemma map_Qlist_eq (f g : Q -> Q) (u : list Q) :
  (forall y, In y u -> f y == g y) -> Qlist_eq (map f u) (map g u).
Proof.
  induction u as [|x u IH]; cbn; intros H; constructor.
  - apply H. now left.
  - apply IH. intros y Hy. apply H. now right.
Qed.

(** ** The shortcut for rules that do not fire *)

(** A curve clipped at zero is the zero curve. *)
Lemma clip_zero (s : Q) (mf : list Q) :
  s == 0 -> Forall (Qle 0) mf -> Forall (Qeq 0) (clip s mf).
Proof.
  intros Hs H. apply Forall_map. eapply Forall_impl; [exact H|].
  intros y Hy. cbn. q_solve.
Qed.

(** What the shortcut leaves out is a zero curve of the right length. *)
Definition skipped (u : list Q) (oc : option (list Q)) (c : list Q) : Prop :=
  fits u c /\ (oc = Some c \/ (oc = None /\ Forall (Qeq 0) c)).

Lemma aggregate_skip (u : list Q) (ocs : list (option (list Q)))
  (cs : list (list Q)) :
  Forall2 (skipped u) ocs cs ->
  Qlist_eq (aggregate u (omap id ocs)) (aggregate u cs).
Proof.
  induction 1 as [|oc c ocs cs [Hfit [-> | [-> Hz]]] HF IH]; cbn.
  - reflexivity.
  - now apply pointwise_Qmax_proper.
  - fold (aggregate u cs). rewrite IH. symmetry.
    assert (fits u (aggregate u cs)) as [Hl Ha].
    { apply aggregate_fits. clear IH.
      induction HF as [|? ? ? ? [? _] _ IH']; now constructor. }
    apply pointwise_max_zero_l;
      [destruct Hfit; lia|exact Hz|now apply unit_nonneg].
Qed.

Section Shortcut.
Context `{ops : FuzzyOps}.

Lemma rule_curve_skipped rules out inputs (r : Rule) :
  single_output rules out -> In r rules ->
  match rule_curve inputs r, rule_curve_all inputs r with
  | Ok oc, Ok c => skipped (var_universe out) oc c
  | Err e, Err e' => e = e'
  | _, _ => False
  end.
Proof.
  intros Hso Hin. pose proof Hso as [[_ Hwf] Hall].
  rewrite Forall_forall in Hall.
  destruct (Hall r) as [Hr Hout]; [now apply list_elem_of_In|].
  unfold rule_curve, rule_curve_all.
  destruct (evaluate r inputs) as [s|e] eqn:Hs; cbn; [|reflexivity].
  rewrite Hout.
  destruct (var_terms out !! consequent_term r) as [tm|] eqn:Htm;
    [|reflexivity].
  assert (unit_interval s) as Hu by (eapply eval_expr_unit; eauto).
  pose proof (wf_term_fits _ _ (Hwf _ _ Htm)) as Hfit.
  split; [apply clip_fits; [apply Hu|exact Hfit]|].
  destruct (Qeq_bool_spec s 0) as [Hz|Hz]; [right|now left].
  split; [reflexivity|]. apply clip_zero; [exact Hz|].
  apply unit_nonneg, Hfit.
Qed.

Lemma traverse_skipped rules out inputs (rs : list Rule) :
  single_output rules out -> (forall r, In r rs -> In r rules) ->
  match traverse (rule_curve inputs) rs, traverse (rule_curve_all inputs) rs
  with
  | Ok ocs, Ok cs => Forall2 (skipped (var_universe out)) ocs cs
  | Err e, Err e' => e = e'
  | _, _ => False
  end.
Proof.
  intros Hso. induction rs as [|r rs IH]; intros Hin; cbn; [constructor|].
  pose proof (rule_curve_skipped rules out inputs r Hso
                (Hin r (or_introl eq_refl))) as Hr.
  destruct (rule_curve inputs r), (rule_curve_all inputs r); cbn;
    try contradiction; [|exact Hr].
  specialize (IH (fun r' H => Hin r' (or_intror H))).
  destruct (traverse (rule_curve inputs) rs),
           (traverse (rule_curve_all inputs) rs); cbn;
    try contradiction; [|exact IH].
  now constructor.
Qed.

(** Skipping the rules of strength zero changes neither the aggregated
    curve nor the error. *)
Theorem aggregated_shortcut rules out inputs :
  single_output rules out ->
  match aggregated rules out inputs, aggregated_all rules out inputs with
  | Ok a, Ok b => Qlist_eq a b
  | Err e, Err e' => e = e'
  | _, _ => False
  end.
Proof.
  intros Hso. unfold aggregated, aggregated_all.
  rewrite filter_targets by exact Hso.
  pose proof (traverse_skipped rules out inputs rules Hso (fun _ H => H)) as H.
  destruct (traverse (rule_curve inputs) rules),
           (traverse (rule_curve_all inputs) rules); cbn;
    try contradiction; [|exact H].
  now apply aggregate_skip.
Qed.

End Shortcut.

(** ** The order of the rules *)

Section Order.
Context `{ops : FuzzyOps}.

(** The order of the rules changes the aggregated curve by nothing but
    the order in which the maxima are taken. *)
Lemma aggregated_perm rules rules' out inputs (agg : list Q) :
  Permutation rules rules' -> aggregated rules out inputs = Ok agg ->
  exists agg', aggregated rules' out inputs = Ok agg' /\ Qlist_eq agg agg'.
Proof.
  intros Hp H. unfold aggregated in *.
  apply bind_Ok_inv in H as (ocs & Hocs & [= <-]).
  assert (Permutation (filter (targets out) rules)
                      (filter (targets out) rules')) as Hf by now rewrite Hp.
  destruct (traverse_perm _ _ _ _ Hf Hocs) as (ocs' & Hocs' & Hp').
  rewrite Hocs'. eexists. split; [reflexivity|].
  apply aggregate_perm. now rewrite Hp'.
Qed.

Theorem infer_one_perm rules rules' out inputs :
  Permutation rules rules' -> is_ok (aggregated rules out inputs) = true ->
  result_Qeq (infer_one rules out inputs) (infer_one rules' out inputs).
Proof.
  intros Hp Hok. unfold infer_one.
  destruct (aggregated rules out inputs) as [agg|] eqn:H; [|discriminate].
  destruct (aggregated_perm _ _ _ _ _ Hp H) as (agg' & H' & Hagg).
  rewrite H'. cbn. now apply centroid_proper.
Qed.

End Order.

(** A rule base with one output variable has that one consequent. *)
Lemma consequents_single (rules : list Rule) (out : FuzzyVar) :
  single_output rules out -> rules <> [] -> consequents rules = [out].
Proof.
  intros [_ H] Hne. induction H as [|r rules [_ Hr] H IH]; [easy|].
  cbn. rewrite Hr. f_equal.
  destruct rules as [|r' rules]; [reflexivity|].
  rewrite IH by easy. cbn.
  destruct (decide _) as [Hb|]; [|reflexivity].
  now apply bool_decide_unpack in Hb.
Qed.

(** ** The aggregate without the shortcut, in closed form *)

Section AllCurves.
Context `{ops : FuzzyOps}.

(** Without the shortcut the curves are the consequent terms, each
    clipped at the strength of its rule. *)
Lemma traverse_rule_curve_all (rules : list Rule) (inputs : gmap string Q)
  (ss : list Q) (tms : list Term) :
  strengths rules inputs = Ok ss ->
  Forall2 (fun r tm =>
             var_terms (consequent_var r) !! consequent_term r = Some tm)
          rules tms ->
  traverse (rule_curve_all inputs) rules
  = Ok (pointwise (fun s tm => clip s (term_mf tm)) ss tms).
Proof.
  intros Hss H. revert ss Hss.
  induction H as [|r tm rules tms Hr _ IH]; intros ss Hss.
  - now injection Hss as <-.
  - cbn in Hss. apply bind_Ok_inv in Hss as (s & Hs & Hss).
    apply bind_Ok_inv in Hss as (ss' & Hss' & [= <-]).
    cbn. unfold rule_curve_all at 1. rewrite Hs. cbn. rewrite Hr. cbn.
    now rewrite (IH ss' Hss').
Qed.

End AllCurves.

(** The aggregate of triangles clipped at given heights, as a function on
    the grid. *)
Definition clipped_max (ws : list Q) (tris : list Tri) (y : Q) : Q :=
  fold_right Qmax 0 (pointwise (fun w abc => Qmin w (trimf_at abc y)) ws tris).

Lemma aggregate_cons (u c : list Q) (cs : list (list Q)) :
  aggregate u (c :: cs) = pointwise Qmax c (aggregate u cs).
Proof. reflexivity. Qed.

Lemma aggregate_clipped (u : list Q) (ws : list Q) (tris : list Tri) :
  aggregate u
    (pointwise (fun w tm => clip w (term_mf tm)) ws
       (map (fun abc => mkTerm abc (map (trimf_at abc) u)) tris))
  = map (clipped_max ws tris) u.
Proof.
  revert tris. induction ws as [|w ws IH]; intros [|abc tris];
    cbn [pointwise map term_mf]; try reflexivity.
  rewrite aggregate_cons, IH, clip_map, pointwise_map. reflexivity.
Qed.

#[export] Instance clipped_max_proper :
  Proper (Qlist_eq ==> eq ==> Qeq ==> Qeq) clipped_max.
Proof.
  intros ws ws' Hw tris ? <- y y' Hy. unfold clipped_max. revert tris.
  induction Hw as [|w w' ws ws' H _ IH]; intros [|abc tris]; cbn;
    try reflexivity.
  now rewrite IH, H, Hy.
Qed.

(** The closed form is monotone in each triangle whose rule fires. *)
Lemma clipped_max_le (ws : list Q) (tris : list Tri) (y y' : Q) :
  Forall (fun abc => valid_tri abc = true) tris ->
  Forall2 (fun w abc => w == 0 \/ trimf_at abc y' <= trimf_at abc y)
          ws tris ->
  clipped_max ws tris y' <= clipped_max ws tris y.
Proof.
  intros Hv H. unfold clipped_max.
  induction H as [|w abc ws tris Hw _ IH]; cbn; [lra|].
  inversion Hv as [|? ? Habc Hv']; subst. specialize (IH Hv').
  pose proof (trimf_at_unit abc y Habc) as [? _].
  pose proof (trimf_at_unit abc y' Habc) as [? _].
  destruct Hw; q_solve.
Qed.

Lemma clipped_max_nonneg (ws : list Q) (tris : list Tri) (y : Q) :
  0 <= clipped_max ws tris y.
Proof.
  unfold clipped_max.
  induction (pointwise _ ws tris) as [|a l IH]; cbn; [lra|q_solve].
Qed.
