(* ===== verification/Sprinkler.v ===== *)
(** * The sprinkler system of the script

    The configuration that [src/fuzzy.py] builds at module level: three
    variables with three triangular terms each (lines 15-30), five rules
    (lines 33-37), the control system and its simulation object (lines
    40-41), and one run of the simulation (lines 83-85).  The definitions
    of the first part translate the lines they name; [in_range],
    [strengths_spec], [dead_zone] and [level_at] are the vocabulary of the
    theorems. *)

From stdpp Require Import gmap strings.
From Stdlib Require Import QArith Qminmax Lqa.
From S2P Require Import Prelude Membership Defuzz Variables Rules Inference.

#[local] Open Scope Q_scope.
#[local] Open Scope fuzzy_scope.

(** ** The variables of the script *)

(** fuzzy.py line 15: soil moisture on 0..100. *)
Definition soil_moisture_new : FuzzyVar :=
  new_var Antecedent (arange 0 101 1) "Soil Moisture".

(** fuzzy.py line 16: temperature on 0..50. *)
Definition temperature_new : FuzzyVar :=
  new_var Antecedent (arange 0 51 1) "Temperature".

(** fuzzy.py line 17: water sprinkling on 0..100. *)
Definition water_sprinkle_new : FuzzyVar :=
  new_var Consequent (arange 0 101 1) "Water Sprinkling".

(** The triangles of fuzzy.py lines 20-22 ... *)
Definition soil_dry : Tri := mkTri 0 0 50.
Definition soil_moist : Tri := mkTri 20 50 80.
Definition soil_wet : Tri := mkTri 50 100 100.

(** ... of lines 24-26 ... *)
Definition temp_cold : Tri := mkTri 0 0 20.
Definition temp_warm : Tri := mkTri 10 25 40.
Definition temp_hot : Tri := mkTri 30 50 50.

(** ... and of lines 28-30. *)
Definition sprinkle_low : Tri := mkTri 0 0 50.
Definition sprinkle_medium : Tri := mkTri 20 50 80.
Definition sprinkle_high : Tri := mkTri 50 100 100.

(** fuzzy.py lines 20-22: the three assignments, in order. *)
Definition soil_moisture_terms : result error FuzzyVar :=
  v <- set_term soil_moisture_new "dry" soil_dry ;;
  v <- set_term v "moist" soil_moist ;;
  set_term v "wet" soil_wet.

(** fuzzy.py lines 24-26. *)
Definition temperature_terms : result error FuzzyVar :=
  v <- set_term temperature_new "cold" temp_cold ;;
  v <- set_term v "warm" temp_warm ;;
  set_term v "hot" temp_hot.

(** fuzzy.py lines 28-30. *)
Definition water_sprinkle_terms : result error FuzzyVar :=
  v <- set_term water_sprinkle_new "low" sprinkle_low ;;
  v <- set_term v "medium" sprinkle_medium ;;
  set_term v "high" sprinkle_high.

(** The variables as the rest of the script sees them: the nine
    statements above raise nothing. *)
Definition soil_moisture : FuzzyVar :=
  get_ok soil_moisture_terms
    (@eq_refl bool true <: is_ok soil_moisture_terms = true).

Definition temperature : FuzzyVar :=
  get_ok temperature_terms
    (@eq_refl bool true <: is_ok temperature_terms = true).

Definition water_sprinkle : FuzzyVar :=
  get_ok water_sprinkle_terms
    (@eq_refl bool true <: is_ok water_sprinkle_terms = true).

(** ** The rules (fuzzy.py lines 33-37) *)

Definition rule1 : Rule :=
  mkRule (And (Leaf soil_moisture "dry") (Leaf temperature "hot"))
         water_sprinkle "high".

Definition rule2 : Rule :=
  mkRule (And (Leaf soil_moisture "dry") (Leaf temperature "warm"))
         water_sprinkle "medium".

Definition rule3 : Rule :=
  mkRule (And (Leaf soil_moisture "moist") (Leaf temperature "warm"))
         water_sprinkle "medium".

Definition rule4 : Rule :=
  mkRule (And (Leaf soil_moisture "moist") (Leaf temperature "cold"))
         water_sprinkle "low".

Definition rule5 : Rule :=
  mkRule (Leaf soil_moisture "wet") water_sprinkle "low".

(** ** The control system (fuzzy.py lines 40-41) *)

Definition sprinkle_ctrl : ControlSystem :=
  mkControlSystem [rule1; rule2; rule3; rule4; rule5].

Definition sprinkler : Simulation := ControlSystemSimulation sprinkle_ctrl.

(** One run of the statements of fuzzy.py lines 83-85 (and 251-253):
    both inputs are set, then the system is computed. *)
Definition run (sim : Simulation) (soil temp : Q) : result error Simulation :=
  compute (set_input (set_input sim "Soil Moisture" soil) "Temperature" temp).

(** The value then read as [sprinkler.output["Water Sprinkling"]]
    (fuzzy.py lines 89 and 264). *)
Definition sprinkle_level (soil temp : Q) : result error Q :=
  sim <- run sprinkler soil temp ;; get_output sim "Water Sprinkling".

(** ** Vocabulary of the theorems *)

(** The input dictionary after both assignments. *)
Definition std_inputs (soil temp : Q) : gmap string Q :=
  <["Temperature" := temp]> (<["Soil Moisture" := soil]> ∅).

(** Both readings lie on their grids. *)
Definition in_range (s t : Q) : Prop := 0 <= s <= 100 /\ 0 <= t <= 50.

(** The firing strengths of the five rules as functions of the
    readings. *)
Definition strengths_spec (s t : Q) : list Q :=
  [ Qmin (trimf_at soil_dry s) (trimf_at temp_hot t);
    Qmin (trimf_at soil_dry s) (trimf_at temp_warm t);
    Qmin (trimf_at soil_moist s) (trimf_at temp_warm t);
    Qmin (trimf_at soil_moist s) (trimf_at temp_cold t);
    trimf_at soil_wet s ].

(** The readings at which no rule fires: dry soil in the cold, and soil
    at exactly 50 in the heat. *)
Definition dead_zone (s t : Q) : Prop :=
  (s <= 20 /\ t <= 10) \/ (s == 50 /\ 40 <= t).

(** The level at readings where the run returns one. *)
Definition level_at (s t : Q) : Q :=
  match sprinkle_level s t with Ok c => c | Err _ => 0 end.

(** The names and triangles of each variable, as lists. *)
Definition soil_terms_list : list (string * Tri) :=
  [("dry", soil_dry); ("moist", soil_moist); ("wet", soil_wet)].

Definition temp_terms_list : list (string * Tri) :=
  [("cold", temp_cold); ("warm", temp_warm); ("hot", temp_hot)].

Definition water_terms_list : list (string * Tri) :=
  [("low", sprinkle_low); ("medium", sprinkle_medium);
   ("high", sprinkle_high)].

(** ** The variables: construction *)

(** A run written with nested binds is the run over the list. *)
Ltac solve_built build :=
  etransitivity; [|apply (get_ok_spec build)];
  unfold build, soil_terms_list, temp_terms_list, water_terms_list;
  cbn [set_terms];
  repeat match goal with
  | |- context [bind (set_term ?v ?n ?abc) _] =>
      destruct (set_term v n abc); cbn [bind]
  end; reflexivity.

Lemma soil_moisture_built :
  set_terms soil_moisture_new soil_terms_list = Ok soil_moisture.
Proof. solve_built soil_moisture_terms. Qed.

Lemma temperature_built :
  set_terms temperature_new temp_terms_list = Ok temperature.
Proof. solve_built temperature_terms. Qed.

Lemma water_sprinkle_built :
  set_terms water_sprinkle_new water_terms_list = Ok water_sprinkle.
Proof. solve_built water_sprinkle_terms. Qed.

Lemma soil_moisture_wf : wf_var soil_moisture.
Proof. eapply set_terms_wf, soil_moisture_built. now apply new_var_wf. Qed.

Lemma temperature_wf : wf_var temperature.
Proof. eapply set_terms_wf, temperature_built. now apply new_var_wf. Qed.

Lemma water_sprinkle_wf : wf_var water_sprinkle.
Proof. eapply set_terms_wf, water_sprinkle_built. now apply new_var_wf. Qed.

Lemma soil_moisture_aligned : aligned_var soil_moisture.
Proof.
  eapply set_terms_aligned, soil_moisture_built;
    [apply map_Forall_empty|now vm_compute].
Qed.

Lemma temperature_aligned : aligned_var temperature.
Proof.
  eapply set_terms_aligned, temperature_built;
    [apply map_Forall_empty|now vm_compute].
Qed.

Lemma water_sprinkle_aligned : aligned_var water_sprinkle.
Proof.
  eapply set_terms_aligned, water_sprinkle_built;
    [apply map_Forall_empty|now vm_compute].
Qed.

Lemma soil_lookup (name : string) (abc : Tri) :
  assoc_tri name soil_terms_list = Some abc ->
  var_terms soil_moisture !! name
  = Some (mkTerm abc (map (trimf_at abc) (arange 0 101 1))).
Proof.
  intros H. now rewrite (set_terms_lookup _ _ _ name soil_moisture_built), H.
Qed.

Lemma temp_lookup (name : string) (abc : Tri) :
  assoc_tri name temp_terms_list = Some abc ->
  var_terms temperature !! name
  = Some (mkTerm abc (map (trimf_at abc) (arange 0 51 1))).
Proof.
  intros H. now rewrite (set_terms_lookup _ _ _ name temperature_built), H.
Qed.

Lemma water_lookup (name : string) (abc : Tri) :
  assoc_tri name water_terms_list = Some abc ->
  var_terms water_sprinkle !! name
  = Some (mkTerm abc (map (trimf_at abc) (arange 0 101 1))).
Proof.
  intros H. now rewrite (set_terms_lookup _ _ _ name water_sprinkle_built), H.
Qed.

Lemma water_sprinkle_grid :
  Forall (fun x => 0 <= x <= 100) (var_universe water_sprinkle).
Proof. now apply grid_within_spec. Qed.

(** ** Degrees and firing strengths *)

Lemma result_Qeq_Ok_inv (r : result error Q) (a : Q) :
  result_Qeq r (Ok a) -> exists d, r = Ok d /\ d == a.
Proof. destruct r as [d|e]; cbn; [eauto|tauto]. Qed.

Lemma soil_leaf (name : string) (abc : Tri) (s t : Q) :
  assoc_tri name soil_terms_list = Some abc -> 0 <= s <= 100 ->
  result_Qeq (eval_expr (std_inputs s t) (Leaf soil_moisture name))
             (Ok (trimf_at abc s)).
Proof.
  intros H Hs.
  apply (eval_leaf_Qeq _ soil_moisture name
           (mkTerm abc (map (trimf_at abc) (arange 0 101 1))) 0 100 s);
    auto using soil_moisture_wf, soil_moisture_aligned, soil_lookup.
Qed.

Lemma temp_leaf (name : string) (abc : Tri) (s t : Q) :
  assoc_tri name temp_terms_list = Some abc -> 0 <= t <= 50 ->
  result_Qeq (eval_expr (std_inputs s t) (Leaf temperature name))
             (Ok (trimf_at abc t)).
Proof.
  intros H Ht.
  apply (eval_leaf_Qeq _ temperature name
           (mkTerm abc (map (trimf_at abc) (arange 0 51 1))) 0 50 t);
    auto using temperature_wf, temperature_aligned, temp_lookup.
Qed.

(** C6: on its grid, the degree the script reads from the samples of a
    term ([interp_membership] over the array made by [trimf]) is the
    degree of the triangle the term was declared with, for every rational
    reading and every term of the two input variables. *)
Theorem term_degrees_are_triangles (name : string) (abc : Tri) (x : Q) :
  (assoc_tri name soil_terms_list = Some abc -> 0 <= x <= 100 ->
   result_Qeq (termDegree soil_moisture name x) (Ok (trimf_at abc x)))
  /\ (assoc_tri name temp_terms_list = Some abc -> 0 <= x <= 50 ->
      result_Qeq (termDegree temperature name x) (Ok (trimf_at abc x))).
Proof.
  split; intros H Hx.
  - destruct (termDegree_trimf soil_moisture name _ 0 100 x
                soil_moisture_wf soil_moisture_aligned (soil_lookup _ _ H)
                eq_refl eq_refl Hx) as (d & -> & Hd). exact Hd.
  - destruct (termDegree_trimf temperature name _ 0 50 x
                temperature_wf temperature_aligned (temp_lookup _ _ H)
                eq_refl eq_refl Hx) as (d & -> & Hd). exact Hd.
Qed.

Lemma strengths_Ok (s t : Q) :
  in_range s t ->
  exists ss, strengths (cs_rules sprinkle_ctrl) (std_inputs s t) = Ok ss
             /\ Forall2 Qeq ss (strengths_spec s t).
Proof.
  intros [Hs Ht]. unfold strengths. cbn [cs_rules sprinkle_ctrl traverse].
  unfold evaluate, rule1, rule2, rule3, rule4, rule5. cbn [antecedent].
  repeat match goal with
  | |- context [eval_expr ?i (And (Leaf soil_moisture ?a)
                                  (Leaf temperature ?b))] =>
      let H := fresh in
      destruct (result_Qeq_Ok_inv _ _
        (eval_and_Qeq (ops:=zadeh) i _ _ _ _
           (soil_leaf a _ s t eq_refl Hs) (temp_leaf b _ s t eq_refl Ht)))
        as (? & -> & H)
  end.
  destruct (result_Qeq_Ok_inv _ _ (soil_leaf "wet" _ s t eq_refl Hs))
    as (? & -> & ?).
  cbn. eexists. split; [reflexivity|]. repeat constructor; assumption.
Qed.

(** C5: for readings on the grids, the five rules of fuzzy.py lines 33-37
    evaluate without error, and their firing strengths are, in order,
    min(dry, hot), min(dry, warm), min(moist, warm), min(moist, cold) and
    wet, each a triangle read at the soil or temperature reading. *)
Theorem sprinkler_strengths (s t : Q) :
  in_range s t ->
  exists ss,
    traverse (fun r => evaluate r (std_inputs s t))
             [rule1; rule2; rule3; rule4; rule5] = Ok ss
    /\ Forall2 Qeq ss (strengths_spec s t).
Proof. exact (strengths_Ok s t). Qed.

(** ** The rule base as the engine needs it *)

Ltac each_rule :=
  unfold sprinkle_ctrl, rule1, rule2, rule3, rule4, rule5; cbn [cs_rules];
  repeat (apply Forall_cons; split; [|]); [..|apply Forall_nil_2];
  cbn [consequent_var consequent_term antecedent].

Lemma sprinkler_single_output :
  single_output (cs_rules sprinkle_ctrl) water_sprinkle.
Proof.
  split; [apply water_sprinkle_wf|].
  each_rule; (split; [|reflexivity]); cbn [wf_expr];
    auto using soil_moisture_wf, temperature_wf.
Qed.

Lemma sprinkler_registered :
  registered (cs_rules sprinkle_ctrl) water_sprinkle.
Proof. each_rule; erewrite water_lookup by reflexivity; eauto. Qed.

Ltac grid_point i :=
  apply arange_In; exists i; split; [now apply Nat.ltb_lt|reflexivity].

Lemma sprinkler_live : live_terms (cs_rules sprinkle_ctrl).
Proof.
  each_rule; intros tm Htm; erewrite water_lookup in Htm by reflexivity;
    apply (inj Some) in Htm; subst tm; cbn [term_mf];
    apply apex_sample_live.
  - grid_point 100%nat.
  - grid_point 50%nat.
  - grid_point 50%nat.
  - grid_point 0%nat.
  - grid_point 0%nat.
Qed.

Lemma sprinkler_consequents :
  consequents (cs_rules sprinkle_ctrl) = [water_sprinkle].
Proof. reflexivity. Qed.

(** Reading the output after a run is the engine's value for the one
    output variable. *)
Lemma sprinkle_level_infer (s t : Q) :
  sprinkle_level s t
  = infer_one (cs_rules sprinkle_ctrl) water_sprinkle (std_inputs s t).
Proof.
  unfold sprinkle_level, run, compute.
  change (sim_input (set_input (set_input sprinkler "Soil Moisture" s)
                               "Temperature" t)) with (std_inputs s t).
  cbn [sim_ctrl set_input sprinkler ControlSystemSimulation].
  rewrite sprinkler_consequents. cbn [traverse].
  destruct (infer_one _ _ _) as [c|e]; [|reflexivity].
  cbn. unfold get_output. cbn. now rewrite lookup_insert_eq.
Qed.

(** ** Where the rules fire *)

Lemma Qmin_pos_iff (x y : Q) : 0 < Qmin x y <-> 0 < x /\ 0 < y.
Proof. q_solve. Qed.

Lemma unit_zero_iff (x : Q) : unit_interval x -> x == 0 <-> ~ 0 < x.
Proof. unfold unit_interval. lra. Qed.

Lemma Forall2_Qeq_zero (l m : list Q) :
  Forall2 Qeq l m ->
  Forall (fun x => x == 0) l <-> Forall (fun x => x == 0) m.
Proof.
  induction 1 as [|x y l m Hxy _ IH]; [easy|].
  rewrite !Forall_cons, IH, Hxy. reflexivity.
Qed.

(** A triangle of the script is positive exactly on its open support,
    cut to the grid. *)
Ltac tri_pos :=
  intros; rewrite trimf_at_pos_iff by reflexivity;
  cbn [tri_a tri_b tri_c soil_dry soil_moist soil_wet temp_cold temp_warm
       temp_hot]; lra.

Lemma soil_dry_pos (s : Q) :
  0 <= s <= 100 -> 0 < trimf_at soil_dry s <-> s < 50.
Proof. tri_pos. Qed.

Lemma soil_moist_pos (s : Q) :
  0 <= s <= 100 -> 0 < trimf_at soil_moist s <-> 20 < s < 80.
Proof. tri_pos. Qed.

Lemma soil_wet_pos (s : Q) :
  0 <= s <= 100 -> 0 < trimf_at soil_wet s <-> 50 < s.
Proof. tri_pos. Qed.

Lemma temp_cold_pos (t : Q) :
  0 <= t <= 50 -> 0 < trimf_at temp_cold t <-> t < 20.
Proof. tri_pos. Qed.

Lemma temp_warm_pos (t : Q) :
  0 <= t <= 50 -> 0 < trimf_at temp_warm t <-> 10 < t < 40.
Proof. tri_pos. Qed.

Lemma temp_hot_pos (t : Q) :
  0 <= t <= 50 -> 0 < trimf_at temp_hot t <-> 30 < t.
Proof. tri_pos. Qed.

Lemma strengths_spec_unit (s t : Q) :
  Forall unit_interval (strengths_spec s t).
Proof.
  unfold strengths_spec.
  repeat (apply Forall_cons; split); [..|apply Forall_nil_2];
    repeat apply unit_interval_min; now apply trimf_at_unit.
Qed.

Lemma strengths_zero_iff (s t : Q) :
  in_range s t ->
  Forall (fun x => x == 0) (strengths_spec s t) <-> dead_zone s t.
Proof.
  intros [Hs Ht]. pose proof (strengths_spec_unit s t) as Hu.
  unfold strengths_spec, dead_zone in *.
  rewrite !Forall_cons, Forall_nil in *.
  destruct Hu as (U1 & U2 & U3 & U4 & U5 & _).
  rewrite !unit_zero_iff by assumption. rewrite !Qmin_pos_iff.
  rewrite soil_dry_pos, soil_moist_pos, soil_wet_pos by exact Hs.
  rewrite temp_cold_pos, temp_warm_pos, temp_hot_pos by exact Ht.
  lra.
Qed.

(** An error of a run on the grids is [NoApplicableRule], and the
    readings are then in the dead zone. *)
Lemma level_Err_inv (s t : Q) (e : error) :
  in_range s t -> sprinkle_level s t = Err e ->
  e = NoApplicableRule /\ dead_zone s t.
Proof.
  intros Hr E. destruct (strengths_Ok s t Hr) as (ss & Hss & Hspec).
  rewrite sprinkle_level_infer in E.
  destruct (infer_one_Err_inv (ops:=zadeh) _ _ _ ss e
              sprinkler_single_output sprinkler_live sprinkler_registered
              Hss E) as [He Hz].
  split; [exact He|].
  apply (strengths_zero_iff s t Hr). now apply (Forall2_Qeq_zero _ _ Hspec).
Qed.

Lemma level_dead (s t : Q) :
  in_range s t -> dead_zone s t ->
  sprinkle_level s t = Err NoApplicableRule.
Proof.
  intros Hr Hz. destruct (strengths_Ok s t Hr) as (ss & Hss & Hspec).
  rewrite sprinkle_level_infer.
  apply (infer_one_no_rule (ops:=zadeh) _ _ _ ss);
    auto using sprinkler_single_output, sprinkler_live, sprinkler_registered.
  apply (Forall2_Qeq_zero _ _ Hspec). now apply strengths_zero_iff.
Qed.

Lemma level_bounds (s t c : Q) : sprinkle_level s t = Ok c -> 0 <= c <= 100.
Proof.
  rewrite sprinkle_level_infer. intros H.
  eapply (infer_one_bounds (ops:=zadeh));
    eauto using sprinkler_single_output, water_sprinkle_grid.
Qed.

Lemma level_at_Ok (s t : Q) :
  is_ok (sprinkle_level s t) = true ->
  sprinkle_level s t = Ok (level_at s t).
Proof. unfold level_at. now destruct (sprinkle_level s t). Qed.

(** ** Runs from any state of the simulation *)

(** The rules read the two inputs and nothing else. *)
Lemma sprinkler_reads (r : Rule) (l : string) :
  In r (cs_rules sprinkle_ctrl) -> l ∈ expr_labels (antecedent r) ->
  l = "Soil Moisture"%string \/ l = "Temperature"%string.
Proof.
  cbn [cs_rules sprinkle_ctrl In].
  intros [<-|[<-|[<-|[<-|[<-|[]]]]]]; cbn; set_solver.
Qed.

(** A run from any state of the simulation: both inputs are overwritten,
    the level is the one of a fresh simulation, and it is stored over the
    old output. *)
Lemma run_spec (sim : Simulation) (s t : Q) :
  sim_ctrl sim = sprinkle_ctrl ->
  run sim s t =
  (c <- sprinkle_level s t ;;
   Ok (mkSim sprinkle_ctrl
         (<["Temperature"%string := t]>
            (<["Soil Moisture"%string := s]> (sim_input sim)))
         (<["Water Sprinkling"%string := c]> (sim_output sim)))).
Proof.
  intros Hc. rewrite sprinkle_level_infer. unfold run, compute.
  cbn [sim_ctrl sim_input sim_output set_input]. rewrite Hc.
  rewrite sprinkler_consequents. cbn [traverse].
  rewrite (infer_one_agree _ _ _ (std_inputs s t)).
  - now destruct (infer_one _ _ _).
  - intros r l Hr Hl. unfold std_inputs.
    destruct (sprinkler_reads r l Hr Hl) as [-> | ->]; now simplify_map_eq.
Qed.

Lemma run_level (sim : Simulation) (s t : Q) :
  sim_ctrl sim = sprinkle_ctrl ->
  (sim' <- run sim s t ;; get_output sim' "Water Sprinkling")
  = sprinkle_level s t.
Proof.
  intros Hc. rewrite (run_spec sim s t Hc).
  destruct (sprinkle_level s t) as [c|e]; [|reflexivity].
  cbn. unfold get_output. cbn. now rewrite lookup_insert_eq.
Qed.

Lemma run_ctrl (sim sim' : Simulation) (s t : Q) :
  sim_ctrl sim = sprinkle_ctrl -> run sim s t = Ok sim' ->
  sim_ctrl sim' = sprinkle_ctrl.
Proof.
  intros Hc. rewrite (run_spec sim s t Hc).
  destruct (sprinkle_level s t); [|discriminate]. now intros [= <-].
Qed.

(** ** The claims *)

(** C1: for readings on the grids, [sprinkler.compute()] raises
    (no rule fires, the aggregate is zero everywhere) exactly when the soil
    reading is at most 20 with a temperature of at most 10, or the soil
    reading is exactly 50 with a temperature of at least 40. *)
Theorem no_applicable_rule_iff (s t : Q) :
  in_range s t ->
  sprinkle_level s t = Err NoApplicableRule <-> dead_zone s t.
Proof.
  intros Hr. split; [|now apply level_dead].
  intros E. now apply (level_Err_inv s t _ Hr E).
Qed.

(** C2: everywhere else on the grids the run returns a sprinkling level,
    and the level is a percentage. *)
Theorem sprinkle_level_total (s t : Q) :
  in_range s t -> ~ dead_zone s t ->
  exists c, sprinkle_level s t = Ok c /\ 0 <= c <= 100.
Proof.
  intros Hr Hz. destruct (sprinkle_level s t) as [c|e] eqn:E.
  - exists c. split; [reflexivity|]. now apply (level_bounds s t).
  - destruct (level_Err_inv s t e Hr E) as [_ Hd]. contradiction.
Qed.

(** C15: whatever the readings, a level returned by the run lies within
    the bounds of the output grid, 0 and 100. *)
Theorem sprinkle_level_bounds (s t c : Q) :
  sprinkle_level s t = Ok c -> 0 <= c <= 100.
Proof.
  intros H. pose proof (level_bounds s t c H) as [Hlo Hhi]. split; lra.
Qed.

(** C7: a run does not depend on what the simulation holds from
    earlier runs: whatever inputs and outputs are left in it, setting both
    readings and computing gives the level of a fresh simulation, error
    included.  Running the same readings twice gives the same answer. *)
Theorem run_forgets_history (sim : Simulation) (s t : Q) :
  sim_ctrl sim = sprinkle_ctrl ->
  (sim' <- run sim s t ;; get_output sim' "Water Sprinkling")
  = sprinkle_level s t.
Proof. exact (run_level sim s t). Qed.

(** ** Witnesses *)

Lemma term_degrees_are_triangles_witness :
  result_Qeq (termDegree soil_moisture "moist" 35)
             (Ok (trimf_at soil_moist 35))
  /\ result_Qeq (termDegree temperature "hot" 35)
                (Ok (trimf_at temp_hot 35)).
Proof.
  split.
  - apply (proj1 (term_degrees_are_triangles "moist" soil_moist 35));
      [reflexivity|lra].
  - apply (proj2 (term_degrees_are_triangles "hot" temp_hot 35));
      [reflexivity|lra].
Defined.

Lemma sprinkler_strengths_witness :
  in_range 30 35
  /\ exists ss,
       traverse (fun r => evaluate r (std_inputs 30 35))
                [rule1; rule2; rule3; rule4; rule5] = Ok ss
       /\ Forall2 Qeq ss (strengths_spec 30 35).
Proof.
  assert (in_range 30 35) as H by (unfold in_range; lra).
  split; [exact H|]. exact (sprinkler_strengths 30 35 H).
Defined.

Lemma no_applicable_rule_iff_witness :
  in_range 10 5
  /\ (sprinkle_level 10 5 = Err NoApplicableRule <-> dead_zone 10 5).
Proof.
  assert (in_range 10 5) as H by (unfold in_range; lra).
  split; [exact H|]. exact (no_applicable_rule_iff 10 5 H).
Defined.

Lemma sprinkle_level_total_witness :
  in_range 30 35 /\ ~ dead_zone 30 35
  /\ exists c, sprinkle_level 30 35 = Ok c /\ 0 <= c <= 100.
Proof.
  assert (in_range 30 35) as H by (unfold in_range; lra).
  assert (~ dead_zone 30 35) as Hz by (unfold dead_zone; lra).
  split; [exact H|]. split; [exact Hz|].
  exact (sprinkle_level_total 30 35 H Hz).
Defined.

(** The level of the first test case, as the engine computes it. *)
Definition level_30_35 : Q :=
  Eval vm_compute in
    match sprinkle_level 30 35 with Ok c => Qred c | Err _ => 0 end.

Lemma sprinkle_level_bounds_witness :
  exists c, sprinkle_level 30 35 = Ok c /\ c == level_30_35
            /\ 0 <= c <= 100.
Proof.
  destruct (sprinkle_level 30 35) as [c|e] eqn:E.
  - exists c. split; [reflexivity|]. split.
    + vm_compute in E. injection E as <-. reflexivity.
    + exact (sprinkle_level_bounds 30 35 c E).
  - vm_compute in E. discriminate E.
Defined.

Lemma run_forgets_history_witness :
  (sim' <- run (mkSim sprinkle_ctrl
                  (<["Wind" := 3]> (<["Soil Moisture" := 99]> ∅))
                  (<["Water Sprinkling" := 7]> ∅)) 30 35 ;;
   get_output sim' "Water Sprinkling")
  = sprinkle_level 30 35.
Proof. apply run_forgets_history. reflexivity. Defined.
