(* ===== verification/Controller.v ===== *)
(** * The controller as a function of the readings

    What the rules and terms of [src/fuzzy.py] (lines 15-41) compute, seen
    from outside: the level returned by a run (lines 83-85, 89) is the
    centroid of a curve in closed form, [output_curve]; from that form
    follow the bands the level lies in, the readings at which the
    temperature does not matter, and that neither the order of the rules
    nor the shortcut for rules that do not fire changes the level.  The
    terms of each input variable are shown to cover their grid. *)

From stdpp Require Import gmap strings.
From Stdlib Require Import QArith Qminmax Lqa Permutation.
From S2P Require Import Prelude Membership Defuzz Variables Rules.
From S2P Require Import Inference Sprinkler.

#[local] Open Scope Q_scope.
#[local] Open Scope fuzzy_scope.

(** ** The closed form *)

(** The consequent triangles of the five rules, in the order of the
    rules. *)
Definition consequent_tris : list Tri :=
  [sprinkle_high; sprinkle_medium; sprinkle_medium; sprinkle_low;
   sprinkle_low].

(** The aggregated output curve at the point [y] of the output grid: the
    greatest of the five consequent triangles, each cut at the strength
    of its rule. *)
Definition output_curve (s t y : Q) : Q :=
  clipped_max (strengths_spec s t) consequent_tris y.

(** The level the controller is meant to give: the centroid of that curve
    over the grid 0, 1, ..., 100. *)
Definition level_spec (s t : Q) : result error Q :=
  centroid (arange 0 101 1) (map (output_curve s t) (arange 0 101 1)).

Lemma water_sprinkle_universe : var_universe water_sprinkle = arange 0 101 1.
Proof. reflexivity. Qed.

Lemma sprinkler_terms :
  Forall2 (fun r tm =>
             var_terms (consequent_var r) !! consequent_term r = Some tm)
    (cs_rules sprinkle_ctrl)
    (map (fun abc => mkTerm abc (map (trimf_at abc) (arange 0 101 1)))
         consequent_tris).
Proof. repeat constructor; now apply water_lookup. Qed.

Lemma consequent_tris_valid :
  Forall (fun abc => valid_tri abc = true) consequent_tris.
Proof. repeat constructor. Qed.

Lemma aggregated_all_spec (s t : Q) (ss : list Q) :
  strengths (cs_rules sprinkle_ctrl) (std_inputs s t) = Ok ss ->
  aggregated_all (cs_rules sprinkle_ctrl) water_sprinkle (std_inputs s t)
  = Ok (map (clipped_max ss consequent_tris) (arange 0 101 1)).
Proof.
  intros Hss. unfold aggregated_all.
  rewrite filter_targets by apply sprinkler_single_output.
  rewrite (traverse_rule_curve_all _ _ ss _ Hss sprinkler_terms). cbn [bind].
  now rewrite water_sprinkle_universe, aggregate_clipped.
Qed.

Lemma aggregated_spec (s t : Q) :
  in_range s t ->
  exists agg,
    aggregated (cs_rules sprinkle_ctrl) water_sprinkle (std_inputs s t)
    = Ok agg
    /\ Qlist_eq agg (map (output_curve s t) (arange 0 101 1)).
Proof.
  intros Hr. destruct (strengths_Ok s t Hr) as (ss & Hss & Hspec).
  pose proof (aggregated_shortcut (ops:=zadeh) _ _ (std_inputs s t)
                sprinkler_single_output) as H.
  rewrite (aggregated_all_spec s t ss Hss) in H.
  destruct (aggregated _ _ _) as [agg|]; [|contradiction].
  exists agg. split; [reflexivity|]. etransitivity; [exact H|].
  apply map_Qlist_eq. intros y _. unfold output_curve. now rewrite Hspec.
Qed.

Lemma level_spec_eq (s t : Q) :
  in_range s t -> result_Qeq (sprinkle_level s t) (level_spec s t).
Proof.
  intros Hr. rewrite sprinkle_level_infer. unfold infer_one, level_spec.
  destruct (aggregated_spec s t Hr) as (agg & -> & Hagg). cbn [bind].
  rewrite water_sprinkle_universe. now apply centroid_proper.
Qed.

(** A level returned by the run is, up to the representation of the
    rational, the centroid of the closed form. *)
Lemma level_spec_Ok (s t c : Q) :
  in_range s t -> sprinkle_level s t = Ok c ->
  exists c', level_spec s t = Ok c' /\ c == c'.
Proof.
  intros Hr Hc. pose proof (level_spec_eq s t Hr) as H. rewrite Hc in H.
  destruct (level_spec s t) as [c'|]; [|contradiction]. eauto.
Qed.

Lemma output_curve_nonneg (s t : Q) (u : list Q) :
  Forall (Qle 0) (map (output_curve s t) u).
Proof.
  apply Forall_map, Forall_forall. intros y _. apply clipped_max_nonneg.
Qed.

#[export] Instance output_curve_proper (s t : Q) :
  Proper (Qeq ==> Qeq) (output_curve s t).
Proof. intros y y' Hy. unfold output_curve. now rewrite Hy. Qed.

(** ** Where the output leans *)

(** The triangles of the output variable in the mirror at 50: "medium" is
    its own image, "high" is the image of "low". *)
Lemma medium_mirror (y : Q) :
  trimf_at sprinkle_medium (100 - y) == trimf_at sprinkle_medium y.
Proof. exact (trimf_at_reflect 100 sprinkle_medium y). Qed.

Lemma high_mirror (y : Q) :
  trimf_at sprinkle_high (100 - y) == trimf_at sprinkle_low y.
Proof. exact (trimf_at_reflect 100 sprinkle_low y). Qed.

Lemma low_mirror (y : Q) :
  trimf_at sprinkle_low (100 - y) == trimf_at sprinkle_high y.
Proof. exact (trimf_at_reflect 100 sprinkle_high y). Qed.

Lemma high_left (y : Q) : y <= 50 -> trimf_at sprinkle_high y == 0.
Proof. intros Hy. apply trimf_at_zero_left; cbn; lra. Qed.

Lemma low_unit (y : Q) : unit_interval (trimf_at sprinkle_low y).
Proof. now apply trimf_at_unit. Qed.

Ltac each_strength :=
  unfold strengths_spec, consequent_tris;
  repeat apply List.Forall2_cons; [..|apply List.Forall2_nil].

(** When the rule for "high" does not fire, no sample right of 50 exceeds
    its mirror image. *)
Lemma output_curve_lean_left (s t y : Q) :
  Qmin (trimf_at soil_dry s) (trimf_at temp_hot t) == 0 ->
  0 <= y <= 50 -> output_curve s t (100 - y) <= output_curve s t y.
Proof.
  intros Hw Hy. apply clipped_max_le; [apply consequent_tris_valid|].
  pose proof (low_unit y) as [? _]. each_strength.
  - now left.
  - right. rewrite medium_mirror. lra.
  - right. rewrite medium_mirror. lra.
  - right. rewrite low_mirror, high_left; lra.
  - right. rewrite low_mirror, high_left; lra.
Qed.

(** When no rule for "low" fires, no sample left of 50 exceeds its mirror
    image. *)
Lemma output_curve_lean_right (s t y : Q) :
  Qmin (trimf_at soil_moist s) (trimf_at temp_cold t) == 0 ->
  trimf_at soil_wet s == 0 ->
  0 <= y <= 50 -> output_curve s t y <= output_curve s t (100 - y).
Proof.
  intros Hw4 Hw5 Hy. apply clipped_max_le; [apply consequent_tris_valid|].
  pose proof (low_unit y) as [? _]. each_strength.
  - right. rewrite high_mirror, high_left; lra.
  - right. rewrite medium_mirror. lra.
  - right. rewrite medium_mirror. lra.
  - now left.
  - now left.
Qed.

#[export] Instance Qge_proper :
  Proper (Qeq ==> Qeq ==> iff) (fun a b : Q => b <= a).
Proof. intros a a' Ha b b' Hb. now rewrite Ha, Hb. Qed.

(** The output curve compared with its mirror image at 50. *)
Lemma output_mirrored (R : Q -> Q -> Prop) (s t : Q) :
  Proper (Qeq ==> Qeq ==> iff) R ->
  (forall y, 0 <= y <= 50 ->
             R (output_curve s t y) (output_curve s t (100 - y))) ->
  mirrored 50 R (arange 0 101 1) (map (output_curve s t) (arange 0 101 1)).
Proof.
  intros HR H.
  exact (arange_mirrored 50 R (output_curve s t) ltac:(lia) _ HR H).
Qed.

(** ** Which rules fire where *)

Lemma Qmin_unit_zero (x y : Q) :
  unit_interval x -> unit_interval y -> ~ 0 < x \/ ~ 0 < y ->
  Qmin x y == 0.
Proof. unfold unit_interval. q_solve. Qed.

Section Firing.
Context (s t : Q) (Hr : in_range s t).

Lemma dry_hot_zero :
  50 <= s \/ t <= 30 ->
  Qmin (trimf_at soil_dry s) (trimf_at temp_hot t) == 0.
Proof.
  destruct Hr as [Hs Ht]. intros H.
  apply Qmin_unit_zero; [now apply trimf_at_unit..|].
  rewrite soil_dry_pos, temp_hot_pos by assumption. lra.
Qed.

Lemma dry_warm_zero :
  50 <= s -> Qmin (trimf_at soil_dry s) (trimf_at temp_warm t) == 0.
Proof.
  destruct Hr as [Hs Ht]. intros H.
  apply Qmin_unit_zero; [now apply trimf_at_unit..|].
  rewrite soil_dry_pos by assumption. lra.
Qed.

Lemma moist_warm_zero :
  s <= 20 \/ 80 <= s ->
  Qmin (trimf_at soil_moist s) (trimf_at temp_warm t) == 0.
Proof.
  destruct Hr as [Hs Ht]. intros H.
  apply Qmin_unit_zero; [now apply trimf_at_unit..|].
  rewrite soil_moist_pos by assumption. lra.
Qed.

Lemma moist_cold_zero :
  s <= 20 \/ 80 <= s \/ 20 <= t ->
  Qmin (trimf_at soil_moist s) (trimf_at temp_cold t) == 0.
Proof.
  destruct Hr as [Hs Ht]. intros H.
  apply Qmin_unit_zero; [now apply trimf_at_unit..|].
  rewrite soil_moist_pos, temp_cold_pos by assumption. lra.
Qed.

Lemma wet_zero : s <= 50 -> trimf_at soil_wet s == 0.
Proof.
  destruct Hr as [Hs Ht]. intros H.
  apply unit_zero_iff; [now apply trimf_at_unit|].
  rewrite soil_wet_pos by assumption. lra.
Qed.

(** ** The bands of the level *)

Lemma level_at_most_half (c : Q) :
  50 <= s \/ t <= 30 -> sprinkle_level s t = Ok c -> c <= 50.
Proof.
  intros H Hc. destruct (level_spec_Ok s t c Hr Hc) as (c' & Hc' & ->).
  apply (centroid_mirrored_le 50 _ _ c' (output_curve_nonneg s t _) Hc').
  apply output_mirrored; [apply Qge_proper|].
  intros y Hy. apply output_curve_lean_left; [now apply dry_hot_zero|exact Hy].
Qed.

Lemma level_at_least_half (c : Q) :
  s <= 50 -> s <= 20 \/ 20 <= t -> sprinkle_level s t = Ok c -> 50 <= c.
Proof.
  intros Hs H Hc. destruct (level_spec_Ok s t c Hr Hc) as (c' & Hc' & ->).
  apply (centroid_mirrored_ge 50 _ _ c' (output_curve_nonneg s t _) Hc').
  apply output_mirrored; [apply Qle_comp|].
  intros y Hy. apply output_curve_lean_right;
    [apply moist_cold_zero; tauto|now apply wet_zero|exact Hy].
Qed.

End Firing.

(** ** Wet soil *)

(** From a soil reading of 80 on, only the rule for wet soil fires. *)
Lemma strengths_wet (s t : Q) :
  in_range s t -> 80 <= s ->
  Qlist_eq (strengths_spec s t) [0; 0; 0; 0; trimf_at soil_wet s].
Proof.
  intros Hr Hs. unfold strengths_spec.
  repeat apply List.Forall2_cons; [..|apply List.Forall2_nil].
  - apply dry_hot_zero; [exact Hr|lra].
  - apply dry_warm_zero; [exact Hr|lra].
  - apply moist_warm_zero; [exact Hr|lra].
  - apply moist_cold_zero; [exact Hr|lra].
  - reflexivity.
Qed.

Lemma level_spec_wet (s t t' : Q) :
  in_range s t -> in_range s t' -> 80 <= s ->
  result_Qeq (level_spec s t) (level_spec s t').
Proof.
  intros Hr Hr' Hs. unfold level_spec. apply centroid_proper.
  apply map_Qlist_eq. intros y _. unfold output_curve.
  now rewrite (strengths_wet s t), (strengths_wet s t').
Qed.

Lemma level_wet (s t t' : Q) :
  in_range s t -> in_range s t' -> 80 <= s ->
  result_Qeq (sprinkle_level s t) (sprinkle_level s t').
Proof.
  intros Hr Hr' Hs.
  rewrite (level_spec_eq s t Hr), (level_spec_eq s t' Hr').
  now apply level_spec_wet.
Qed.

(** ** The order of the rules *)

(** The level of a rule base with the one output variable, read after a
    run of a fresh simulation. *)
Definition level_of (rules : list Rule) (s t : Q) : result error Q :=
  sim <- run (ControlSystemSimulation (mkControlSystem rules)) s t ;;
  get_output sim "Water Sprinkling".

Lemma level_of_infer (rules : list Rule) (s t : Q) :
  single_output rules water_sprinkle -> rules <> [] ->
  level_of rules s t = infer_one rules water_sprinkle (std_inputs s t).
Proof.
  intros Hso Hne. unfold level_of, run, compute.
  cbn [sim_ctrl sim_input sim_output set_input ControlSystemSimulation
       cs_rules].
  rewrite (consequents_single rules water_sprinkle Hso Hne). cbn [traverse].
  fold (std_inputs s t).
  destruct (infer_one _ _ _) as [c|e]; [|reflexivity].
  cbn. unfold get_output. cbn. now rewrite lookup_insert_eq.
Qed.

Lemma single_output_perm (rules rules' : list Rule) (out : FuzzyVar) :
  Permutation rules rules' -> single_output rules out ->
  single_output rules' out.
Proof. intros Hp [Hout H]. split; [exact Hout|]. now rewrite <- Hp. Qed.

Lemma level_of_perm (rules' : list Rule) (s t : Q) :
  Permutation (cs_rules sprinkle_ctrl) rules' -> in_range s t ->
  result_Qeq (level_of rules' s t) (sprinkle_level s t).
Proof.
  intros Hp Hr.
  rewrite level_of_infer;
    [|exact (single_output_perm _ _ _ Hp sprinkler_single_output)
     |intros ->; now apply Permutation_nil_r in Hp].
  rewrite sprinkle_level_infer. symmetry.
  apply (infer_one_perm (ops:=zadeh)); [exact Hp|].
  now destruct (aggregated_spec s t Hr) as (agg & -> & _).
Qed.

(** ** The terms of the input variables *)

(** Replace each triangle by its closed form on the piece the hypotheses
    put the point in. *)
Ltac tri_eval :=
  repeat match goal with
  | |- context [trimf_at ?T ?x] =>
      first [ rewrite (trimf_at_zero_left T x) by (cbn; lra)
            | rewrite (trimf_at_zero_right T x) by (cbn; lra)
            | rewrite (trimf_at_rising T x) by (cbn; lra)
            | rewrite (trimf_at_falling T x) by (cbn; lra) ]
  end;
  cbn [tri_a tri_b tri_c soil_dry soil_moist soil_wet temp_cold temp_warm
       temp_hot sprinkle_low sprinkle_medium sprinkle_high].

Ltac split_at x c := destruct (Qlt_le_dec x c).

Lemma soil_terms_sum (s : Q) :
  0 <= s <= 100 ->
  3 / 5 <= trimf_at soil_dry s + trimf_at soil_moist s + trimf_at soil_wet s
        <= 1.
Proof.
  intros Hs. split_at s 20; [|split_at s 50; [|split_at s 80]];
    tri_eval; q_solve.
Qed.

Lemma soil_terms_adjacent (s : Q) :
  trimf_at soil_dry s == 0 \/ trimf_at soil_wet s == 0.
Proof. split_at s 50; [right|left]; tri_eval; lra. Qed.

Lemma temp_terms_sum (t : Q) :
  0 <= t <= 50 ->
  1 / 2 <= trimf_at temp_cold t + trimf_at temp_warm t + trimf_at temp_hot t
        <= 1.
Proof.
  intros Ht.
  split_at t 10; [|split_at t 20; [|split_at t 25; [|split_at t 30;
    [|split_at t 40]]]]; tri_eval; q_solve.
Qed.

Lemma temp_terms_adjacent (t : Q) :
  trimf_at temp_cold t == 0 \/ trimf_at temp_hot t == 0.
Proof. split_at t 30; [right|left]; tri_eval; lra. Qed.

(** ** Regions of the readings *)

(** The rule for "high" cannot fire: the soil is not dry or it is not
    hot. *)
Definition high_cannot_fire (s t : Q) : Prop := 50 <= s \/ t <= 30.

(** No rule for "low" can fire: the soil is not wet, and it is not moist
    or it is not cold. *)
Definition low_cannot_fire (s t : Q) : Prop :=
  s <= 50 /\ (s <= 20 \/ 20 <= t).

(** Only rules for "medium" can fire, and one does. *)
Definition only_medium (s t : Q) : Prop :=
  s <= 50 /\ t <= 30 /\ (20 <= t \/ (s <= 20 /\ 10 < t)).

(** The soil belongs to "wet" alone. *)
Definition wet_only (s : Q) : Prop := 80 <= s <= 100.

(** The degrees of a reading in all terms of a variable, added up. *)
Definition degree_sum (terms : list (string * Tri)) (x : Q) : Q :=
  Qsum (map (fun p => trimf_at p.2 x) terms).

(** Two outcomes of the aggregation are the same curve or the same
    error. *)
Definition same_outcome (r1 r2 : result error (list Q)) : Prop :=
  match r1, r2 with
  | Ok a, Ok b => Qlist_eq a b
  | Err e, Err e' => e = e'
  | _, _ => False
  end.

Lemma degree_sum_3 (n1 n2 n3 : string) (a b c : Tri) (x : Q) :
  degree_sum [(n1, a); (n2, b); (n3, c)] x
  == trimf_at a x + trimf_at b x + trimf_at c x.
Proof. unfold degree_sum. cbn [map snd]. rewrite !Qsum_cons, Qsum_nil. lra. Qed.

(** ** The claims *)

(** C9: for readings on the grids, the level returned by a run of the
    script's control system is the centroid, over the grid 0..100, of the
    Mamdani curve in closed form: at each grid point the greatest of
    min(dry, hot, high), min(dry, warm, medium), min(moist, warm, medium),
    min(moist, cold, low) and min(wet, low); and the run raises exactly
    when that curve is zero everywhere. *)
Theorem sprinkle_level_mamdani (s t : Q) :
  in_range s t -> result_Qeq (sprinkle_level s t) (level_spec s t).
Proof. exact (level_spec_eq s t). Qed.

(** C11: when the rule for "high" cannot fire (soil at 50 or above, or
    temperature at 30 or below) the level is at most 50. *)
Theorem no_high_rule_at_most_half (s t c : Q) :
  in_range s t -> high_cannot_fire s t ->
  sprinkle_level s t = Ok c -> c <= 50.
Proof. intros Hr. exact (level_at_most_half s t Hr c). Qed.

(** C12: when no rule for "low" can fire (soil at 50 or below, and
    either soil at 20 or below or temperature at 20 or above) the level
    is at least 50. *)
Theorem no_low_rule_at_least_half (s t c : Q) :
  in_range s t -> low_cannot_fire s t ->
  sprinkle_level s t = Ok c -> 50 <= c.
Proof. intros Hr [Hs H]. exact (level_at_least_half s t Hr c Hs H). Qed.

(** C13: where only rules for "medium" can fire (soil at most 50,
    temperature at most 30, and temperature at least 20 or soil at most 20
    with a temperature above 10) the run returns exactly 50. *)
Theorem medium_only_exactly_half (s t : Q) :
  in_range s t -> only_medium s t ->
  exists c, sprinkle_level s t = Ok c /\ c == 50.
Proof.
  intros Hr (Hs & Ht & H). destruct (sprinkle_level s t) as [c|e] eqn:E.
  - exists c. split; [reflexivity|]. apply Qle_antisym.
    + apply (level_at_most_half s t Hr c); [lra|exact E].
    + apply (level_at_least_half s t Hr c); [exact Hs|lra|exact E].
  - destruct (level_Err_inv s t e Hr E) as [_ Hd].
    unfold dead_zone in Hd. lra.
Qed.

(** C14: from a soil reading of 80 on, the level does not depend on the
    temperature. *)
Theorem wet_soil_ignores_temperature (s t t' : Q) :
  wet_only s -> 0 <= t <= 50 -> 0 <= t' <= 50 ->
  result_Qeq (sprinkle_level s t) (sprinkle_level s t').
Proof.
  intros Hs Ht Ht'. unfold wet_only in Hs.
  apply level_wet; unfold in_range; try split; lra.
Qed.

(** C19: the order in which the five rules are given to
    [ctrl.ControlSystem] does not change the level: any permutation of the
    list gives, for readings on the grids, the level of the script's
    order, or raises when it does. *)
Theorem rule_order_irrelevant (rules' : list Rule) (s t : Q) :
  Permutation [rule1; rule2; rule3; rule4; rule5] rules' -> in_range s t ->
  result_Qeq (level_of rules' s t) (sprinkle_level s t).
Proof. exact (level_of_perm rules' s t). Qed.

(** C20: leaving out the rules of strength zero, as the engine does,
    changes nothing: for every input dictionary the aggregated curve of
    the script's rules equals the pointwise maximum over all five clipped
    consequents, and an error of one is the same error of the other. *)
Theorem shortcut_changes_nothing (inputs : gmap string Q) :
  same_outcome
    (aggregated (cs_rules sprinkle_ctrl) water_sprinkle inputs)
    (aggregated_all (cs_rules sprinkle_ctrl) water_sprinkle inputs).
Proof.
  exact (aggregated_shortcut (ops:=zadeh) _ _ inputs
           sprinkler_single_output).
Qed.

(** C28: the terms of soil moisture cover the grid: at every reading
    from 0 to 100 the degrees of "dry", "moist" and "wet" add up to
    between 3/5 and 1, and "dry" and "wet" are never positive together. *)
Theorem soil_terms_cover (s : Q) :
  0 <= s <= 100 ->
  3 / 5 <= degree_sum soil_terms_list s <= 1
  /\ (trimf_at soil_dry s == 0 \/ trimf_at soil_wet s == 0).
Proof.
  intros Hs. unfold soil_terms_list. rewrite degree_sum_3.
  split; [now apply soil_terms_sum|apply soil_terms_adjacent].
Qed.

(** C29: the terms of temperature cover the grid: at every reading from
    0 to 50 the degrees of "cold", "warm" and "hot" add up to between 1/2
    and 1, and "cold" and "hot" are never positive together. *)
Theorem temp_terms_cover (t : Q) :
  0 <= t <= 50 ->
  1 / 2 <= degree_sum temp_terms_list t <= 1
  /\ (trimf_at temp_cold t == 0 \/ trimf_at temp_hot t == 0).
Proof.
  intros Ht. unfold temp_terms_list. rewrite degree_sum_3.
  split; [now apply temp_terms_sum|apply temp_terms_adjacent].
Qed.

(** ** Witnesses *)

Lemma in_range_30_35 : in_range 30 35.
Proof. unfold in_range. lra. Defined.

Lemma sprinkle_level_mamdani_witness :
  result_Qeq (sprinkle_level 30 35) (level_spec 30 35).
Proof. exact (sprinkle_level_mamdani 30 35 in_range_30_35). Defined.

Lemma no_high_rule_at_most_half_witness : level_at 70 20 <= 50.
Proof.
  apply (no_high_rule_at_most_half 70 20);
    [unfold in_range; lra|left; lra|now apply level_at_Ok].
Defined.

Lemma no_low_rule_at_least_half_witness : 50 <= level_at 30 35.
Proof.
  apply (no_low_rule_at_least_half 30 35);
    [exact in_range_30_35|split; [lra|right; lra]|now apply level_at_Ok].
Defined.

Lemma medium_only_exactly_half_witness :
  exists c, sprinkle_level 40 25 = Ok c /\ c == 50.
Proof.
  apply medium_only_exactly_half; [unfold in_range; lra|].
  split; [lra|split; [lra|left; lra]].
Defined.

Lemma wet_soil_ignores_temperature_witness :
  result_Qeq (sprinkle_level 90 15) (sprinkle_level 90 40).
Proof. apply wet_soil_ignores_temperature; unfold wet_only; lra. Defined.

Lemma rule_order_irrelevant_witness :
  result_Qeq (level_of [rule5; rule4; rule3; rule2; rule1] 30 35)
             (sprinkle_level 30 35).
Proof.
  apply rule_order_irrelevant; [|exact in_range_30_35].
  apply (Permutation_rev [rule1; rule2; rule3; rule4; rule5]).
Defined.

Lemma soil_terms_cover_witness :
  3 / 5 <= degree_sum soil_terms_list 35 <= 1
  /\ (trimf_at soil_dry 35 == 0 \/ trimf_at soil_wet 35 == 0).
Proof. apply soil_terms_cover. lra. Defined.

Lemma temp_terms_cover_witness :
  1 / 2 <= degree_sum temp_terms_list 15 <= 1
  /\ (trimf_at temp_cold 15 == 0 \/ trimf_at temp_hot 15 == 0).
Proof. apply temp_terms_cover. lra. Defined.
