(* ===== verification/Reach.v ===== *)
(** * The levels the controller can reach

    The level of a run (fuzzy.py lines 85 and 89) is a centroid of clipped
    triangles, and a centroid of the triangle for "low" cannot go below
    the centroid of the whole triangle, nor one of "high" above its own.
    The report describes the output as a level from 0 to 100 per cent
    (line 161); the controller delivers levels from 49/3 to 251/3, both
    reached.

    The first part is about any curve on any grid: the moment of a curve
    about a point, its sign and the side of the centroid, and a decision
    procedure for the sign of the moment of a function clipped at every
    height of an interval ([clip_check]).  The second part applies it to
    the output variable of the script.  The third gives the bands of the
    regions in which one triangle of the output is alone: dry soil in the
    heat, soil from 80 on, and the cold; the scenarios of the
    specification (section 8) lie in them. *)

From Stdlib Require Import QArith Qminmax Lqa List Bool.
From S2P Require Import Prelude Membership Defuzz Variables Rules.
From S2P Require Import Inference Sprinkler Controller.

Import ListNotations.

#[local] Open Scope Q_scope.

(** ** Moments *)

(** The sum of the samples of [f], each weighted by [a] at its grid
    point. *)
Definition moment (a f : Q -> Q) (grid : list Q) : Q :=
  Qsum (map (fun y => a y * f y) grid).

(** A list of weights and heights, each height cut at [w], summed. *)
Definition clip_sum (w : Q) (ps : list (Q * Q)) : Q :=
  Qsum (map (fun p => fst p * Qmin w (snd p)) ps).

(** No height lies strictly between [l] and [r]. *)
Definition clip_sep (l r : Q) (ps : list (Q * Q)) : bool :=
  forallb (fun p => Qle_bool r (snd p) || Qle_bool (snd p) l) ps.

(** On such an interval the sum is [w * slope + offset]. *)
Definition clip_slope (r : Q) (ps : list (Q * Q)) : Q :=
  Qsum (map (fun p => if Qle_bool r (snd p) then fst p else 0) ps).

Definition clip_offset (r : Q) (ps : list (Q * Q)) : Q :=
  Qsum (map (fun p => if Qle_bool r (snd p) then 0 else fst p * snd p) ps).

(** The sum is not negative at the ends of every interval between
    consecutive break points, and no height lies inside one. *)
Fixpoint clip_check (ps : list (Q * Q)) (bs : list Q) : bool :=
  match bs with
  | l :: (r :: _) as bs' =>
      clip_sep l r ps
      && Qle_bool 0 (l * clip_slope r ps + clip_offset r ps)
      && Qle_bool 0 (r * clip_slope r ps + clip_offset r ps)
      && clip_check ps bs'
  | _ => true
  end.

(** The heights 0, 1/50, ..., 1 that the triangles for "low" and "high"
    take on the grid of the output variable. *)
Definition breaks : list Q :=
  map (fun k => inject_Z (Z.of_nat k) / 50) (seq 0 51).

(** The least and the greatest level of the controller. *)
Definition level_floor : Q := 49 # 3.
Definition level_ceiling : Q := 251 # 3.

(** The weights and heights for the triangles "low" and "high". *)
Definition low_terms : list (Q * Q) :=
  map (fun y => (y - level_floor, trimf_at sprinkle_low y)) (arange 0 101 1).

Definition high_terms : list (Q * Q) :=
  map (fun y => (level_ceiling - y, trimf_at sprinkle_high y))
      (arange 0 101 1).

(** The same for any weight function and any triangle of the output
    variable. *)
Definition tri_terms (a : Q -> Q) (tri : Tri) : list (Q * Q) :=
  map (fun y => (a y, trimf_at tri y)) (arange 0 101 1).

(** The break points reach from [lo] or less to [hi] or more. *)
Definition covers (lo hi : Q) (bs : list Q) : bool :=
  match bs with
  | l :: r :: bs' => Qle_bool l lo && Qle_bool hi (last bs' r)
  | _ => false
  end.

(** The bands of three regions: a level that dry soil in the heat
    reaches, one that soil from 80 on does not exceed, and one that the
    cold stays below.  With the centroid as a sum the cold stays at or
    below [cold_sum]. *)
Definition dry_hot_floor : Q := 80.
Definition wet_cap : Q := 19.
Definition cold_cap : Q := 25.
Definition cold_sum : Q := 49 # 2.

(** The aggregated curve of the output variable for five strengths. *)
Definition curve (w1 w2 w3 w4 w5 y : Q) : Q :=
  clipped_max [w1; w2; w3; w4; w5] consequent_tris y.

(** ** Moments and centroids *)

Section Moment.
Context (a f h : Q -> Q).

Lemma moment_cons (y : Q) (grid : list Q) :
  moment a f (y :: grid) = a y * f y + moment a f grid.
Proof. reflexivity. Qed.

Lemma moment_mono (grid : list Q) :
  (forall y, a y * h y <= a y * f y) -> moment a h grid <= moment a f grid.
Proof.
  intros H. induction grid as [|y g IH]; [apply Qle_refl|].
  unfold moment in *. cbn [map]. rewrite !Qsum_cons. specialize (H y). lra.
Qed.

Lemma moment_clip (w : Q) (grid : list Q) :
  moment a (fun y => Qmin w (f y)) grid
  = clip_sum w (map (fun y => (a y, f y)) grid).
Proof. unfold moment, clip_sum. now rewrite map_map. Qed.

End Moment.

Lemma moment_below (f : Q -> Q) (m : Q) (grid : list Q) :
  moment (fun y => y - m) f grid
  == Qdot grid (map f grid) - m * Qsum (map f grid).
Proof.
  unfold moment.
  induction grid as [|y g IH]; cbn [map]; [rewrite Qdot_nil_l, Qsum_nil; lra|].
  rewrite Qdot_cons, !Qsum_cons, IH. lra.
Qed.

Lemma moment_above (f : Q -> Q) (m : Q) (grid : list Q) :
  moment (fun y => m - y) f grid
  == m * Qsum (map f grid) - Qdot grid (map f grid).
Proof.
  unfold moment.
  induction grid as [|y g IH]; cbn [map]; [rewrite Qdot_nil_l, Qsum_nil; lra|].
  rewrite Qdot_cons, !Qsum_cons, IH. lra.
Qed.

Section MomentCentroid.
Context (f : Q -> Q) (grid : list Q) (m c : Q).
Context (Hnn : Forall (Qle 0) (map f grid)).
Context (Hc : centroid grid (map f grid) = Ok c).

(** A curve whose moment about [m] is not negative has its centroid at
    [m] or right of it. *)
Lemma centroid_ge_moment : 0 <= moment (fun y => y - m) f grid -> m <= c.
Proof.
  rewrite moment_below. intros H.
  destruct (centroid_pos_sum _ _ _ Hnn Hc) as [Hpos Hdot]. nra.
Qed.

Lemma centroid_le_moment : 0 <= moment (fun y => m - y) f grid -> c <= m.
Proof.
  rewrite moment_above. intros H.
  destruct (centroid_pos_sum _ _ _ Hnn Hc) as [Hpos Hdot]. nra.
Qed.

End MomentCentroid.

(** ** The sign of a clipped sum *)

Section ClipCheck.
Context (ps : list (Q * Q)).

Lemma clip_sum_linear (l r w : Q) :
  clip_sep l r ps = true -> l <= w <= r ->
  clip_sum w ps == w * clip_slope r ps + clip_offset r ps.
Proof.
  intros Hsep Hw. unfold clip_sum, clip_slope, clip_offset, clip_sep in *.
  induction ps as [|[a c] qs IH]; cbn [map forallb fst snd] in *;
    [rewrite Qsum_nil; lra|].
  apply andb_true_iff in Hsep as [Hp Hq]. rewrite !Qsum_cons, (IH Hq).
  destruct (Qle_bool_spec r c) as [Hr|Hr].
  - rewrite (proj2 (Q.min_l_iff w c)) by lra. lra.
  - cbn [orb] in Hp. apply Qle_bool_iff in Hp.
    rewrite (proj2 (Q.min_r_iff w c)) by lra. lra.
Qed.

Lemma linear_nonneg (l r w s o : Q) :
  l <= w <= r -> 0 <= l * s + o -> 0 <= r * s + o -> 0 <= w * s + o.
Proof. intros Hw Hl Hr. destruct (Qlt_le_dec s 0); nra. Qed.

Lemma clip_check_step (l r : Q) (bs : list Q) :
  clip_check ps (l :: r :: bs) = true ->
  (forall w, l <= w <= r -> 0 <= clip_sum w ps)
  /\ clip_check ps (r :: bs) = true.
Proof.
  cbn [clip_check]. rewrite !andb_true_iff.
  intros [[[Hsep Hl] Hr] Hrest]. split; [|exact Hrest].
  intros w Hw. rewrite (clip_sum_linear l r w Hsep Hw).
  apply Qle_bool_iff in Hl, Hr. now apply (linear_nonneg l r).
Qed.

(** [clip_check] is sound: the sum is not negative at any height between
    the first break point and the last. *)
Lemma clip_check_sound (bs : list Q) :
  forall (l r w : Q),
  clip_check ps (l :: r :: bs) = true -> l <= w <= last bs r ->
  0 <= clip_sum w ps.
Proof.
  induction bs as [|b bs IH]; intros l r w Hck Hw;
    apply clip_check_step in Hck as [Hfirst Hrest].
  - now apply Hfirst.
  - destruct (Qlt_le_dec r w) as [Hrw|Hrw]; [|apply Hfirst; lra].
    apply (IH r b w Hrest). rewrite last_cons_default in Hw. lra.
Qed.

End ClipCheck.

(** A sum that passes [clip_check] over break points that cover an
    interval is not negative at any height of the interval. *)
Lemma clip_check_covers (ps : list (Q * Q)) (bs : list Q) (lo hi w : Q) :
  clip_check ps bs = true -> covers lo hi bs = true -> lo <= w <= hi ->
  0 <= clip_sum w ps.
Proof.
  destruct bs as [|l [|r bs]]; try discriminate. intros Hck Hends Hw.
  apply andb_true_iff in Hends as [Hl Hr]. apply Qle_bool_iff in Hl, Hr.
  apply (clip_check_sound ps bs l r w Hck). lra.
Qed.

(** Hence the sign of the moment of a triangle cut at such a height. *)
Lemma tri_moment (a : Q -> Q) (tri : Tri) (bs : list Q) (lo hi w : Q) :
  clip_check (tri_terms a tri) bs = true -> covers lo hi bs = true ->
  lo <= w <= hi ->
  0 <= moment a (fun y => Qmin w (trimf_at tri y)) (arange 0 101 1).
Proof. intros Hck Hb Hw. rewrite moment_clip. now apply (clip_check_covers _ bs lo hi). Qed.

(** ** The output variable of the script *)

Lemma low_check : clip_check low_terms breaks = true.
Proof. vm_compute. reflexivity. Qed.

Lemma high_check : clip_check high_terms breaks = true.
Proof. vm_compute. reflexivity. Qed.

Lemma dry_hot_check :
  clip_check (tri_terms (fun y => y - dry_hot_floor) sprinkle_high)
             (skipn 25 breaks) = true.
Proof. vm_compute. reflexivity. Qed.

Lemma wet_check :
  clip_check (tri_terms (fun y => wet_cap - y) sprinkle_low)
             (skipn 30 breaks) = true.
Proof. vm_compute. reflexivity. Qed.

Lemma cold_check :
  clip_check (tri_terms (fun y => cold_sum - y) sprinkle_low) breaks = true.
Proof. vm_compute. reflexivity. Qed.

(** The triangle for "low", cut at any height, has its centroid at
    [level_floor] or right of it... *)
Lemma low_moment (w : Q) :
  unit_interval w ->
  0 <= moment (fun y => y - level_floor)
              (fun y => Qmin w (trimf_at sprinkle_low y)) (arange 0 101 1).
Proof.
  intros Hw. now apply (tri_moment _ _ breaks 0 1 w low_check).
Qed.

(** ... and the triangle for "high" at [level_ceiling] or left of it. *)
Lemma high_moment (w : Q) :
  unit_interval w ->
  0 <= moment (fun y => level_ceiling - y)
              (fun y => Qmin w (trimf_at sprinkle_high y)) (arange 0 101 1).
Proof.
  intros Hw. now apply (tri_moment _ _ breaks 0 1 w high_check).
Qed.

(** How the curve compares with one triangle cut at the strength of its
    rules. *)
Ltac open_curve :=
  unfold curve, clipped_max, consequent_tris; cbn [pointwise fold_right].

Ltac strengths_unit U :=
  repeat match type of U with
  | Forall _ (_ :: _) =>
      let H := fresh "U" in
      pose proof (Forall_inv U) as H; apply Forall_inv_tail in U;
      unfold unit_interval in H
  end.

Section Curve.
Context (w1 w2 w3 w4 w5 : Q).
Context (U : Forall unit_interval [w1; w2; w3; w4; w5]).

Lemma curve_low_le (y : Q) :
  Qmin (Qmax w4 w5) (trimf_at sprinkle_low y) <= curve w1 w2 w3 w4 w5 y.
Proof. open_curve. q_solve. Qed.

Lemma curve_high_le (y : Q) :
  Qmin w1 (trimf_at sprinkle_high y) <= curve w1 w2 w3 w4 w5 y.
Proof. open_curve. q_solve. Qed.

(** Up to 20 the curve is the triangle for "low"... *)
Lemma curve_low_eq (y : Q) :
  y <= 20 ->
  curve w1 w2 w3 w4 w5 y == Qmin (Qmax w4 w5) (trimf_at sprinkle_low y).
Proof.
  intros Hy. pose proof U as U'. strengths_unit U'.
  pose proof (low_unit y) as [Hl _]. open_curve.
  rewrite (trimf_at_zero_left sprinkle_high y) by (cbn; lra).
  rewrite (trimf_at_zero_left sprinkle_medium y) by (cbn; lra).
  q_solve.
Qed.

(** ... and from 80 on the triangle for "high". *)
Lemma curve_high_eq (y : Q) :
  80 <= y ->
  curve w1 w2 w3 w4 w5 y == Qmin w1 (trimf_at sprinkle_high y).
Proof.
  intros Hy. pose proof U as U'. strengths_unit U'.
  pose proof (trimf_at_unit sprinkle_high y eq_refl) as [Hh _]. open_curve.
  rewrite (trimf_at_zero_right sprinkle_low y) by (cbn; lra).
  rewrite (trimf_at_zero_right sprinkle_medium y) by (cbn; lra).
  q_solve.
Qed.

Lemma curve_floor :
  0 <= moment (fun y => y - level_floor) (curve w1 w2 w3 w4 w5)
              (arange 0 101 1).
Proof.
  pose proof U as U'. strengths_unit U'.
  eapply Qle_trans; [apply (low_moment (Qmax w4 w5)); unfold unit_interval;
                     q_solve|].
  apply moment_mono. intros y. unfold level_floor.
  destruct (Qlt_le_dec 20 y) as [Hy|Hy].
  - apply Qmult_le_l; [lra|apply curve_low_le].
  - rewrite (curve_low_eq y Hy). apply Qle_refl.
Qed.

Lemma curve_ceiling :
  0 <= moment (fun y => level_ceiling - y) (curve w1 w2 w3 w4 w5)
              (arange 0 101 1).
Proof.
  pose proof U as U'. strengths_unit U'.
  eapply Qle_trans; [apply (high_moment w1); unfold unit_interval; lra|].
  apply moment_mono. intros y. unfold level_ceiling.
  destruct (Qlt_le_dec y 80) as [Hy|Hy].
  - apply Qmult_le_l; [lra|apply curve_high_le].
  - rewrite (curve_high_eq y Hy). apply Qle_refl.
Qed.

End Curve.

(** ** Regions where one triangle is alone *)

(** When only rules for "low" fire the curve is that triangle, cut... *)
Lemma curve_only_low (w4 w5 y : Q) :
  0 <= w4 -> 0 <= w5 ->
  curve 0 0 0 w4 w5 y == Qmin (Qmax w4 w5) (trimf_at sprinkle_low y).
Proof.
  intros H4 H5. pose proof (low_unit y) as [Hl _].
  pose proof (trimf_at_unit sprinkle_medium y eq_refl) as [Hm _].
  pose proof (trimf_at_unit sprinkle_high y eq_refl) as [Hh _].
  open_curve. q_solve.
Qed.

(** ... and the one for "high" when only the first rule fires. *)
Lemma curve_only_high (w1 y : Q) :
  0 <= w1 -> curve w1 0 0 0 0 y == Qmin w1 (trimf_at sprinkle_high y).
Proof.
  intros H1. pose proof (low_unit y) as [Hl _].
  pose proof (trimf_at_unit sprinkle_medium y eq_refl) as [Hm _].
  pose proof (trimf_at_unit sprinkle_high y eq_refl) as [Hh _].
  open_curve. q_solve.
Qed.

(** Dry soil in the heat: the first rule alone, at a strength of one half
    or more. *)
Lemma strengths_dry_hot (s t : Q) :
  in_range s t -> s <= 20 -> 40 <= t ->
  Qlist_eq (strengths_spec s t)
           [Qmin (trimf_at soil_dry s) (trimf_at temp_hot t); 0; 0; 0; 0]
  /\ (1 # 2) <= Qmin (trimf_at soil_dry s) (trimf_at temp_hot t) <= 1.
Proof.
  intros Hr Hs Ht. pose proof Hr as [Hs' Ht']. split.
  - unfold strengths_spec.
    repeat apply List.Forall2_cons; [..|apply List.Forall2_nil].
    + reflexivity.
    + apply Qmin_unit_zero; [now apply trimf_at_unit..|].
      rewrite temp_warm_pos by assumption. lra.
    + apply moist_warm_zero; [exact Hr|lra].
    + apply moist_cold_zero; [exact Hr|lra].
    + apply (wet_zero s t Hr). lra.
  - rewrite (trimf_at_falling soil_dry s) by (cbn; lra).
    rewrite (trimf_at_rising temp_hot t) by (cbn; lra). cbn. q_solve.
Qed.

(** The cold: the two rules for "low" alone. *)
Lemma strengths_cold (s t : Q) :
  in_range s t -> t <= 10 ->
  Qlist_eq (strengths_spec s t)
           [0; 0; 0; Qmin (trimf_at soil_moist s) (trimf_at temp_cold t);
            trimf_at soil_wet s].
Proof.
  intros Hr Ht. pose proof Hr as [Hs' Ht']. unfold strengths_spec.
  repeat apply List.Forall2_cons; [..|apply List.Forall2_nil];
    try reflexivity.
  - apply dry_hot_zero; [exact Hr|lra].
  - apply Qmin_unit_zero; [now apply trimf_at_unit..|].
    rewrite temp_warm_pos by assumption. lra.
  - apply Qmin_unit_zero; [now apply trimf_at_unit..|].
    rewrite temp_warm_pos by assumption. lra.
Qed.

Section Band.
Context (s t c m : Q) (h : Q -> Q).
Context (Hc : level_spec s t = Ok c).
Context (Hh : forall y, output_curve s t y == h y).

(** The level is at least [m] when the moment of [h] about [m] is not
    negative, and at most [m] when the opposite moment is not. *)
Lemma band_lower :
  0 <= moment (fun y => y - m) h (arange 0 101 1) -> m <= c.
Proof.
  intros H.
  apply (centroid_ge_moment _ _ _ _ (output_curve_nonneg s t _) Hc).
  eapply Qle_trans; [exact H|]. apply moment_mono. intros y.
  rewrite Hh. apply Qle_refl.
Qed.

Lemma band_upper :
  0 <= moment (fun y => m - y) h (arange 0 101 1) -> c <= m.
Proof.
  intros H.
  apply (centroid_le_moment _ _ _ _ (output_curve_nonneg s t _) Hc).
  eapply Qle_trans; [exact H|]. apply moment_mono. intros y.
  rewrite Hh. apply Qle_refl.
Qed.

End Band.

Lemma level_dry_hot (s t c : Q) :
  in_range s t -> s <= 20 -> 40 <= t -> level_spec s t = Ok c ->
  dry_hot_floor <= c.
Proof.
  intros Hr Hs Ht Hc. destruct (strengths_dry_hot s t Hr Hs Ht) as [Hss Hw].
  set (w := Qmin (trimf_at soil_dry s) (trimf_at temp_hot t)) in *.
  apply (band_lower s t c _ (fun y => Qmin w (trimf_at sprinkle_high y)) Hc).
  - intros y. unfold output_curve. rewrite Hss. apply curve_only_high. lra.
  - now apply (tri_moment _ _ _ (1 # 2) 1 w dry_hot_check).
Qed.

Lemma level_wet_cap (s t c : Q) :
  in_range s t -> 80 <= s -> level_spec s t = Ok c -> c <= wet_cap.
Proof.
  intros Hr Hs Hc. pose proof Hr as [Hs' _].
  pose proof (trimf_at_unit soil_wet s eq_refl) as [Uw Uw'].
  apply (band_upper s t c _
           (fun y => Qmin (Qmax 0 (trimf_at soil_wet s))
                          (trimf_at sprinkle_low y)) Hc).
  - intros y. unfold output_curve. rewrite (strengths_wet s t Hr Hs).
    apply curve_only_low; lra.
  - apply (tri_moment _ _ _ (3 # 5) 1 _ wet_check); [reflexivity|].
    revert Uw Uw'. rewrite (trimf_at_rising soil_wet s) by (cbn; lra).
    cbn. q_solve.
Qed.

Lemma level_cold_cap (s t c : Q) :
  in_range s t -> t <= 10 -> level_spec s t = Ok c -> c <= cold_sum.
Proof.
  intros Hr Ht Hc.
  pose proof (trimf_at_unit soil_moist s eq_refl) as Um.
  pose proof (trimf_at_unit temp_cold t eq_refl) as Uc.
  pose proof (trimf_at_unit soil_wet s eq_refl) as Uw.
  unfold unit_interval in *.
  apply (band_upper s t c _
           (fun y => Qmin (Qmax (Qmin (trimf_at soil_moist s)
                                      (trimf_at temp_cold t))
                                (trimf_at soil_wet s))
                          (trimf_at sprinkle_low y)) Hc).
  - intros y. unfold output_curve. rewrite (strengths_cold s t Hr Ht).
    apply curve_only_low; q_solve.
  - apply (tri_moment _ _ _ 0 1 _ cold_check); [reflexivity|]. q_solve.
Qed.

(** ** The claims *)

(** C16: the level of a run lies between 49/3 (16.33) and 251/3
    (83.67): for readings on the grids at which the run returns a level,
    the sprinkler is never set below the centroid of the whole triangle
    for "low" nor above that of "high". *)
Theorem level_band (s t c : Q) :
  in_range s t -> sprinkle_level s t = Ok c ->
  level_floor <= c <= level_ceiling.
Proof.
  intros Hr Hc. destruct (level_spec_Ok s t c Hr Hc) as (c' & Hc' & ->).
  pose proof (output_curve_nonneg s t (arange 0 101 1)) as Hnn.
  pose proof (strengths_spec_unit s t) as U. split.
  - apply (centroid_ge_moment _ _ _ _ Hnn Hc'). now apply curve_floor.
  - apply (centroid_le_moment _ _ _ _ Hnn Hc'). now apply curve_ceiling.
Qed.

(** C17: both ends are reached: soaked soil (100) gives the level 49/3
    at every temperature of the grid, and dry soil (0) in the heat (50)
    gives 251/3. *)
Theorem level_band_reached (t : Q) :
  0 <= t <= 50 ->
  result_Qeq (sprinkle_level 100 t) (Ok level_floor)
  /\ result_Qeq (sprinkle_level 0 50) (Ok level_ceiling).
Proof.
  intros Ht. split; [|vm_compute; reflexivity].
  rewrite (level_wet 100 t 0) by (unfold in_range; lra).
  vm_compute. reflexivity.
Qed.

(** C18: the bands of the scenarios of the specification (section 8)
    hold on whole regions, not only at the four points named there.  For
    readings on the grids at which the run returns a level: dry soil (up
    to 20) in the heat (from 40) gets at least 80; soil from 80 on gets at
    most 19 whatever the temperature; and in the cold (up to 10) the
    level is below 25 whatever the soil.  The scenarios (10, 40),
    (90, 15) and (50, 10) lie in these regions. *)
Theorem scenario_bands (s t c : Q) :
  in_range s t -> sprinkle_level s t = Ok c ->
  (s <= 20 -> 40 <= t -> dry_hot_floor <= c)
  /\ (80 <= s -> c <= wet_cap)
  /\ (t <= 10 -> c < cold_cap).
Proof.
  intros Hr Hc. destruct (level_spec_Ok s t c Hr Hc) as (c' & Hc' & ->).
  repeat split; intros.
  - now apply (level_dry_hot s t).
  - now apply (level_wet_cap s t).
  - apply Qle_lt_trans with cold_sum; [now apply (level_cold_cap s t)|].
    reflexivity.
Qed.

(** ** Witnesses *)

Lemma level_band_witness :
  level_floor <= level_at 30 35 <= level_ceiling.
Proof.
  apply (level_band 30 35); [unfold in_range; lra|now apply level_at_Ok].
Defined.

Lemma level_band_reached_witness :
  result_Qeq (sprinkle_level 100 25) (Ok level_floor)
  /\ result_Qeq (sprinkle_level 0 50) (Ok level_ceiling).
Proof. apply (level_band_reached 25). lra. Defined.

Lemma scenario_bands_witness :
  dry_hot_floor <= level_at 10 40
  /\ level_at 90 15 <= wet_cap
  /\ level_at 50 10 < cold_cap.
Proof.
  split; [|split].
  - destruct (scenario_bands 10 40 (level_at 10 40)) as (H & _ & _);
      [unfold in_range; lra|now apply level_at_Ok|apply H; lra].
  - destruct (scenario_bands 90 15 (level_at 90 15)) as (_ & H & _);
      [unfold in_range; lra|now apply level_at_Ok|apply H; lra].
  - destruct (scenario_bands 50 10 (level_at 50 10)) as (_ & _ & H);
      [unfold in_range; lra|now apply level_at_Ok|apply H; lra].
Defined.
