(* ===== verification/Driver.v ===== *)
(** * The driver: plots and test cases

    The part of [src/fuzzy.py] that runs before the report: the
    [screenshots] directory is created when absent (lines 43-44), the
    three membership plots are saved (lines 47-66), and the ten test cases
    are run through the simulation, each leaving a bar chart in
    [screenshots/output_<i>.png] (lines 69-99).

    The world of the script is the set of existing paths, the simulation
    object, the figures saved so far and the lines printed.  A figure is
    what was passed to matplotlib, not its pixels.

    The loop is not inside any [try]: an exception of the engine ends the
    program.  [plot_case_spec] gives one iteration in terms of the level
    of a fresh simulation, [plot_cases_Ok] and [plot_cases_Err] the loop,
    [driver_frame] the whole driver on any file system. *)

From stdpp Require Import gmap strings.
From Stdlib Require Import QArith Qminmax Lqa.
From S2P Require Import Prelude Format Membership Defuzz Variables Rules.
From S2P Require Import Inference Sprinkler.

#[local] Open Scope Q_scope.
#[local] Open Scope fuzzy_scope.
#[local] Open Scope string_scope.
#[local] Set Warnings "-clear-no-such-hyp".

(** ** The world *)

(** One call [plt.bar(labels, height)]: a scalar height is used for every
    label. *)
Record Bars : Type := mkBars { bar_labels : list string; bar_height : Q }.

Record Figure : Type := mkFigure {
  fig_title : string;
  fig_xlabel : string;
  fig_ylabel : string;
  fig_bars : list Bars
}.

Record World : Type := mkWorld {
  w_fs : gset string;
  w_sim : Simulation;
  w_saved : list (string * Figure);
  w_stdout : list string
}.

(** [plt.savefig(path)]: the path exists afterwards and the figure is
    recorded. *)
Definition savefig (w : World) (path : string) (fig : Figure) : World :=
  mkWorld ({[ path ]} ∪ w_fs w) (w_sim w) (w_saved w ++ [(path, fig)])
          (w_stdout w).

(** ** Lines 43-44: the directory *)

Definition ensure_screenshots (w : World) : World :=
  if decide ("screenshots" ∈ w_fs w) then w
  else mkWorld ({[ "screenshots" ]} ∪ w_fs w) (w_sim w) (w_saved w)
               (w_stdout w).

(** ** Lines 47-66: the membership plots *)

Definition membership_figure (title : string) : Figure :=
  mkFigure title "" "" [].

Definition plot_memberships (w : World) : World :=
  let w := savefig w "screenshots/soil_moisture_mf.png"
             (membership_figure "Soil Moisture Membership Functions") in
  let w := savefig w "screenshots/temperature_mf.png"
             (membership_figure "Temperature Membership Functions") in
  savefig w "screenshots/water_sprinkle_mf.png"
    (membership_figure "Water Sprinkling Membership Functions").

(** ** Lines 69-80: the test cases *)

Definition test_cases : list (Z * Z) :=
  [ (30, 35); (70, 20); (10, 40); (50, 10); (80, 30);
    (20, 45); (90, 15); (40, 25); (15, 35); (60, 5) ]%Z.

(** ** Lines 82-99: one iteration and the loop *)

(** [v[name].mf]: the samples of a term, [KeyError] when absent. *)
Definition term_mf_of (v : FuzzyVar) (name : string)
  : result error (list Q) :=
  match var_terms v !! name with
  | Some tm => Ok (term_mf tm)
  | None => Err UnknownTerm
  end.

(** Line 89: the title of the chart. *)
Definition case_title (soil temp : Z) (out : Q) : string :=
  "Soil: " ++ string_of_Z soil ++ "% | Temp: " ++ string_of_Z temp
  ++ "°C | Sprinkle: " ++ format_fixed 2 out ++ "%".

(** Line 92: the bars over "Dry", "Moist", "Wet". *)
Definition soil_bars (soil : Q) : result error Bars :=
  mf <- term_mf_of soil_moisture "dry" ;;
  Ok (mkBars ["Dry"; "Moist"; "Wet"]
             (interp_membership (var_universe soil_moisture) mf soil)).

(** Line 93: the bars over "Cold", "Warm", "Hot". *)
Definition temp_bars (temp : Q) : result error Bars :=
  mf <- term_mf_of temperature "cold" ;;
  Ok (mkBars ["Cold"; "Warm"; "Hot"]
             (interp_membership (var_universe temperature) mf temp)).

(** Line 94: the bars over "Low", "Medium", "High". *)
Definition level_bars (out : Q) : result error Bars :=
  mf <- term_mf_of water_sprinkle "low" ;;
  Ok (mkBars ["Low"; "Medium"; "High"]
             (interp_membership (var_universe water_sprinkle) mf out)).

(** Line 97: the path of the chart. *)
Definition screenshot_path (i : nat) : string :=
  "screenshots/output_" ++ string_of_nat i ++ ".png".

(** Lines 83-99: the body of the loop for case number [i]. *)
Definition plot_case (w : World) (i : nat) (soil temp : Z)
  : result error World :=
  sim <- run (w_sim w) (inject_Z soil) (inject_Z temp) ;;
  out <- get_output sim "Water Sprinkling" ;;
  b1 <- soil_bars (inject_Z soil) ;;
  b2 <- temp_bars (inject_Z temp) ;;
  b3 <- level_bars out ;;
  let fig := mkFigure (case_title soil temp out) "Inputs"
                      "Sprinkling Intensity" [b1; b2; b3] in
  Ok (savefig (mkWorld (w_fs w) sim (w_saved w) (w_stdout w))
              (screenshot_path i) fig).

(** Line 82: the loop over [enumerate(test_cases)], from index [i]. *)
Fixpoint plot_cases (w : World) (i : nat) (cases : list (Z * Z))
  : result error World :=
  match cases with
  | [] => Ok w
  | (soil, temp) :: cases' =>
      w' <- plot_case w i soil temp ;; plot_cases w' (S i) cases'
  end.

(** Lines 41-99: everything before the report, from a file system. *)
Definition initial_world (fs : gset string) : World :=
  mkWorld fs sprinkler [] [].

Definition driver (fs : gset string) : result error World :=
  plot_cases (plot_memberships (ensure_screenshots (initial_world fs)))
             0 test_cases.

(** ** The bars *)

Lemma soil_bars_Ok (soil : Q) :
  soil_bars soil
  = Ok (mkBars ["Dry"; "Moist"; "Wet"]
          (interp_membership (arange 0 101 1)
             (map (trimf_at soil_dry) (arange 0 101 1)) soil)).
Proof.
  unfold soil_bars, term_mf_of.
  now rewrite (soil_lookup "dry" soil_dry eq_refl).
Qed.

Lemma temp_bars_Ok (temp : Q) :
  temp_bars temp
  = Ok (mkBars ["Cold"; "Warm"; "Hot"]
          (interp_membership (arange 0 51 1)
             (map (trimf_at temp_cold) (arange 0 51 1)) temp)).
Proof.
  unfold temp_bars, term_mf_of.
  now rewrite (temp_lookup "cold" temp_cold eq_refl).
Qed.

Lemma level_bars_Ok (out : Q) :
  level_bars out
  = Ok (mkBars ["Low"; "Medium"; "High"]
          (interp_membership (arange 0 101 1)
             (map (trimf_at sprinkle_low) (arange 0 101 1)) out)).
Proof.
  unfold level_bars, term_mf_of.
  now rewrite (water_lookup "low" sprinkle_low eq_refl).
Qed.

(** The figure of one test case whose level is [out]. *)
Definition case_figure (soil temp : Z) (out : Q) : Figure :=
  mkFigure (case_title soil temp out) "Inputs" "Sprinkling Intensity"
    [ mkBars ["Dry"; "Moist"; "Wet"]
        (interp_membership (arange 0 101 1)
           (map (trimf_at soil_dry) (arange 0 101 1)) (inject_Z soil));
      mkBars ["Cold"; "Warm"; "Hot"]
        (interp_membership (arange 0 51 1)
           (map (trimf_at temp_cold) (arange 0 51 1)) (inject_Z temp));
      mkBars ["Low"; "Medium"; "High"]
        (interp_membership (arange 0 101 1)
           (map (trimf_at sprinkle_low) (arange 0 101 1)) out) ].

(** The simulation after a run that returned [out]. *)
Definition sim_after (sim : Simulation) (soil temp : Z) (out : Q)
  : Simulation :=
  mkSim sprinkle_ctrl
    (<["Temperature" := inject_Z temp]>
       (<["Soil Moisture" := inject_Z soil]> (sim_input sim)))
    (<["Water Sprinkling" := out]> (sim_output sim)).

(** One iteration, in terms of the level of a fresh simulation. *)
Lemma plot_case_spec (w : World) (i : nat) (soil temp : Z) :
  sim_ctrl (w_sim w) = sprinkle_ctrl ->
  plot_case w i soil temp
  = (out <- sprinkle_level (inject_Z soil) (inject_Z temp) ;;
     Ok (savefig (mkWorld (w_fs w) (sim_after (w_sim w) soil temp out)
                          (w_saved w) (w_stdout w))
                 (screenshot_path i) (case_figure soil temp out))).
Proof.
  intros Hc. unfold plot_case. rewrite (run_spec _ _ _ Hc).
  destruct (sprinkle_level _ _) as [out|e]; [|reflexivity].
  cbn [bind]. unfold get_output at 1. cbn [sim_output].
  rewrite lookup_insert_eq. cbn [bind].
  now rewrite soil_bars_Ok, temp_bars_Ok, level_bars_Ok.
Qed.

(** ** The loop *)

(** The readings of a case lie on the grids and outside the zone where no
    rule fires. *)
Definition case_ok (c : Z * Z) : Prop :=
  in_range (inject_Z c.1) (inject_Z c.2)
  /\ ~ dead_zone (inject_Z c.1) (inject_Z c.2).

(** What the loop saves for a list of cases, from index [i]. *)
Fixpoint case_entries (i : nat) (cases : list (Z * Z))
  : list (string * Figure) :=
  match cases with
  | [] => []
  | (soil, temp) :: cases' =>
      (screenshot_path i,
       case_figure soil temp (level_at (inject_Z soil) (inject_Z temp)))
      :: case_entries (S i) cases'
  end.

(** The world after the loop has run through [cases] without error. *)
Definition after_cases (w w' : World) (i : nat) (cases : list (Z * Z))
  : Prop :=
  sim_ctrl (w_sim w') = sprinkle_ctrl
  /\ w_fs w' = list_to_set (map fst (case_entries i cases)) ∪ w_fs w
  /\ w_saved w' = (w_saved w ++ case_entries i cases)%list
  /\ w_stdout w' = w_stdout w.

Lemma union_shift (L F : gset string) (p : string) :
  L ∪ ({[p]} ∪ F) = ({[p]} ∪ L) ∪ F.
Proof. now rewrite (assoc_L (∪)), (comm_L (∪) L). Qed.

Lemma plot_cases_Ok (cases : list (Z * Z)) :
  forall (w : World) (i : nat),
  sim_ctrl (w_sim w) = sprinkle_ctrl -> Forall case_ok cases ->
  exists w', plot_cases w i cases = Ok w' /\ after_cases w w' i cases.
Proof.
  induction cases as [|[soil temp] cases IH]; intros w i Hc Hok.
  - exists w. split; [reflexivity|]. unfold after_cases. cbn.
    rewrite app_nil_r, (left_id_L ∅ (∪)). now repeat split.
  - apply Forall_cons in Hok as [[Hr Hd] Hok].
    cbn [plot_cases]. rewrite plot_case_spec by exact Hc.
    destruct (sprinkle_level (inject_Z soil) (inject_Z temp)) as [c|e] eqn:E;
      [|now destruct (level_Err_inv _ _ e Hr E)].
    cbn [bind]. edestruct IH as (w' & -> & H1 & H2 & H3 & H4);
      [|exact Hok|]; [reflexivity|].
    exists w'. split; [reflexivity|]. cbn in H2, H3, H4.
    unfold after_cases. cbn [case_entries map fst]. unfold level_at.
    cbn [fst snd]. rewrite E, H2, H3, H4, <- app_assoc.
    rewrite list_to_set_cons, union_shift. now repeat split.
Qed.

(** A case in the zone where no rule fires ends the loop, and the
    program, with the engine's error. *)
Lemma plot_cases_Err (cases : list (Z * Z)) :
  forall (w : World) (i : nat),
  sim_ctrl (w_sim w) = sprinkle_ctrl ->
  Forall (fun c => in_range (inject_Z c.1) (inject_Z c.2)) cases ->
  Exists (fun c => dead_zone (inject_Z c.1) (inject_Z c.2)) cases ->
  plot_cases w i cases = Err NoApplicableRule.
Proof.
  induction cases as [|[soil temp] cases IH]; intros w i Hc Hr Hd.
  - now apply Exists_nil in Hd.
  - apply Forall_cons in Hr as [Hr Hrs]. cbn [fst snd] in Hr.
    cbn [plot_cases]. rewrite plot_case_spec by exact Hc.
    destruct (sprinkle_level (inject_Z soil) (inject_Z temp)) as [c|e] eqn:E.
    + cbn [bind]. apply IH; [reflexivity|exact Hrs|].
      apply Exists_cons in Hd as [Hd|Hd]; [|exact Hd].
      cbn [fst snd] in Hd. now rewrite (level_dead _ _ Hr Hd) in E.
    + now destruct (level_Err_inv _ _ e Hr E) as [-> _].
Qed.

(** ** The driver *)

Definition membership_entries : list (string * Figure) :=
  [ ("screenshots/soil_moisture_mf.png",
     membership_figure "Soil Moisture Membership Functions");
    ("screenshots/temperature_mf.png",
     membership_figure "Temperature Membership Functions");
    ("screenshots/water_sprinkle_mf.png",
     membership_figure "Water Sprinkling Membership Functions") ].

Lemma test_cases_ok : Forall case_ok test_cases.
Proof.
  unfold test_cases.
  repeat (apply Forall_cons; split); [..|apply Forall_nil_2];
    unfold case_ok, in_range, dead_zone, inject_Z; cbn [fst snd]; lra.
Qed.

(** The world in which the loop starts. *)
Lemma driver_setup (fs : gset string) :
  let w := plot_memberships (ensure_screenshots (initial_world fs)) in
  w_sim w = sprinkler /\ w_saved w = membership_entries /\ w_stdout w = []
  /\ w_fs w = list_to_set ("screenshots" :: map fst membership_entries) ∪ fs.
Proof.
  unfold ensure_screenshots. destruct (decide _) as [Hin|Hnin]; cbn;
    repeat split; set_solver.
Qed.

(** The driver on any file system: nothing raises, thirteen figures are
    saved, and the directory exists. *)
Lemma driver_Ok (fs : gset string) :
  exists w,
    driver fs = Ok w
    /\ sim_ctrl (w_sim w) = sprinkle_ctrl
    /\ w_saved w = (membership_entries ++ case_entries 0 test_cases)%list
    /\ w_fs w
       = list_to_set
           ("screenshots"
            :: map fst (membership_entries ++ case_entries 0 test_cases)%list)
         ∪ fs
    /\ w_stdout w = [].
Proof.
  unfold driver. destruct (driver_setup fs) as (S1 & S2 & S3 & S4).
  edestruct (plot_cases_Ok test_cases) as (w & -> & H1 & H2 & H3 & H4);
    [|exact test_cases_ok|]; [now rewrite S1|].
  exists w. split; [reflexivity|]. split; [exact H1|].
  rewrite H2, H3, H4, S2, S3, S4. clear. repeat split. set_solver.
Qed.

(** ** The driver and the files that were there before *)

(** The world [w] with the files [fs] added. *)
Definition add_fs (fs : gset string) (w : World) : World :=
  mkWorld (w_fs w ∪ fs) (w_sim w) (w_saved w) (w_stdout w).

(** The world the driver leaves when it starts without any file. *)
Definition driver_world : World :=
  Eval vm_compute in
    match driver ∅ with Ok w => w | Err _ => initial_world ∅ end.

Lemma driver_world_eq : driver ∅ = Ok driver_world.
Proof. vm_compute. reflexivity. Qed.

Lemma plot_cases_frame (fs : gset string) (cases : list (Z * Z)) :
  forall (w : World) (i : nat),
  sim_ctrl (w_sim w) = sprinkle_ctrl ->
  plot_cases (add_fs fs w) i cases
  = result_map (add_fs fs) (plot_cases w i cases).
Proof.
  induction cases as [|[soil temp] cases IH]; intros w i Hc; [reflexivity|].
  cbn [plot_cases]. rewrite !plot_case_spec by exact Hc.
  destruct (sprinkle_level _ _) as [c|e]; [|reflexivity]. cbn [bind].
  rewrite <- IH by reflexivity. f_equal.
  unfold add_fs, savefig. cbn. f_equal. apply (assoc_L (∪)).
Qed.

Lemma setup_frame (fs : gset string) :
  plot_memberships (ensure_screenshots (initial_world fs))
  = add_fs fs (plot_memberships (ensure_screenshots (initial_world ∅))).
Proof.
  change (ensure_screenshots (initial_world ∅))
    with (mkWorld {[ "screenshots" ]} sprinkler [] []).
  unfold ensure_screenshots, add_fs, plot_memberships, savefig.
  cbn [w_fs w_sim w_saved w_stdout initial_world].
  destruct (decide ("screenshots" ∈ fs)) as [Hin|Hnin];
    cbn [w_fs w_sim w_saved w_stdout]; f_equal; set_solver.
Qed.

(** The driver adds its files to those that were there and does nothing
    else with them. *)
Lemma driver_frame (fs : gset string) :
  driver fs = Ok (add_fs fs driver_world).
Proof.
  unfold driver. rewrite setup_frame, plot_cases_frame.
  - fold (driver ∅). now rewrite driver_world_eq.
  - now destruct (driver_setup ∅) as [-> _].
Qed.

(** ** What the bars show *)

Lemma soil_dry_read (soil : Q) :
  0 <= soil <= 100 ->
  interp_membership (arange 0 101 1)
    (map (trimf_at soil_dry) (arange 0 101 1)) soil
  == trimf_at soil_dry soil.
Proof. now apply (interp_membership_trimf _ _ 0 100). Qed.

Lemma temp_cold_read (temp : Q) :
  0 <= temp <= 50 ->
  interp_membership (arange 0 51 1)
    (map (trimf_at temp_cold) (arange 0 51 1)) temp
  == trimf_at temp_cold temp.
Proof. now apply (interp_membership_trimf _ _ 0 50). Qed.

Lemma sprinkle_low_read (out : Q) :
  0 <= out <= 100 ->
  interp_membership (arange 0 101 1)
    (map (trimf_at sprinkle_low) (arange 0 101 1)) out
  == trimf_at sprinkle_low out.
Proof. now apply (interp_membership_trimf _ _ 0 100). Qed.

(** ** The claims *)

(** C4: on every file system the driver (fuzzy.py lines 43-99) runs to
    the end without an exception: the ten test cases all have a level,
    thirteen figures are saved under the names the report later reads, the
    directory [screenshots] exists afterwards, and nothing is printed. *)
Theorem driver_completes (fs : gset string) :
  exists w,
    driver fs = Ok w
    /\ map fst (w_saved w)
       = [ "screenshots/soil_moisture_mf.png";
           "screenshots/temperature_mf.png";
           "screenshots/water_sprinkle_mf.png";
           "screenshots/output_0.png"; "screenshots/output_1.png";
           "screenshots/output_2.png"; "screenshots/output_3.png";
           "screenshots/output_4.png"; "screenshots/output_5.png";
           "screenshots/output_6.png"; "screenshots/output_7.png";
           "screenshots/output_8.png"; "screenshots/output_9.png" ]
    /\ w_fs w = list_to_set ("screenshots" :: map fst (w_saved w)) ∪ fs
    /\ w_stdout w = [].
Proof.
  destruct (driver_Ok fs) as (w & Hw & _ & Hsaved & Hfs & Hout).
  exists w. rewrite Hfs, Hsaved. now repeat split.
Qed.

(** C21: the loop of lines 82-99 over any list of cases whose readings
    lie on the grids and outside the zone where no rule fires, from any
    world whose simulation holds the script's rules: it ends without an
    exception, saves one figure per case under
    [screenshots/output_<index>.png] with the level of a fresh run in its
    title, and leaves everything else as it was. *)
Theorem plot_cases_total (w : World) (i : nat) (cases : list (Z * Z)) :
  sim_ctrl (w_sim w) = sprinkle_ctrl -> Forall case_ok cases ->
  exists w',
    plot_cases w i cases = Ok w'
    /\ sim_ctrl (w_sim w') = sprinkle_ctrl
    /\ w_fs w' = list_to_set (map fst (case_entries i cases)) ∪ w_fs w
    /\ w_saved w' = (w_saved w ++ case_entries i cases)%list
    /\ w_stdout w' = w_stdout w.
Proof. exact (plot_cases_Ok cases w i). Qed.

(** C8: the loop of lines 82-99 is not inside any [try]: if one case of
    the list has readings in the zone where no rule fires, the loop ends
    with the engine's exception, and so does the program, before any
    report is written. *)
Theorem plot_cases_crash (w : World) (i : nat) (cases : list (Z * Z)) :
  sim_ctrl (w_sim w) = sprinkle_ctrl ->
  Forall (fun c => in_range (inject_Z c.1) (inject_Z c.2)) cases ->
  Exists (fun c => dead_zone (inject_Z c.1) (inject_Z c.2)) cases ->
  plot_cases w i cases = Err NoApplicableRule.
Proof. exact (plot_cases_Err cases w i). Qed.

(** C10: each of the three [plt.bar] calls of lines 92-94 draws its
    three labels at one height, the degree of the first term only: "Dry",
    "Moist" and "Wet" at the degree of "dry", "Cold", "Warm" and "Hot" at
    the degree of "cold", "Low", "Medium" and "High" at the degree of
    "low". *)
Theorem bars_show_first_term (soil temp out : Q) :
  0 <= soil <= 100 -> 0 <= temp <= 50 -> 0 <= out <= 100 ->
  exists h1 h2 h3,
    soil_bars soil = Ok (mkBars ["Dry"; "Moist"; "Wet"] h1)
    /\ temp_bars temp = Ok (mkBars ["Cold"; "Warm"; "Hot"] h2)
    /\ level_bars out = Ok (mkBars ["Low"; "Medium"; "High"] h3)
    /\ h1 == trimf_at soil_dry soil /\ h2 == trimf_at temp_cold temp
    /\ h3 == trimf_at sprinkle_low out.
Proof.
  intros Hs Ht Ho. do 3 eexists.
  rewrite soil_bars_Ok, temp_bars_Ok, level_bars_Ok.
  repeat split; [now apply soil_dry_read|now apply temp_cold_read
                |now apply sprinkle_low_read].
Qed.

(** C30: the titles of the thirteen figures the driver saves, with the
    levels of the ten test cases to two decimals: 60.21, 35.60, 80.82,
    19.18, 18.31, 81.69, 16.93, 50.00, 60.21 and 17.78. *)
Theorem driver_titles (fs : gset string) :
  exists w,
    driver fs = Ok w
    /\ map (fun e => fig_title e.2) (w_saved w)
       = [ "Soil Moisture Membership Functions";
           "Temperature Membership Functions";
           "Water Sprinkling Membership Functions";
           "Soil: 30% | Temp: 35°C | Sprinkle: 60.21%";
           "Soil: 70% | Temp: 20°C | Sprinkle: 35.60%";
           "Soil: 10% | Temp: 40°C | Sprinkle: 80.82%";
           "Soil: 50% | Temp: 10°C | Sprinkle: 19.18%";
           "Soil: 80% | Temp: 30°C | Sprinkle: 18.31%";
           "Soil: 20% | Temp: 45°C | Sprinkle: 81.69%";
           "Soil: 90% | Temp: 15°C | Sprinkle: 16.93%";
           "Soil: 40% | Temp: 25°C | Sprinkle: 50.00%";
           "Soil: 15% | Temp: 35°C | Sprinkle: 60.21%";
           "Soil: 60% | Temp: 5°C | Sprinkle: 17.78%" ].
Proof.
  destruct (driver_Ok fs) as (w & Hw & _ & Hsaved & _).
  exists w. split; [exact Hw|]. rewrite Hsaved. now vm_compute.
Qed.

(** ** Witnesses *)

Lemma plot_cases_total_witness :
  exists w',
    plot_cases (initial_world ∅) 0 [(30, 35); (70, 20)]%Z = Ok w'
    /\ sim_ctrl (w_sim w') = sprinkle_ctrl
    /\ w_fs w'
       = list_to_set (map fst (case_entries 0 [(30, 35); (70, 20)]%Z)) ∪ ∅
    /\ w_saved w' = case_entries 0 [(30, 35); (70, 20)]%Z
    /\ w_stdout w' = [].
Proof.
  apply (plot_cases_total (initial_world ∅) 0 [(30, 35); (70, 20)]%Z);
    [reflexivity|].
  repeat (apply Forall_cons; split); [..|apply Forall_nil_2];
    unfold case_ok, in_range, dead_zone, inject_Z; cbn [fst snd]; lra.
Defined.

Lemma plot_cases_crash_witness :
  plot_cases (initial_world ∅) 0 [(30, 35); (10, 5); (70, 20)]%Z
  = Err NoApplicableRule.
Proof.
  apply plot_cases_crash; [reflexivity| |].
  - repeat (apply Forall_cons; split); [..|apply Forall_nil_2];
      unfold in_range, inject_Z; cbn [fst snd]; lra.
  - apply Exists_cons_tl, Exists_cons_hd.
    unfold dead_zone, inject_Z; cbn [fst snd]. lra.
Defined.

Lemma bars_show_first_term_witness :
  exists h1 h2 h3,
    soil_bars 70 = Ok (mkBars ["Dry"; "Moist"; "Wet"] h1)
    /\ temp_bars 20 = Ok (mkBars ["Cold"; "Warm"; "Hot"] h2)
    /\ level_bars 36 = Ok (mkBars ["Low"; "Medium"; "High"] h3)
    /\ h1 == trimf_at soil_dry 70 /\ h2 == trimf_at temp_cold 20
    /\ h3 == trimf_at sprinkle_low 36.
Proof. apply bars_show_first_term; lra. Defined.
