(* ===== verification/Report.v ===== *)
(** * The report

    The last part of [src/fuzzy.py] (lines 102-290): inside one [try], a
    PDF is assembled call by call and written; any exception is caught,
    reported on standard output, and leaves no PDF.  Inside it a second
    [try] falls back to Arial when a font file cannot be loaded.

    A PDF is the list of calls made on the [FPDF] object.  The calls that
    can raise are [add_font] (the font file is absent), [image] (the image
    file is absent), [set_font] (the font is neither a core font nor
    registered), [cell] and [multi_cell] (the text has a character the
    selected font cannot encode: a core font encodes Latin-1 only) and
    [sprinkler.compute()] (no rule fires).  The state survives an
    exception: lines printed and calls made before it stay.

    Page layout (automatic page breaks, text wrapping) is not modelled, and
    the date on the title page is a parameter.

    The theory has three steps.  Every action of the report [respects] a
    set of paths: started in two states that agree on those paths it makes
    the same calls, prints the same lines and returns the same result.
    Hence the outcome on any file system is the outcome on one of the
    thirty-two file systems made of the five files whose existence the
    script does not establish itself, and [report_table] evaluates those.
    The claims are read off the resulting [report_summary]. *)

From stdpp Require Import gmap strings.
From Stdlib Require Import QArith Qminmax Lqa.
From S2P Require Import Prelude Format Membership Defuzz Variables Rules.
From S2P Require Import Inference Sprinkler Controller Driver.

#[local] Open Scope Q_scope.
#[local] Open Scope string_scope.
#[local] Set Warnings "-clear-no-such-hyp".

(** ** Calls on the PDF object *)

Inductive PdfOp : Type :=
| SetAutoPageBreak (auto : bool) (margin : Z)
| AddPage
| AddFont (family style fname : string)
| SetFont (family style : string) (size : Z)
| Cell (w h : Z) (txt : string) (ln : bool) (align : string)
| Ln (h : Z)
| MultiCell (w h : Z) (txt : string)
| Image (name : string) (x w : Z)
| Output (name : string).

(** What can be raised inside the [try]. *)
Inductive exn : Type :=
| FontMissing (fname : string)
| ImageMissing (name : string)
| EngineError (e : error)
| UndefinedFont (family style : string)
| NoFontSet
| NotEncodable (txt : string).

Record RState : Type := mkRState { rs_world : World; rs_ops : list PdfOp }.

(** ** The monad of the report: state that survives exceptions *)

Definition M (A : Type) : Type := RState -> RState * result exn A.

Definition rret {A : Type} (a : A) : M A := fun s => (s, Ok a).

Definition rbind {A B : Type} (m : M A) (k : A -> M B) : M B :=
  fun s =>
    match m s with
    | (s', Ok a) => k a s'
    | (s', Err e) => (s', Err e)
    end.

Definition raise {A : Type} (e : exn) : M A := fun s => (s, Err e).

(** [try: m except Exception as e: h e]. *)
Definition try_catch {A : Type} (m : M A) (h : exn -> M A) : M A :=
  fun s =>
    match m s with
    | (s', Ok a) => (s', Ok a)
    | (s', Err e) => h e s'
    end.

Declare Scope report_scope.
Delimit Scope report_scope with report.

Notation "x <- m ;; k" := (rbind m (fun x => k))
  (at level 100, m at next level, right associativity) : report_scope.
Notation "m ;;; k" := (rbind m (fun _ => k))
  (at level 100, right associativity) : report_scope.

#[local] Open Scope report_scope.

(** Run the actions of a list in order. *)
Fixpoint for_each {A : Type} (f : A -> M unit) (l : list A) : M unit :=
  match l with
  | [] => rret tt
  | a :: l' => f a ;;; for_each f l'
  end.

(** The same with the index, as [enumerate] gives it. *)
Fixpoint for_each_i {A : Type} (f : nat -> A -> M unit) (i : nat)
  (l : list A) : M unit :=
  match l with
  | [] => rret tt
  | a :: l' => f i a ;;; for_each_i f (S i) l'
  end.

(** ** Primitive actions *)

Definition emit (op : PdfOp) : M unit :=
  fun s => (mkRState (rs_world s) (rs_ops s ++ [op]), Ok tt).

Definition print (line : string) : M unit :=
  fun s =>
    let w := rs_world s in
    (mkRState (mkWorld (w_fs w) (w_sim w) (w_saved w) (w_stdout w ++ [line]))
              (rs_ops s), Ok tt).

(** [os.path.exists(path)]. *)
Definition path_exists (path : string) : M bool :=
  fun s => (s, Ok (bool_decide (path ∈ w_fs (rs_world s)))).

(** [pdf.add_font(family, style=style, fname=fname, uni=True)]. *)
Definition add_font (family style fname : string) : M unit :=
  ok <- path_exists fname ;;
  if ok : bool then emit (AddFont family style fname)
  else raise (FontMissing fname).

(** [pdf.image(name, x=x, w=w)]. *)
Definition image (name : string) (x w : Z) : M unit :=
  ok <- path_exists name ;;
  if ok : bool then emit (Image name x w) else raise (ImageMissing name).

Definition add_page : M unit := emit AddPage.

Definition ln (h : Z) : M unit := emit (Ln h).

(** *** Fonts and the texts they can encode

    A font is either one of the core fonts of the PDF format, which
    encode Latin-1 and nothing else, or a TrueType font registered by
    [add_font] under a family and a style, which encodes every text. *)

Definition lower_ascii (c : Ascii.ascii) : Ascii.ascii :=
  let n := Ascii.nat_of_ascii c in
  if (65 <=? n)%nat && (n <=? 90)%nat then Ascii.ascii_of_nat (n + 32)
  else c.

Fixpoint lower (s : string) : string :=
  match s with
  | EmptyString => EmptyString
  | String c s' => String (lower_ascii c) (lower s')
  end.

Definition core_font (family : string) : bool :=
  bool_decide (lower family
               ∈ ["courier"; "helvetica"; "arial"; "times"; "symbol";
                  "zapfdingbats"]).

(** [family] and [style] were registered by an [add_font] among [ops]. *)
Definition font_added (ops : list PdfOp) (family style : string) : bool :=
  existsb (fun op => match op with
                     | AddFont f st _ =>
                         bool_decide (lower f = lower family)
                         && bool_decide (st = style)
                     | _ => false
                     end) ops.

(** The font selected by the last [set_font] among [ops]. *)
Definition current_font (ops : list PdfOp) : option (string * string) :=
  last (omap (fun op => match op with
                        | SetFont f st _ => Some (f, st)
                        | _ => None
                        end) ops).

(** Every character of the text, a string of UTF-8 bytes, is at most
    U+00FF: no byte is the first of a sequence beyond [C3]. *)
Fixpoint latin1 (txt : string) : bool :=
  match txt with
  | EmptyString => true
  | String c txt' => (Ascii.nat_of_ascii c <? 196)%nat && latin1 txt'
  end.

(** What stands in the way of writing [txt] after the calls [ops]. *)
Definition text_check (ops : list PdfOp) (txt : string) : option exn :=
  match current_font ops with
  | None => Some NoFontSet
  | Some (f, st) =>
      if font_added ops f st || latin1 txt then None
      else Some (NotEncodable txt)
  end.

(** [pdf.set_font(family, style, size=size)]. *)
Definition set_font (family style : string) (size : Z) : M unit :=
  fun s =>
    if font_added (rs_ops s) family style || core_font family
    then emit (SetFont family style size) s
    else (s, Err (UndefinedFont family style)).

(** [pdf.cell(w, h, txt, ln=ln, align=align)]. *)
Definition cell (w h : Z) (txt : string) (ln : bool) (align : string)
  : M unit :=
  fun s =>
    match text_check (rs_ops s) txt with
    | None => emit (Cell w h txt ln align) s
    | Some e => (s, Err e)
    end.

(** [pdf.multi_cell(w, h, txt)]. *)
Definition multi_cell (w h : Z) (txt : string) : M unit :=
  fun s =>
    match text_check (rs_ops s) txt with
    | None => emit (MultiCell w h txt) s
    | Some e => (s, Err e)
    end.

(** The three statements of lines 251-253 on the simulation of the
    world, and the level read at line 264.  The inputs stay set when
    [compute] raises. *)
Definition compute_case (soil temp : Z) : M Q :=
  fun s =>
    let w := rs_world s in
    let with_sim sim :=
      mkRState (mkWorld (w_fs w) sim (w_saved w) (w_stdout w)) (rs_ops s) in
    let sim0 := set_input (set_input (w_sim w) "Soil Moisture"
                             (inject_Z soil))
                          "Temperature" (inject_Z temp) in
    match compute sim0 with
    | Err e => (with_sim sim0, Err (EngineError e))
    | Ok sim =>
        match get_output sim "Water Sprinkling" with
        | Ok out => (with_sim sim, Ok out)
        | Err e => (with_sim sim, Err (EngineError e))
        end
    end.

(** [pdf.output(name)]: the file exists afterwards. *)
Definition output (name : string) : M unit :=
  fun s =>
    let w := rs_world s in
    (mkRState (mkWorld ({[ name ]} ∪ w_fs w) (w_sim w) (w_saved w)
                       (w_stdout w))
              (rs_ops s ++ [Output name]), Ok tt).

(** [str(e)] for the messages of lines 114 and 290. *)
Definition exn_message (e : exn) : string :=
  match e with
  | FontMissing fname => "TTF Font file not found: " ++ fname
  | ImageMissing name => "Missing file: " ++ name
  | EngineError _ => "Crisp output cannot be calculated"
  | UndefinedFont family style => "Undefined font: " ++ family ++ style
  | NoFontSet => "No font set"
  | NotEncodable txt => "Character outside the range of the font in: " ++ txt
  end.

Definition nl : string := String (Ascii.ascii_of_nat 10) EmptyString.

(** ** Lines 108-116: the fonts *)

Definition default_font_size : Z := 12.

(** Both font files are loaded, or the message is printed and Arial is
    used.  The result is [font_name]. *)
Definition load_fonts : M string :=
  try_catch
    (add_font "Book Antiqua" "" "fonts/bookantiqua.ttf" ;;;
     add_font "Book Antiqua" "B" "fonts/bookantiqua_bold.ttf" ;;;
     rret "Book Antiqua")
    (fun e =>
       print ("Error loading fonts: " ++ exn_message e
              ++ ". Using Arial instead.") ;;;
       rret "Arial").

(** ** Lines 119-139: the title page *)

(** fuzzy.py lines 127-133. *)
Definition team_members : list string :=
  [ "WAINAINA, NIXON MBURU – 665507";
    "WILLIAM MUNGAI – 666494";
    "BRACKCIDIS TEMKO – 666989";
    "LEE KAMAU – 666591";
    "STEPHEN KAHANYA 668435" ].

Definition title_page (font_name today : string) : M unit :=
  set_font font_name "B" 24 ;;;
  cell 200 40 "Fuzzy Logic Sprinkler System" true "C" ;;;
  ln 20 ;;;
  set_font font_name "B" default_font_size ;;;
  cell 200 10 "Team Members:" true "" ;;;
  set_font font_name "" default_font_size ;;;
  for_each (fun member => cell 200 10 member true "") team_members ;;;
  ln 10 ;;;
  cell 200 10 ("Date: " ++ today) true "".

(** ** Lines 142-181: the text sections *)

(** fuzzy.py lines 143-145. *)
Definition introduction_text : string :=
  "This report presents an advanced fuzzy logic-based sprinkler control system designed to optimize irrigation based on environmental conditions. The system demonstrates the practical application of fuzzy logic in agricultural automation, providing intelligent and efficient water management." ++ nl
  ++ "" ++ nl
  ++ "The primary advantage of this fuzzy logic approach is its ability to handle imprecise input data and provide smooth, continuous output adjustments, unlike traditional binary systems. This results in more natural and efficient irrigation control.".

(** fuzzy.py lines 147-164. *)
Definition system_description_text : string :=
  "The intelligent sprinkler system incorporates multiple components working in harmony:" ++ nl
  ++ "" ++ nl
  ++ "Input Variables:" ++ nl
  ++ "1. Soil Moisture (0-100%): Measures water content in soil" ++ nl
  ++ "   • Dry (0-50%): Indicates urgent watering needs" ++ nl
  ++ "   • Moist (20-80%): Optimal moisture range" ++ nl
  ++ "   • Wet (50-100%): Sufficient water content" ++ nl
  ++ "" ++ nl
  ++ "2. Temperature (0-50°C): Monitors environmental temperature" ++ nl
  ++ "   • Cold (0-20°C): Low evaporation conditions" ++ nl
  ++ "   • Warm (10-40°C): Moderate water requirements" ++ nl
  ++ "   • Hot (30-50°C): High evaporation risk" ++ nl
  ++ "" ++ nl
  ++ "Output Control:" ++ nl
  ++ "• Water Sprinkling Level (0-100%): Automated adjustment based on conditions" ++ nl
  ++ "   • Low (0-50%): Conservative water usage" ++ nl
  ++ "   • Medium (20-80%): Balanced irrigation" ++ nl
  ++ "   • High (50-100%): Intensive watering".

(** fuzzy.py lines 166-172. *)
Definition methodology_text : string :=
  "The system employs triangular membership functions for both inputs and outputs, providing a balanced approach to fuzzy set representation. The rule base is designed to prioritize water conservation while maintaining optimal growing conditions." ++ nl
  ++ "" ++ nl
  ++ "Key Implementation Features:" ++ nl
  ++ "1. Continuous variable monitoring" ++ nl
  ++ "2. Real-time adjustment capability" ++ nl
  ++ "3. Smooth transition between states" ++ nl
  ++ "4. Adaptive response to changing conditions".

(** fuzzy.py lines 142-173: the dictionary, in insertion order. *)
Definition sections : list (string * string) :=
  [ ("Introduction", introduction_text);
    ("System Description", system_description_text);
    ("Methodology", methodology_text) ].

(** fuzzy.py lines 176-181. *)
Definition section_pages (font_name : string) : M unit :=
  for_each
    (fun '(title, content) =>
       add_page ;;;
       set_font font_name "B" 16 ;;;
       cell 200 10 title true "" ;;;
       set_font font_name "" default_font_size ;;;
       multi_cell 0 10 content)
    sections.

(** ** Lines 184-203: the screenshots *)

(** fuzzy.py lines 191-195. *)
Definition screenshots : list (string * string) :=
  [ ("Screenshot from 2025-03-23 14-12-50.png",
     "System Components and Variables");
    ("Screenshot from 2025-03-23 14-13-19.png",
     "Membership Functions Implementation");
    ("Screenshot from 2025-03-23 14-13-47.png",
     "Rule Base and Control System") ].

Definition screenshots_section (font_name : string) : M unit :=
  add_page ;;;
  set_font font_name "B" 16 ;;;
  cell 200 10 "Implementation Screenshots" true "" ;;;
  set_font font_name "" default_font_size ;;;
  multi_cell 0 5
    "The following screenshots show the system implementation and key components:" ;;;
  for_each
    (fun '(img_file, caption) =>
       ln 5 ;;;
       image img_file 10 190 ;;;
       set_font font_name "B" default_font_size ;;;
       ln 2 ;;;
       cell 200 10 caption true "C" ;;;
       ln 5)
    screenshots.

(** ** Lines 206-211: the membership plots *)

Definition membership_section (font_name : string) : M unit :=
  add_page ;;;
  set_font font_name "B" 16 ;;;
  cell 200 10 "System Membership Functions" true "" ;;;
  image "screenshots/soil_moisture_mf.png" 10 180 ;;;
  image "screenshots/temperature_mf.png" 10 180 ;;;
  image "screenshots/water_sprinkle_mf.png" 10 180.

(** ** Lines 214-243: the rule base in words *)

(** fuzzy.py lines 219-234: number, condition, action, explanation. *)
Definition rules : list (string * string * string * string) :=
  [ ("Rule 1", "IF soil is dry AND temperature is hot",
     "THEN sprinkle high",
     "High temperature combined with dry soil requires maximum irrigation");
    ("Rule 2", "IF soil is dry AND temperature is warm",
     "THEN sprinkle medium",
     "Warm conditions with dry soil need moderate watering");
    ("Rule 3", "IF soil is moist AND temperature is warm",
     "THEN sprinkle medium",
     "Optimal moisture maintenance during warm weather");
    ("Rule 4", "IF soil is moist AND temperature is cold",
     "THEN sprinkle low",
     "Cold weather reduces evaporation need");
    ("Rule 5", "IF soil is wet", "THEN sprinkle low",
     "Wet soil needs minimal watering regardless of temperature") ].

Definition rules_section (font_name : string) : M unit :=
  add_page ;;;
  set_font font_name "B" 16 ;;;
  cell 200 10 "Fuzzy Rule Base Design" true "" ;;;
  for_each
    (fun '(rule_num, condition, action, explanation) =>
       ln 5 ;;;
       set_font font_name "B" default_font_size ;;;
       cell 200 6 rule_num true "" ;;;
       set_font font_name "" default_font_size ;;;
       cell 200 6 condition true "" ;;;
       cell 200 6 action true "" ;;;
       cell 200 6 ("Explanation: " ++ explanation) true "")
    rules.

(** ** Lines 246-275: the test results *)

(** Line 260: the label of a soil reading. *)
Definition soil_label (soil : Z) : string :=
  if (soil <? 20)%Z then "Very Dry"
  else if (soil <? 40)%Z then "Dry"
  else if (soil <? 60)%Z then "Moderate"
  else if (soil <? 80)%Z then "Wet"
  else "Very Wet".

(** Line 261: the label of a temperature. *)
Definition temp_label (temp : Z) : string :=
  if (temp <? 15)%Z then "Cold"
  else if (temp <? 25)%Z then "Cool"
  else if (temp <? 35)%Z then "Warm"
  else "Hot".

(** Lines 265-270: the sentence that explains the level. *)
Definition reasoning (soil temp : Z) : string :=
  if (soil <? 40)%Z && (30 <? temp)%Z
  then "High water need due to dry soil and high temperature"
  else if (40 <=? soil)%Z && (soil <=? 60)%Z
  then "Moderate watering to maintain moisture"
  else if (60 <? soil)%Z
  then "Minimal watering needed due to sufficient soil moisture"
  else "Balanced watering based on conditions".

(** Lines 259-270: the paragraph of one test case. *)
Definition analysis (soil temp : Z) (out : Q) : string :=
  "Environmental Conditions:" ++ nl
  ++ "• Soil Moisture: " ++ string_of_Z soil ++ "% - " ++ soil_label soil
  ++ nl
  ++ "• Temperature: " ++ string_of_Z temp ++ "°C - " ++ temp_label temp
  ++ nl ++ nl
  ++ "System Response:" ++ nl
  ++ "• Sprinkling Level: " ++ format_fixed 1 out ++ "%" ++ nl
  ++ "• Reasoning: " ++ reasoning soil temp.

(** Lines 251-275: the body of the loop for case number [i]. *)
Definition test_case_entry (font_name : string) (i : nat) (case : Z * Z)
  : M unit :=
  let '(soil, temp) := case in
  out <- compute_case soil temp ;;
  set_font font_name "B" 14 ;;;
  cell 200 10 ("Test Case " ++ string_of_nat (i + 1)) true "" ;;;
  set_font font_name "" default_font_size ;;;
  multi_cell 0 10 (analysis soil temp out) ;;;
  ok <- path_exists (screenshot_path i) ;;
  (if ok : bool then image (screenshot_path i) 10 180 else rret tt) ;;;
  ln 10.

(** Lines 246-275. *)
Definition test_results_section (font_name : string) : M unit :=
  add_page ;;;
  set_font font_name "B" 16 ;;;
  cell 200 10 "Test Results and Analysis" true "" ;;;
  for_each_i (test_case_entry font_name) 0 test_cases.

(** ** Lines 278-287: conclusion and saving *)

(** fuzzy.py line 282. *)
Definition conclusion_text : string :=
  "The fuzzy logic sprinkler system demonstrates effective decision-making capabilities in determining appropriate water sprinkling levels based on environmental conditions. The system successfully adapts to various combinations of soil moisture and temperature, providing an intelligent solution for automated irrigation control. The membership functions and rule base ensure smooth transitions between different sprinkling levels, avoiding abrupt changes that could stress the plants or waste water.".
Definition conclusion_section (font_name : string) : M unit :=
  add_page ;;;
  set_font font_name "B" 16 ;;;
  cell 200 10 "Conclusion" true "" ;;;
  set_font font_name "" 12 ;;;
  multi_cell 0 10 conclusion_text.

(** The name the PDF is written under (line 286)... *)
Definition report_file : string := "Fuzzy_Logic_Report.pdf".

(** ... and the name the success message gives (line 287). *)
Definition announced_file : string := "Fuzzy_Logic_Report V1.4.pdf".

(** ** Lines 102-290: the whole report *)

(** The body of the outer [try]. *)
Definition report_body (today : string) : M unit :=
  emit (SetAutoPageBreak true 15) ;;;
  add_page ;;;
  font_name <- load_fonts ;;
  title_page font_name today ;;;
  section_pages font_name ;;;
  screenshots_section font_name ;;;
  membership_section font_name ;;;
  rules_section font_name ;;;
  test_results_section font_name ;;;
  conclusion_section font_name ;;;
  output report_file ;;;
  print ("Enhanced report generated: " ++ announced_file).

(** The [try] with its handler (lines 289-290). *)
Definition generate_report (today : string) : M unit :=
  try_catch (report_body today)
    (fun e => print ("Error generating PDF report: " ++ exn_message e)).

(** The report on the world the driver left, with a fresh PDF object. *)
Definition report_on (w : World) (today : string) : RState :=
  fst (generate_report today (mkRState w [])).

(** The whole script: the driver, whose exceptions end the program, then
    the report, which catches its own. *)
Definition main (fs : gset string) (today : string) : result error RState :=
  bind (driver fs) (fun w => Ok (report_on w today)).

(** ** What the report reads of the file system *)

(** Two states that differ at most in the existence of files outside
    [P]. *)
Definition agree (P : gset string) (s1 s2 : RState) : Prop :=
  rs_ops s1 = rs_ops s2
  /\ w_sim (rs_world s1) = w_sim (rs_world s2)
  /\ w_saved (rs_world s1) = w_saved (rs_world s2)
  /\ w_stdout (rs_world s1) = w_stdout (rs_world s2)
  /\ forall p, p ∈ P -> p ∈ w_fs (rs_world s1) <-> p ∈ w_fs (rs_world s2).

(** The same for the outcome of an action: the states agree and the
    results are equal. *)
Definition agree_out {A : Type} (P : gset string)
  (r1 r2 : RState * result exn A) : Prop :=
  agree P r1.1 r2.1 /\ r1.2 = r2.2.

#[export] Instance agree_equiv (P : gset string) : Equivalence (agree P).
Proof.
  split.
  - intros s. now repeat split.
  - intros s1 s2 (H1 & H2 & H3 & H4 & H5). repeat split; try easy;
      now apply H5.
  - intros s1 s2 s3 (H1 & H2 & H3 & H4 & H5) (K1 & K2 & K3 & K4 & K5).
    repeat split; try congruence; intros Hp.
    + now apply K5, H5.
    + now apply H5, K5.
Qed.

(** An action respects [P] when it asks for no file outside [P]: from
    states that agree it leads to outcomes that agree. *)
Definition respects {A : Type} (P : gset string) (m : M A) : Prop :=
  Proper (agree P ==> agree_out P) m.

Section Respect.
Context (P : gset string).

Lemma rret_proper {A : Type} (a : A) : respects P (rret a).
Proof. intros s1 s2 H. now split. Qed.

Lemma raise_proper {A : Type} (e : exn) :
  respects P (@raise A e).
Proof. intros s1 s2 H. now split. Qed.

Lemma rbind_proper {A B : Type} (m : M A) (k : A -> M B) :
  respects P m -> (forall a, respects P (k a)) -> respects P (rbind m k).
Proof.
  intros Hm Hk s1 s2 H. unfold rbind.
  destruct (Hm s1 s2 H) as [Hs Hr].
  destruct (m s1) as [s1' r1], (m s2) as [s2' r2]. cbn in Hs, Hr. subst r2.
  destruct r1 as [a|e]; [now apply Hk|now split].
Qed.

Lemma try_catch_proper {A : Type} (m : M A) (h : exn -> M A) :
  respects P m -> (forall e, respects P (h e)) -> respects P (try_catch m h).
Proof.
  intros Hm Hh s1 s2 H. unfold try_catch.
  destruct (Hm s1 s2 H) as [Hs Hr].
  destruct (m s1) as [s1' r1], (m s2) as [s2' r2]. cbn in Hs, Hr. subst r2.
  destruct r1 as [a|e]; [now split|now apply Hh].
Qed.

Lemma for_each_proper {A : Type} (f : A -> M unit) (l : list A) :
  (forall a, a ∈ l -> respects P (f a)) -> respects P (for_each f l).
Proof.
  induction l as [|a l IH]; intros H; cbn [for_each]; [apply rret_proper|].
  apply rbind_proper; [apply H; left|intros _; apply IH].
  intros b Hb. apply H. now right.
Qed.

Lemma for_each_i_proper {A : Type} (f : nat -> A -> M unit) (l : list A) :
  forall i,
  (forall k a, l !! k = Some a -> respects P (f (i + k)%nat a)) ->
  respects P (for_each_i f i l).
Proof.
  induction l as [|a l IH]; intros i H; cbn [for_each_i];
    [apply rret_proper|].
  apply rbind_proper.
  - specialize (H 0%nat a eq_refl). now rewrite Nat.add_0_r in H.
  - intros _. apply IH. intros k b Hk.
    specialize (H (S k) b Hk). now rewrite Nat.add_succ_r in H.
Qed.

Lemma emit_proper (op : PdfOp) : respects P (emit op).
Proof.
  intros s1 s2 (H1 & H2 & H3 & H4 & H5). split; [|reflexivity].
  unfold emit; cbn. rewrite H1. now repeat split; cbn; try apply H5.
Qed.

Lemma set_font_proper (family style : string) (size : Z) :
  respects P (set_font family style size).
Proof.
  intros s1 s2 H. unfold set_font. pose proof H as (H1 & _).
  rewrite H1. destruct (_ || _); [now apply emit_proper|now split].
Qed.

Lemma cell_proper (w h : Z) (txt : string) (ln : bool) (align : string) :
  respects P (cell w h txt ln align).
Proof.
  intros s1 s2 H. unfold cell. pose proof H as (H1 & _).
  rewrite H1. destruct (text_check _ _); [now split|now apply emit_proper].
Qed.

Lemma multi_cell_proper (w h : Z) (txt : string) :
  respects P (multi_cell w h txt).
Proof.
  intros s1 s2 H. unfold multi_cell. pose proof H as (H1 & _).
  rewrite H1. destruct (text_check _ _); [now split|now apply emit_proper].
Qed.

Lemma print_proper (line : string) : respects P (print line).
Proof.
  intros s1 s2 (H1 & H2 & H3 & H4 & H5). split; [|reflexivity].
  unfold print; cbn. rewrite H4. now repeat split; cbn; try apply H5.
Qed.

Lemma output_proper (name : string) : respects P (output name).
Proof.
  intros s1 s2 (H1 & H2 & H3 & H4 & H5). split; [|reflexivity].
  unfold output; cbn. rewrite H1. repeat split; cbn; try easy;
    rewrite !elem_of_union; specialize (H5 p); tauto.
Qed.

Lemma compute_case_proper (soil temp : Z) :
  respects P (compute_case soil temp).
Proof.
  intros s1 s2 (H1 & H2 & H3 & H4 & H5). unfold compute_case.
  rewrite H1, H2, H3, H4. destruct (compute _) as [sim|e].
  - destruct (get_output _ _); now repeat split; cbn; try apply H5.
  - now repeat split; cbn; try apply H5.
Qed.

Lemma path_exists_proper (path : string) :
  path ∈ P -> respects P (path_exists path).
Proof.
  intros Hp s1 s2 H. split; [exact H|]. unfold path_exists; cbn.
  destruct H as (_ & _ & _ & _ & H5). f_equal.
  apply bool_decide_ext, H5, Hp.
Qed.

Lemma add_font_proper (family style fname : string) :
  fname ∈ P -> respects P (add_font family style fname).
Proof.
  intros Hp. apply rbind_proper; [now apply path_exists_proper|].
  intros [|]; [apply emit_proper|apply raise_proper].
Qed.

Lemma image_proper (name : string) (x w : Z) :
  name ∈ P -> respects P (image name x w).
Proof.
  intros Hp. apply rbind_proper; [now apply path_exists_proper|].
  intros [|]; [apply emit_proper|apply raise_proper].
Qed.

End Respect.

(** ** The files the report asks about *)

(** The two font files and the three screenshots, whose existence
    nothing in the script establishes. *)
Definition checked : list string :=
  [ "fonts/bookantiqua.ttf"; "fonts/bookantiqua_bold.ttf";
    "Screenshot from 2025-03-23 14-12-50.png";
    "Screenshot from 2025-03-23 14-13-19.png";
    "Screenshot from 2025-03-23 14-13-47.png" ].

(** Those and the figures the driver saves. *)
Definition report_paths : gset string :=
  list_to_set (checked ++ map fst (w_saved driver_world)).

Ltac in_paths := apply (bool_decide_unpack _); vm_compute; exact I.

(** One step of the proof that an action respects [report_paths], chosen
    by the head of the action. *)
Ltac respect_step :=
  lazymatch goal with
  | |- respects _ (rret _) => apply rret_proper
  | |- respects _ (raise _) => apply raise_proper
  | |- respects _ (emit _) => apply emit_proper
  | |- respects _ add_page => apply emit_proper
  | |- respects _ (ln _) => apply emit_proper
  | |- respects _ (set_font _ _ _) => apply set_font_proper
  | |- respects _ (cell _ _ _ _ _) => apply cell_proper
  | |- respects _ (multi_cell _ _ _) => apply multi_cell_proper
  | |- respects _ (print _) => apply print_proper
  | |- respects _ (output _) => apply output_proper
  | |- respects _ (compute_case _ _) => apply compute_case_proper
  | |- respects _ (add_font _ _ _) => apply add_font_proper; in_paths
  | |- respects _ (image _ _ _) => apply image_proper; in_paths
  | |- respects _ (path_exists _) => apply path_exists_proper; in_paths
  | |- respects _ (try_catch _ _) => apply try_catch_proper; [|intros ?]
  | |- respects _ (rbind _ _) => apply rbind_proper; [|intros ?]
  | |- respects _ (if ?b then _ else _) => destruct b
  end.

Ltac respect := repeat respect_step.

Lemma load_fonts_respects : respects report_paths load_fonts.
Proof. unfold load_fonts. respect. Qed.

Lemma title_page_respects (f today : string) :
  respects report_paths (title_page f today).
Proof.
  unfold title_page. cbn [for_each team_members].
  respect.
Qed.

Lemma section_pages_respects (f : string) :
  respects report_paths (section_pages f).
Proof.
  unfold section_pages.
  cbn [for_each sections]. respect.
Qed.

Lemma screenshots_section_respects (f : string) :
  respects report_paths (screenshots_section f).
Proof.
  unfold screenshots_section.
  cbn [for_each screenshots]. respect.
Qed.

Lemma membership_section_respects (f : string) :
  respects report_paths (membership_section f).
Proof.
  unfold membership_section. respect.
Qed.

Lemma rules_section_respects (f : string) :
  respects report_paths (rules_section f).
Proof.
  unfold rules_section.
  cbn [for_each rules]. respect.
Qed.

Lemma test_case_entry_respects (f : string) (i : nat) (case : Z * Z) :
  (i < 10)%nat -> respects report_paths (test_case_entry f i case).
Proof.
  intros Hi. destruct case as [soil temp].
  unfold test_case_entry.
  do 10 (destruct i as [|i]; [respect|]). lia.
Qed.

Lemma test_results_section_respects (f : string) :
  respects report_paths (test_results_section f).
Proof.
  unfold test_results_section.
  respect. apply for_each_i_proper. intros k c Hk.
  apply test_case_entry_respects. apply lookup_lt_Some in Hk. cbn in Hk. lia.
Qed.

Lemma conclusion_section_respects (f : string) :
  respects report_paths (conclusion_section f).
Proof.
  unfold conclusion_section. respect.
Qed.

(** The report asks the file system about [report_paths] and nothing
    else. *)
Lemma generate_report_respects (today : string) :
  respects report_paths (generate_report today).
Proof.
  unfold generate_report, report_body, add_page.
  apply try_catch_proper; [|intros e; apply print_proper].
  apply rbind_proper; [apply emit_proper|intros _].
  apply rbind_proper; [apply emit_proper|intros _].
  apply rbind_proper; [apply load_fonts_respects|intros f].
  apply rbind_proper; [apply title_page_respects|intros _].
  apply rbind_proper; [apply section_pages_respects|intros _].
  apply rbind_proper; [apply screenshots_section_respects|intros _].
  apply rbind_proper; [apply membership_section_respects|intros _].
  apply rbind_proper; [apply rules_section_respects|intros _].
  apply rbind_proper; [apply test_results_section_respects|intros _].
  apply rbind_proper; [apply conclusion_section_respects|intros _].
  apply rbind_proper; [apply output_proper|intros _]. apply print_proper.
Qed.

(** ** The outcome as a function of the files that exist *)

#[export] Instance PdfOp_eq_dec : EqDecision PdfOp.
Proof. solve_decision. Defined.

(** What is observed of a finished report.  [pages] counts the calls of
    [add_page]; the pages that automatic page breaks (line 104) add are a
    matter of layout and not counted. *)
Definition pages (ops : list PdfOp) : nat :=
  length (filter (fun op => op = AddPage) ops).

Definition outputs (ops : list PdfOp) : list string :=
  omap (fun op => match op with Output name => Some name | _ => None end)
       ops.

Definition fonts_loaded (ops : list PdfOp) : list string :=
  omap (fun op => match op with AddFont _ _ fname => Some fname | _ => None
                  end) ops.

Definition fonts_used (ops : list PdfOp) : list string :=
  remove_dups
    (omap (fun op => match op with SetFont family _ _ => Some family
                     | _ => None end) ops).

Definition images (ops : list PdfOp) : list string :=
  omap (fun op => match op with Image name _ _ => Some name | _ => None end)
       ops.

(** The paragraphs of the test cases (lines 259-271). *)
Definition case_paragraphs (ops : list PdfOp) : list string :=
  omap (fun op => match op with
                  | MultiCell _ _ txt =>
                      if String.prefix "Environmental Conditions:" txt
                      then Some txt else None
                  | _ => None
                  end) ops.

(** The level of a test case where the run returns one. *)
Definition case_level (case : Z * Z) : Q :=
  level_at (inject_Z case.1) (inject_Z case.2).

Record Summary : Type := mkSummary {
  sum_stdout : list string;
  sum_pages : nat;
  sum_outputs : list string;
  sum_fonts_loaded : list string;
  sum_fonts_used : list string;
  sum_images : nat;
  sum_saved : list (string * Figure);
  sum_paragraphs : list string
}.

Definition summary (st : RState) : Summary :=
  mkSummary (w_stdout (rs_world st)) (pages (rs_ops st))
            (outputs (rs_ops st)) (fonts_loaded (rs_ops st))
            (fonts_used (rs_ops st)) (length (images (rs_ops st)))
            (w_saved (rs_world st)) (case_paragraphs (rs_ops st)).

(** The files of [ps] chosen by the bits [bs]. *)
Fixpoint pick (bs : list bool) (ps : list string) : list string :=
  match bs, ps with
  | b :: bs', p :: ps' => if b then p :: pick bs' ps' else pick bs' ps'
  | _, _ => []
  end.

(** The summary the script is expected to leave, given which of the five
    checked files exist.  Without both fonts the first text that Arial
    cannot encode, the line of the first team member, ends the report;
    with them, the first missing screenshot does. *)
Definition expected (b1 b2 b3 b4 b5 : bool) : Summary :=
  let fonts_ok := b1 && b2 in
  let shots_ok := b3 && b4 && b5 in
  let font_line :=
    "Error loading fonts: "
    ++ exn_message (FontMissing (if b1 then "fonts/bookantiqua_bold.ttf"
                                 else "fonts/bookantiqua.ttf"))
    ++ ". Using Arial instead." in
  let missing :=
    if b3 then if b4 then "Screenshot from 2025-03-23 14-13-47.png"
               else "Screenshot from 2025-03-23 14-13-19.png"
    else "Screenshot from 2025-03-23 14-12-50.png" in
  let failure :=
    if fonts_ok then ImageMissing missing
    else NotEncodable (hd "" team_members) in
  let last_line :=
    if fonts_ok && shots_ok
    then "Enhanced report generated: " ++ announced_file
    else "Error generating PDF report: " ++ exn_message failure in
  mkSummary
    (if fonts_ok then [last_line] else [font_line; last_line])
    (if fonts_ok then if shots_ok then 9 else 5 else 1)%nat
    (if fonts_ok && shots_ok then [report_file] else [])
    (pick [b1; b1 && b2]
          ["fonts/bookantiqua.ttf"; "fonts/bookantiqua_bold.ttf"])
    [if fonts_ok then "Book Antiqua" else "Arial"]
    (if fonts_ok
     then if shots_ok then 16 else if b3 then if b4 then 2 else 1 else 0
     else 0)%nat
    (w_saved driver_world)
    (if fonts_ok && shots_ok
     then map (fun case => analysis case.1 case.2 (case_level case))
              test_cases
     else []).

(** The state in which the report starts after the driver. *)
Definition start_state (fs : gset string) : RState :=
  mkRState (add_fs fs driver_world) [].

Lemma report_table (b1 b2 b3 b4 b5 : bool) (today : string) :
  summary (generate_report today
             (start_state (list_to_set (pick [b1; b2; b3; b4; b5] checked)))).1
  = expected b1 b2 b3 b4 b5.
Proof. destruct b1, b2, b3, b4, b5; vm_compute; reflexivity. Qed.

Lemma pick_spec (f : string -> bool) (ps : list string) (p : string) :
  p ∈ pick (map f ps) ps <-> p ∈ ps /\ f p = true.
Proof.
  induction ps as [|q ps IH]; cbn [map pick].
  - rewrite elem_of_nil. tauto.
  - destruct (f q) eqn:Hq; rewrite ?elem_of_cons, IH, ?elem_of_cons.
    + split; [intros [->|[? ?]]; auto|tauto].
    + split; [tauto|intros [[->|?] ?]; [congruence|tauto]].
Qed.

(** Whether a file exists, as a bit. *)
Definition present (fs : gset string) (p : string) : bool :=
  bool_decide (p ∈ fs).

Lemma driver_world_saved (p : string) :
  p ∈ map fst (w_saved driver_world) -> p ∈ w_fs driver_world.
Proof.
  revert p. apply Forall_forall. apply (bool_decide_unpack _).
  vm_compute. exact I.
Qed.

(** The files that exist matter through the five checked ones only. *)
Lemma start_agree (fs1 fs2 : gset string) :
  (forall p, p ∈ checked -> p ∈ fs1 <-> p ∈ fs2) ->
  agree report_paths (start_state fs1) (start_state fs2).
Proof.
  intros H. unfold agree, start_state, add_fs.
  cbn [rs_ops rs_world w_sim w_saved w_stdout w_fs].
  do 4 (split; [reflexivity|]). intros p Hp. rewrite !elem_of_union.
  apply elem_of_list_to_set, elem_of_app in Hp as [Hp|Hp];
    [specialize (H p Hp)|apply driver_world_saved in Hp]; tauto.
Qed.

Lemma start_agree_bits (fs : gset string) :
  agree report_paths (start_state fs)
    (start_state (list_to_set (pick (map (present fs) checked) checked))).
Proof.
  apply start_agree. intros p Hp.
  rewrite elem_of_list_to_set, pick_spec. unfold present.
  rewrite bool_decide_eq_true. tauto.
Qed.

Lemma summary_agree (P : gset string) (s1 s2 : RState) :
  agree P s1 s2 -> summary s1 = summary s2.
Proof.
  intros (H1 & _ & H3 & H4 & _). unfold summary. now rewrite H1, H3, H4.
Qed.

Lemma main_eq (fs : gset string) (today : string) :
  main fs today = Ok (report_on (add_fs fs driver_world) today).
Proof. unfold main. now rewrite driver_frame. Qed.

(** The summary of the whole script on any file system. *)
Lemma report_summary (fs : gset string) (today : string) :
  summary (report_on (add_fs fs driver_world) today)
  = expected (present fs "fonts/bookantiqua.ttf")
             (present fs "fonts/bookantiqua_bold.ttf")
             (present fs "Screenshot from 2025-03-23 14-12-50.png")
             (present fs "Screenshot from 2025-03-23 14-13-19.png")
             (present fs "Screenshot from 2025-03-23 14-13-47.png").
Proof.
  rewrite <- report_table with (today := today).
  apply (summary_agree report_paths).
  apply (generate_report_respects today), start_agree_bits.
Qed.

(** All three screenshots exist. *)
Definition screenshots_exist (fs : gset string) : Prop :=
  Forall (fun p => p.1 ∈ fs) screenshots.

Lemma screenshots_exist_bits (fs : gset string) :
  screenshots_exist fs <->
  present fs "Screenshot from 2025-03-23 14-12-50.png"
  && present fs "Screenshot from 2025-03-23 14-13-19.png"
  && present fs "Screenshot from 2025-03-23 14-13-47.png" = true.
Proof.
  unfold screenshots_exist, screenshots, present.
  rewrite !Forall_cons, Forall_nil, !andb_true_iff, !bool_decide_eq_true.
  cbn [fst]. tauto.
Qed.

(** ** The second pass over the test cases *)

(** A test case on the grids and outside the zone where no rule fires has
    a level. *)
Lemma case_level_Ok (case : Z * Z) :
  case_ok case ->
  sprinkle_level (inject_Z case.1) (inject_Z case.2) = Ok (case_level case).
Proof.
  intros [Hr Hd]. unfold case_level. apply level_at_Ok.
  destruct (sprinkle_level _ _) as [c|e] eqn:E; [reflexivity|].
  now destruct (level_Err_inv _ _ e Hr E).
Qed.

(** The titles of the charts the loop of the driver saves. *)
Lemma case_entries_titles (cases : list (Z * Z)) :
  forall i,
  map (fun e => fig_title e.2) (case_entries i cases)
  = map (fun case => case_title case.1 case.2 (case_level case)) cases.
Proof.
  induction cases as [|[soil temp] cases IH]; intros i; [reflexivity|].
  cbn [case_entries map]. now rewrite IH.
Qed.

Lemma driver_world_cases :
  w_saved driver_world
  = (membership_entries ++ case_entries 0 test_cases)%list.
Proof.
  destruct (driver_Ok ∅) as (w & Hw & _ & Hs & _).
  rewrite driver_world_eq in Hw. now injection Hw as <-.
Qed.

(** ** The words of the report and the fuzzy sets *)

Lemma reasoning_high (soil temp : Z) :
  reasoning soil temp
  = "High water need due to dry soil and high temperature" ->
  (soil < 40)%Z /\ (30 < temp)%Z.
Proof.
  unfold reasoning.
  destruct (Z.ltb_spec soil 40), (Z.ltb_spec 30 temp); cbn [andb];
    [easy|..]; repeat (destruct (_ && _) || destruct (_ <? _)%Z);
    discriminate.
Qed.

Lemma reasoning_minimal (soil temp : Z) :
  reasoning soil temp
  = "Minimal watering needed due to sufficient soil moisture" ->
  (60 < soil)%Z.
Proof.
  unfold reasoning.
  destruct ((soil <? 40)%Z && (30 <? temp)%Z); [discriminate|].
  destruct ((40 <=? soil)%Z && (soil <=? 60)%Z); [discriminate|].
  destruct (Z.ltb_spec 60 soil); [easy|discriminate].
Qed.

Lemma in_range_Z (soil temp : Z) :
  (0 <= soil <= 100)%Z -> (0 <= temp <= 50)%Z ->
  in_range (inject_Z soil) (inject_Z temp).
Proof.
  intros Hs Ht. unfold in_range, Qle, inject_Z. cbn [Qnum Qden]. lia.
Qed.

Lemma Z_as_Q (lo hi z : Z) :
  (lo <= z <= hi)%Z -> inject_Z lo <= inject_Z z <= inject_Z hi.
Proof. now rewrite <- !Zle_Qle. Qed.

(** Both font files exist. *)
Definition fonts_exist (fs : gset string) : Prop :=
  "fonts/bookantiqua.ttf" ∈ fs /\ "fonts/bookantiqua_bold.ttf" ∈ fs.

Lemma fonts_exist_bits (fs : gset string) :
  fonts_exist fs <->
  present fs "fonts/bookantiqua.ttf"
  && present fs "fonts/bookantiqua_bold.ttf" = true.
Proof.
  unfold fonts_exist, present.
  now rewrite andb_true_iff, !bool_decide_eq_true.
Qed.

(** A field of a summary equation [E], as the hypothesis [H]. *)
Ltac summary_field E proj H :=
  pose proof (f_equal proj E) as H;
  cbn [sum_stdout sum_pages sum_outputs sum_fonts_loaded sum_fonts_used
       sum_images sum_saved sum_paragraphs summary andb] in H.

(** The summary when the bits of the fonts and of the screenshots are
    known. *)
Lemma report_summary_bits (fs : gset string) (today : string) (f s : bool) :
  present fs "fonts/bookantiqua.ttf"
  && present fs "fonts/bookantiqua_bold.ttf" = f ->
  present fs "Screenshot from 2025-03-23 14-12-50.png"
  && present fs "Screenshot from 2025-03-23 14-13-19.png"
  && present fs "Screenshot from 2025-03-23 14-13-47.png" = s ->
  let st := report_on (add_fs fs driver_world) today in
  pages (rs_ops st) = (if f then if s then 9 else 5 else 1)%nat
  /\ outputs (rs_ops st) = (if f && s then [report_file] else [])
  /\ fonts_used (rs_ops st) = [if f then "Book Antiqua" else "Arial"]
  /\ (f = true -> s = true -> length (images (rs_ops st)) = 16%nat)
  /\ exists line,
       last (w_stdout (rs_world st))
       = Some (if f && s
               then "Enhanced report generated: " ++ announced_file
               else "Error generating PDF report: " ++ line).
Proof.
  intros Hf Hs st. pose proof (report_summary fs today) as E.
  fold st in E. unfold expected in E. cbv zeta in E. rewrite Hf, Hs in E.
  summary_field E sum_pages Hp. summary_field E sum_outputs Ho.
  summary_field E sum_fonts_used Hu. summary_field E sum_images Hi.
  summary_field E sum_stdout Hl. clear E.
  split; [exact Hp|]. split; [exact Ho|]. split; [exact Hu|].
  split; [intros -> ->; exact Hi|].
  rewrite Hl. destruct f, s; cbn [andb]; [exists EmptyString|eexists..];
    reflexivity.
Qed.

Lemma report_fonts_loaded (fs : gset string) (today : string) :
  fonts_loaded (rs_ops (report_on (add_fs fs driver_world) today))
  = pick [present fs "fonts/bookantiqua.ttf";
          present fs "fonts/bookantiqua.ttf"
          && present fs "fonts/bookantiqua_bold.ttf"]
         ["fonts/bookantiqua.ttf"; "fonts/bookantiqua_bold.ttf"].
Proof. exact (f_equal sum_fonts_loaded (report_summary fs today)). Qed.

Lemma report_first_line (fs : gset string) (today : string) :
  ~ fonts_exist fs ->
  exists msg,
    head (w_stdout (rs_world (report_on (add_fs fs driver_world) today)))
    = Some ("Error loading fonts: " ++ msg ++ ". Using Arial instead.").
Proof.
  intros H. rewrite fonts_exist_bits in H. apply not_true_is_false in H.
  pose proof (report_summary fs today) as E. unfold expected in E.
  cbv zeta in E. rewrite H in E. summary_field E sum_stdout Hl.
  rewrite Hl. eexists. reflexivity.
Qed.

(** With the five files in place: the figures are those the driver
    saved, and the paragraphs of the test cases carry the levels of the
    cases. *)
Lemma report_paragraphs (fs : gset string) (today : string) :
  fonts_exist fs -> screenshots_exist fs ->
  let st := report_on (add_fs fs driver_world) today in
  w_saved (rs_world st) = w_saved driver_world
  /\ case_paragraphs (rs_ops st)
     = map (fun case => analysis case.1 case.2 (case_level case)) test_cases.
Proof.
  intros Hf Hs st. apply fonts_exist_bits in Hf.
  apply screenshots_exist_bits in Hs.
  pose proof (report_summary fs today) as E. fold st in E.
  unfold expected in E. cbv zeta in E. rewrite Hf, Hs in E.
  summary_field E sum_saved H1. summary_field E sum_paragraphs H2.
  now split.
Qed.

(** ** The claims *)

(** C3: the report is written exactly when five files exist before the
    script starts: the two font files of lines 109-110 and the three
    files "Screenshot from 2025-03-23 ....png" of lines 191-195.  On every
    file system the script ends without an exception, and [pdf.output] is
    called, once and with "Fuzzy_Logic_Report.pdf", if and only if all
    five exist.  Nothing in the script creates any of them. *)
Theorem report_written_iff (fs : gset string) (today : string) :
  exists st,
    main fs today = Ok st
    /\ (outputs (rs_ops st) = [report_file]
        <-> fonts_exist fs /\ screenshots_exist fs)
    /\ (outputs (rs_ops st) = []
        <-> ~ (fonts_exist fs /\ screenshots_exist fs)).
Proof.
  eexists. split; [apply main_eq|].
  destruct (report_summary_bits fs today _ _ eq_refl eq_refl)
    as (_ & Ho & _).
  rewrite Ho, fonts_exist_bits, screenshots_exist_bits, <- andb_true_iff.
  destruct (_ && _ && (_ && _ && _)); now repeat split.
Qed.

(** C23: when the fonts and the three screenshots exist the script
    calls [add_page] nine times (automatic page breaks, which add pages
    of their own, are not modelled) and [image] sixteen times, and the
    report is written as "Fuzzy_Logic_Report.pdf", while the line printed
    last announces "Fuzzy_Logic_Report V1.4.pdf", a file the script does
    not write. *)
Theorem report_success (fs : gset string) (today : string) :
  fonts_exist fs -> screenshots_exist fs ->
  exists st,
    main fs today = Ok st
    /\ pages (rs_ops st) = 9%nat
    /\ length (images (rs_ops st)) = 16%nat
    /\ outputs (rs_ops st) = ["Fuzzy_Logic_Report.pdf"]
    /\ w_stdout (rs_world st)
       = ["Enhanced report generated: Fuzzy_Logic_Report V1.4.pdf"].
Proof.
  intros Hf Hs. apply fonts_exist_bits in Hf.
  apply screenshots_exist_bits in Hs.
  eexists. split; [apply main_eq|].
  destruct (report_summary_bits fs today _ _ Hf Hs)
    as (Hp & Ho & _ & Hi & _).
  pose proof (f_equal sum_stdout (report_summary fs today)) as Hl.
  unfold expected in Hl. cbv zeta in Hl. rewrite Hf, Hs in Hl.
  repeat split; auto.
Qed.

(** C22: with the fonts in place, when one of the three screenshots is
    missing [pdf.image] raises after the fifth call of [add_page], the
    handler of line 289 prints one line that starts with "Error
    generating PDF report: ", and no PDF is written. *)
Theorem report_failure (fs : gset string) (today : string) :
  fonts_exist fs -> ~ screenshots_exist fs ->
  exists st msg,
    main fs today = Ok st
    /\ pages (rs_ops st) = 5%nat
    /\ outputs (rs_ops st) = []
    /\ last (w_stdout (rs_world st))
       = Some ("Error generating PDF report: " ++ msg).
Proof.
  intros Hf Hs. apply fonts_exist_bits in Hf.
  rewrite screenshots_exist_bits in Hs. apply not_true_is_false in Hs.
  destruct (report_summary_bits fs today _ _ Hf Hs)
    as (Hp & Ho & _ & _ & msg & Hl).
  eexists. exists msg. split; [apply main_eq|]. now repeat split.
Qed.

(** C24: the fallback of lines 113-116 cannot produce a report.  When a
    font file is missing the script prints the line of line 114 and goes
    on with Arial, a core font, which encodes Latin-1 only; the line of
    the first team member (line 128) has an en dash, so the text cannot
    be encoded: no PDF is written, and the line of line 290 is printed
    last.  When only the bold file is missing the regular font has been
    registered all the same. *)
Theorem font_fallback (fs : gset string) (today : string) :
  ~ fonts_exist fs ->
  exists st msg msg',
    main fs today = Ok st
    /\ fonts_used (rs_ops st) = ["Arial"]
    /\ outputs (rs_ops st) = []
    /\ head (w_stdout (rs_world st))
       = Some ("Error loading fonts: " ++ msg ++ ". Using Arial instead.")
    /\ last (w_stdout (rs_world st))
       = Some ("Error generating PDF report: " ++ msg')
    /\ ("fonts/bookantiqua.ttf" ∈ fs ->
        fonts_loaded (rs_ops st) = ["fonts/bookantiqua.ttf"]).
Proof.
  intros Hf. destruct (report_first_line fs today Hf) as (msg & Hh).
  pose proof Hf as Hf'. rewrite fonts_exist_bits in Hf'.
  apply not_true_is_false in Hf'.
  destruct (report_summary_bits fs today _ _ Hf' eq_refl)
    as (Hp & Ho & Hu & _ & msg' & Hl).
  eexists. exists msg, msg'. split; [apply main_eq|].
  do 4 (split; [assumption|]). intros H1.
  rewrite report_fonts_loaded. unfold present in *.
  rewrite (bool_decide_eq_true_2 _ H1) in *. cbn [andb] in Hf'.
  now rewrite Hf'.
Qed.

(** C27: the sentence of lines 265-270 agrees with the level beside it:
    for integer readings on the grids, "High water need ..." is printed
    only with a level of at least 50, and "Minimal watering needed ..."
    only with a level of at most 50. *)
Theorem reasoning_agrees_with_level (soil temp : Z) (c : Q) :
  (0 <= soil <= 100)%Z -> (0 <= temp <= 50)%Z ->
  sprinkle_level (inject_Z soil) (inject_Z temp) = Ok c ->
  (reasoning soil temp
   = "High water need due to dry soil and high temperature" -> 50 <= c)
  /\ (reasoning soil temp
      = "Minimal watering needed due to sufficient soil moisture" ->
      c <= 50).
Proof.
  intros Hs Ht Hc. pose proof (in_range_Z soil temp Hs Ht) as Hr.
  split; intros H.
  - apply reasoning_high in H as [H1 H2].
    apply (level_at_least_half _ _ Hr c); [| |exact Hc].
    + unfold Qle, inject_Z. cbn [Qnum Qden]. lia.
    + right. unfold Qle, inject_Z. cbn [Qnum Qden]. lia.
  - apply reasoning_minimal in H.
    apply (level_at_most_half _ _ Hr c); [|exact Hc].
    left. unfold Qle, inject_Z. cbn [Qnum Qden]. lia.
Qed.

(** C26: the PDF and the lines printed depend on the file system only
    through the existence of five files, the two fonts and the three
    screenshots: on two file systems that agree on those, the script makes
    the same calls on the PDF object and prints the same lines. *)
Theorem report_reads_checked_files_only (fs1 fs2 : gset string)
  (today : string) :
  (forall p, p ∈ checked -> p ∈ fs1 <-> p ∈ fs2) ->
  exists st1 st2,
    main fs1 today = Ok st1 /\ main fs2 today = Ok st2
    /\ rs_ops st1 = rs_ops st2
    /\ w_stdout (rs_world st1) = w_stdout (rs_world st2).
Proof.
  intros H. do 2 eexists. split; [apply main_eq|]. split; [apply main_eq|].
  destruct (generate_report_respects today _ _ (start_agree fs1 fs2 H))
    as [(H1 & _ & _ & H4 & _) _].
  now split.
Qed.

(** C31: the labels of line 260 agree with the fuzzy sets of lines
    20-22: a reading labelled "Very Dry" belongs to "dry" alone, with a
    degree above 3/5; one labelled "Very Wet" to "wet" alone, with a
    degree of at least 3/5; one labelled "Moderate" to "moist" with a
    degree of at least 2/3. *)
Theorem soil_label_matches_terms (soil : Z) :
  (0 <= soil <= 100)%Z ->
  (soil_label soil = "Very Dry" ->
   3 / 5 < trimf_at soil_dry (inject_Z soil)
   /\ trimf_at soil_moist (inject_Z soil) == 0
   /\ trimf_at soil_wet (inject_Z soil) == 0)
  /\ (soil_label soil = "Very Wet" ->
      3 / 5 <= trimf_at soil_wet (inject_Z soil)
      /\ trimf_at soil_dry (inject_Z soil) == 0
      /\ trimf_at soil_moist (inject_Z soil) == 0)
  /\ (soil_label soil = "Moderate" ->
      2 / 3 <= trimf_at soil_moist (inject_Z soil)).
Proof.
  intros Hs. unfold soil_label.
  destruct (Z.ltb_spec soil 20) as [H1|H1]; [|
  destruct (Z.ltb_spec soil 40) as [H2|H2]; [|
  destruct (Z.ltb_spec soil 60) as [H3|H3]; [|
  destruct (Z.ltb_spec soil 80) as [H4|H4]]]];
    (split; [|split]); try discriminate; intros _;
    apply Z_as_Q in Hs; rewrite ?Zlt_Qlt, ?Zle_Qle in *;
    change (inject_Z 0) with 0 in *; change (inject_Z 100) with 100 in *;
    change (inject_Z 20) with 20 in *; change (inject_Z 40) with 40 in *;
    change (inject_Z 60) with 60 in *; change (inject_Z 80) with 80 in *;
    set (s := inject_Z soil) in *; clearbody s.
  - repeat split; tri_eval; q_solve.
  - split_at s 50; tri_eval; q_solve.
  - repeat split; tri_eval; q_solve.
Qed.

(** C25: the report and the charts agree on the levels.  With the
    fonts and the screenshots in place, every test case has a level; the
    chart the driver saved for it (line 89) shows that level to two
    decimals in its title, and the paragraph the report prints for it
    (lines 259-264) shows the same level to one decimal, although the
    second pass of lines 250-253 runs on the simulation object the driver
    left behind. *)
Theorem report_levels_match_charts (fs : gset string) (today : string) :
  fonts_exist fs -> screenshots_exist fs ->
  exists st,
    main fs today = Ok st
    /\ Forall (fun case =>
                 sprinkle_level (inject_Z case.1) (inject_Z case.2)
                 = Ok (case_level case)) test_cases
    /\ map (fun e => fig_title e.2) (drop 3 (w_saved (rs_world st)))
       = map (fun case => case_title case.1 case.2 (case_level case))
             test_cases
    /\ case_paragraphs (rs_ops st)
       = map (fun case => analysis case.1 case.2 (case_level case))
             test_cases.
Proof.
  intros Hf Hs. eexists. split; [apply main_eq|].
  destruct (report_paragraphs fs today Hf Hs) as [Hsaved Hpar].
  split; [|split; [|exact Hpar]].
  - eapply Forall_impl; [exact test_cases_ok|]. apply case_level_Ok.
  - rewrite Hsaved, driver_world_cases.
    change (drop 3 (membership_entries ++ ?l)%list) with l.
    apply case_entries_titles.
Qed.

(** ** Witnesses *)

Definition fonts_fs : gset string :=
  {[ "fonts/bookantiqua.ttf"; "fonts/bookantiqua_bold.ttf" ]}.

Definition all_fs : gset string :=
  fonts_fs ∪ list_to_set (map fst screenshots).

Lemma all_fs_fonts : fonts_exist all_fs.
Proof. apply (bool_decide_unpack _). vm_compute. exact I. Defined.

Lemma all_fs_shots : screenshots_exist all_fs.
Proof. apply (bool_decide_unpack _). vm_compute. exact I. Defined.

Lemma fonts_fs_fonts : fonts_exist fonts_fs.
Proof. apply (bool_decide_unpack _). vm_compute. exact I. Defined.

Lemma fonts_fs_no_shots : ~ screenshots_exist fonts_fs.
Proof.
  intros H. apply (bool_decide_pack _) in H. vm_compute in H. exact H.
Defined.

Lemma no_fonts : ~ fonts_exist ∅.
Proof. intros [H _]. exact (not_elem_of_empty _ H). Defined.

Lemma report_success_witness :
  exists st,
    main all_fs "March 23, 2025" = Ok st
    /\ pages (rs_ops st) = 9%nat
    /\ length (images (rs_ops st)) = 16%nat
    /\ outputs (rs_ops st) = ["Fuzzy_Logic_Report.pdf"]
    /\ w_stdout (rs_world st)
       = ["Enhanced report generated: Fuzzy_Logic_Report V1.4.pdf"].
Proof.
  exact (report_success all_fs "March 23, 2025" all_fs_fonts all_fs_shots).
Defined.

Lemma report_failure_witness :
  exists st msg,
    main fonts_fs "March 23, 2025" = Ok st
    /\ pages (rs_ops st) = 5%nat
    /\ outputs (rs_ops st) = []
    /\ last (w_stdout (rs_world st))
       = Some ("Error generating PDF report: " ++ msg).
Proof.
  exact (report_failure fonts_fs "March 23, 2025" fonts_fs_fonts
           fonts_fs_no_shots).
Defined.

Lemma font_fallback_witness :
  exists st msg msg',
    main ∅ "March 23, 2025" = Ok st
    /\ fonts_used (rs_ops st) = ["Arial"]
    /\ outputs (rs_ops st) = []
    /\ head (w_stdout (rs_world st))
       = Some ("Error loading fonts: " ++ msg ++ ". Using Arial instead.")
    /\ last (w_stdout (rs_world st))
       = Some ("Error generating PDF report: " ++ msg')
    /\ ("fonts/bookantiqua.ttf" ∈ (∅ : gset string) ->
        fonts_loaded (rs_ops st) = ["fonts/bookantiqua.ttf"]).
Proof. exact (font_fallback ∅ "March 23, 2025" no_fonts). Defined.

Lemma reasoning_agrees_with_level_witness :
  (reasoning 30 35
   = "High water need due to dry soil and high temperature" ->
   50 <= level_at 30 35)
  /\ (reasoning 30 35
      = "Minimal watering needed due to sufficient soil moisture" ->
      level_at 30 35 <= 50).
Proof.
  apply (reasoning_agrees_with_level 30 35); [lia|lia|].
  now apply level_at_Ok.
Defined.

Lemma report_reads_checked_files_only_witness :
  exists st1 st2,
    main ∅ "March 23, 2025" = Ok st1
    /\ main {[ "notes.txt" ]} "March 23, 2025" = Ok st2
    /\ rs_ops st1 = rs_ops st2
    /\ w_stdout (rs_world st1) = w_stdout (rs_world st2).
Proof.
  apply report_reads_checked_files_only. intros p Hp.
  rewrite elem_of_empty, elem_of_singleton. split; [easy|intros ->].
  apply list_elem_of_In in Hp. cbn in Hp.
  repeat (destruct Hp as [Hp|Hp]; [discriminate Hp|]). destruct Hp.
Defined.

Lemma soil_label_matches_terms_witness :
  (soil_label 10 = "Very Dry" ->
   3 / 5 < trimf_at soil_dry (inject_Z 10)
   /\ trimf_at soil_moist (inject_Z 10) == 0
   /\ trimf_at soil_wet (inject_Z 10) == 0)
  /\ (soil_label 10 = "Very Wet" ->
      3 / 5 <= trimf_at soil_wet (inject_Z 10)
      /\ trimf_at soil_dry (inject_Z 10) == 0
      /\ trimf_at soil_moist (inject_Z 10) == 0)
  /\ (soil_label 10 = "Moderate" ->
      2 / 3 <= trimf_at soil_moist (inject_Z 10)).
Proof. apply soil_label_matches_terms. lia. Defined.

Lemma report_levels_match_charts_witness :
  exists st,
    main all_fs "March 23, 2025" = Ok st
    /\ Forall (fun case =>
                 sprinkle_level (inject_Z case.1) (inject_Z case.2)
                 = Ok (case_level case)) test_cases
    /\ map (fun e => fig_title e.2) (drop 3 (w_saved (rs_world st)))
       = map (fun case => case_title case.1 case.2 (case_level case))
             test_cases
    /\ case_paragraphs (rs_ops st)
       = map (fun case => analysis case.1 case.2 (case_level case))
             test_cases.
Proof.
  exact (report_levels_match_charts all_fs "March 23, 2025" all_fs_fonts
           all_fs_shots).
Defined.
